(** * Conway's Game of Life (game-of-life.tsx): simulation and interaction core

    A shallow embedding of the component's core: the neighbour count, the
    step function, the grid-sizing policy, the pointer handlers and the
    timer-driven game loop, together with the properties the specification
    states about them.

    Arrays are JavaScript objects: a [boolean[][]] value is a reference to an
    outer array whose entries are references to row arrays.  The embedding
    keeps both kinds of object in a store, so that copying ([[...row]],
    [[...currentGrid]]) and sharing of rows between two grids are visible.

    The source file carries two revisions of the component; the embedding
    follows the current one, which comes first in the file.  Of the second
    one only the sizing functions are embedded (module [Unbounded]). *)

From Stdlib Require Import ZArith QArith Qround Qminmax Lia Bool.
From Stdlib Require Import Lqa.
From stdpp Require Import base tactics option list.

Local Open Scope Z_scope.

(** ** JavaScript arrays in a store *)

Module JS.

(** An entry of a row: [Some b] is the boolean [b]; [None] is [undefined]
    (an index past the end reads as [undefined], and so does an empty slot
    left behind by a write past the end). *)
Abbreviation cell := (option bool).

Definition truthy (c : cell) : bool :=
  match c with
  | Some b => b
  | None => false
  end.

Definition rowref := nat.
Definition gridref := nat.

(** The store: every row array and every outer array ever created, by
    identity.  A reference is the position of its object. *)
Record store := Store {
  rowObjs : list (list cell);
  gridObjs : list (list rowref)
}.

Inductive exn :=
| TypeError   (* thrown by JavaScript: a property of undefined, or spreading undefined *)
| RangeError  (* thrown by JavaScript: Array(n) with a negative n *)
| Dangling    (* a reference that names no object of the store *)
| Diverged.   (* a loop that went on past the iterations allowed to it *)

Inductive result (A : Type) :=
| Ok (a : A) (st : store)
| Throw (e : exn).
Arguments Ok {A} a st.
Arguments Throw {A} e.

Definition M (A : Type) : Type := store -> result A.

#[export] Instance M_ret : MRet M := fun A a st => Ok a st.
#[export] Instance M_bind : MBind M := fun A B f m st =>
  match m st with
  | Ok a st' => f a st'
  | Throw e => Throw e
  end.

Definition throw {A} (e : exn) : M A := fun _ => Throw e.

(** *** Object creation and access *)

Definition allocRow (cs : list cell) : M rowref := fun st =>
  Ok (length (rowObjs st)) (Store (rowObjs st ++ [cs]) (gridObjs st)).

Definition allocGrid (rs : list rowref) : M gridref := fun st =>
  Ok (length (gridObjs st)) (Store (rowObjs st) (gridObjs st ++ [rs])).

Definition getRow (r : rowref) : M (list cell) := fun st =>
  match rowObjs st !! r with
  | Some cs => Ok cs st
  | None => Throw Dangling
  end.

Definition getGrid (g : gridref) : M (list rowref) := fun st =>
  match gridObjs st !! g with
  | Some rs => Ok rs st
  | None => Throw Dangling
  end.

Definition putRow (r : rowref) (cs : list cell) : M unit := fun st =>
  match rowObjs st !! r with
  | Some _ => Ok tt (Store (<[r := cs]> (rowObjs st)) (gridObjs st))
  | None => Throw Dangling
  end.

Definition putGrid (g : gridref) (rs : list rowref) : M unit := fun st =>
  match gridObjs st !! g with
  | Some _ => Ok tt (Store (rowObjs st) (<[g := rs]> (gridObjs st)))
  | None => Throw Dangling
  end.

(** [arr[i] = v] on a row: inside the array the entry is replaced; past the
    end the array grows to length [i + 1], the slots in between left empty. *)
Definition jsSet (cs : list cell) (i : nat) (v : cell) : list cell :=
  if decide (i < length cs)%nat then <[i := v]> cs
  else cs ++ replicate (i - length cs) None ++ [v].

(** [grid.length] *)
Definition gridLength (g : gridref) : M nat :=
  rs ← getGrid g; mret (length rs).

(** [grid[i]]: a row reference, or [undefined] *)
Definition gridIndex (g : gridref) (i : nat) : M (option rowref) :=
  rs ← getGrid g; mret (rs !! i).

(** [grid[i]] used as an object (indexed, measured or spread): a
    [TypeError] when it is [undefined]. *)
Definition gridRow (g : gridref) (i : nat) : M rowref :=
  o ← gridIndex g i;
  match o with
  | Some r => mret r
  | None => throw TypeError
  end.

(** [row.length] *)
Definition rowLength (r : rowref) : M nat :=
  cs ← getRow r; mret (length cs).

(** [row[i]] *)
Definition rowIndex (r : rowref) (i : nat) : M cell :=
  cs ← getRow r; mret (mjoin (cs !! i)).

(** [row[i] = v] *)
Definition rowSet (r : rowref) (i : nat) (v : cell) : M unit :=
  cs ← getRow r; putRow r (jsSet cs i v).

(** [grid[row][col]] *)
Definition getCell (g : gridref) (row col : nat) : M cell :=
  r ← gridRow g row; rowIndex r col.

(** [grid[row][col] = v] *)
Definition setCell (g : gridref) (row col : nat) (v : cell) : M unit :=
  r ← gridRow g row; rowSet r col v.

(** [[...row]]: a new array with the same entries *)
Definition spreadRow (r : rowref) : M rowref :=
  cs ← getRow r; allocRow cs.

(** [grid[i] = [...grid[i]]]: the right-hand side is evaluated first and
    throws when [grid[i]] is [undefined], so the write that follows is
    inside the outer array. *)
Definition copyRow (g : gridref) (i : nat) : M unit :=
  r ← gridRow g i;
  r' ← spreadRow r;
  rs ← getGrid g;
  putGrid g (<[i := r']> rs).

(** [[...grid]]: a new outer array holding the same row references *)
Definition spreadGrid (g : gridref) : M gridref :=
  rs ← getGrid g; allocGrid rs.

(** *** Loops *)

(** [for (let i = ...; i < bound; i++) body], from [i] on.  The test
    [i < bound] is evaluated before every iteration; [fuel] is the number
    of iterations still allowed. *)
Fixpoint forFrom (fuel : nat) (bound : M nat) (body : nat -> M unit) (i : nat) : M unit :=
  n ← bound;
  if decide (i < n)%nat then
    match fuel with
    | O => throw Diverged
    | S fuel' => body i ;; forFrom fuel' bound body (S i)
    end
  else mret tt.

(** [for (let i = 0; i < bound; i++) body].  A body that leaves the bound
    alone runs as many times as the bound says when the loop is entered;
    that many iterations are allowed. *)
Definition forLoop (bound : M nat) (body : nat -> M unit) : M unit :=
  n ← bound; forFrom n bound body 0.

(** [for (const x of xs) body], with a local variable [s] that the body
    updates *)
Fixpoint forFold {A S} (xs : list A) (body : S -> A -> M S) (s : S) : M S :=
  match xs with
  | [] => mret s
  | x :: xs' => s' ← body s x; forFold xs' body s'
  end.

(** [xs.map(f)] where [f] creates objects *)
Fixpoint mapArray {A B} (f : A -> M B) (xs : list A) : M (list B) :=
  match xs with
  | [] => mret []
  | x :: xs' => y ← f x; ys ← mapArray f xs'; mret (y :: ys)
  end.

(** *** The value a grid reference stands for *)

Definition readRows (st : store) (rs : list rowref) : option (list (list cell)) :=
  mapM (fun r => rowObjs st !! r) rs.

Definition readGrid (st : store) (g : gridref) : option (list (list cell)) :=
  rs ← gridObjs st !! g; readRows st rs.

(** Every object of [st] is an object of [st'], with the same contents. *)
Definition preserved (st st' : store) : Prop :=
  rowObjs st `prefix_of` rowObjs st' /\ gridObjs st `prefix_of` gridObjs st'.

End JS.

Import JS.

(** ** The automaton: [countNeighbors], [nextGeneration], [getPopulation] *)

Module Life.

Definition directions : list (Z * Z) :=
  [(-1, -1); (-1, 0); (-1, 1); (0, -1); (0, 1); (1, -1); (1, 0); (1, 1)].

(** The guard of [countNeighbors],
    [newRow >= 0 && newRow < grid.length && newCol >= 0 && newCol < grid[0].length],
    evaluated left to right: [grid[0]] is only looked at once the first
    three tests have passed. *)
Definition inGrid (grid : gridref) (newRow newCol : Z) : M bool :=
  if 0 <=? newRow then
    len ← gridLength grid;
    if newRow <? Z.of_nat len then
      if 0 <=? newCol then
        r0 ← gridRow grid 0;
        w ← rowLength r0;
        mret (newCol <? Z.of_nat w)
      else mret false
    else mret false
  else mret false.

Definition countNeighbors (grid : gridref) (row col : Z) : M nat :=
  forFold directions (fun (count : nat) '(dx, dy) =>
    let newRow := row + dx in
    let newCol := col + dy in
    b ← inGrid grid newRow newCol;
    if (b : bool) return M nat then
      c ← getCell grid (Z.to_nat newRow) (Z.to_nat newCol);
      mret (if truthy c then S count else count)
    else mret count) 0%nat.

(** The value written to [newGrid[row][col]]. *)
Definition rule (isAlive : cell) (neighbors : nat) : bool :=
  if truthy isAlive then (neighbors =? 2)%nat || (neighbors =? 3)%nat
  else (neighbors =? 3)%nat.

Definition nextGeneration (currentGrid : gridref) : M gridref :=
  rows ← getGrid currentGrid;
  newRows ← mapArray spreadRow rows;
  newGrid ← allocGrid newRows;
  forLoop (gridLength currentGrid) (fun row =>
    forLoop (r0 ← gridRow currentGrid 0; rowLength r0) (fun col =>
      neighbors ← countNeighbors currentGrid (Z.of_nat row) (Z.of_nat col);
      isAlive ← getCell currentGrid row col;
      setCell newGrid row col (Some (rule isAlive neighbors))));;
  mret newGrid.

(** [grid.flat().filter((cell) => cell).length] *)
Definition getPopulation (grid : gridref) : M nat :=
  rs ← getGrid grid;
  rows ← mapArray getRow rs;
  mret (length (filter (fun c => truthy c = true) (concat rows))).

(** The updater that [toggleCell] hands to [setGrid]. *)
Definition toggleCell (row col : nat) (currentGrid : gridref) : M gridref :=
  newGrid ← spreadGrid currentGrid;
  copyRow newGrid row;;
  c ← getCell newGrid row col;
  setCell newGrid row col (Some (negb (truthy c)));;
  mret newGrid.

(** The updater of the drag branch of [handleCellInteraction]; [paint] is
    the value of [dragMode === "paint"]. *)
Definition paintCell (row col : nat) (paint : bool) (currentGrid : gridref) : M gridref :=
  newGrid ← spreadGrid currentGrid;
  copyRow newGrid row;;
  setCell newGrid row col (Some paint);;
  mret newGrid.

End Life.

(** ** Grid sizing: [getGridDimensions], [initializeGrid] *)

Module Dims.

Local Open Scope Q_scope.

(** Viewport sizes are numbers; the arithmetic on them is exact here. *)
Record Viewport := {
  innerWidth : Q;
  innerHeight : Q
}.

Record Dimensions := {
  rows : Z;
  cols : Z;
  isMobile : bool;
  isTablet : bool;
  isDesktop : bool
}.

Definition CELL_SIZE : Q := 20.

Definition Qlt_bool (x y : Q) : bool := negb (Qle_bool y x).

(** [Math.max(Math.min(Math.floor(size / CELL_SIZE), hi), lo)] *)
Definition clampCells (size : Q) (lo hi : Z) : Z :=
  Z.max (Z.min (Qfloor (size / CELL_SIZE)) hi) lo.

(** [window] is [None] where [typeof window] is ["undefined"]. *)
Definition getGridDimensions (window : option Viewport) : Dimensions :=
  let windowHeight := match window with Some w => innerHeight w | None => 800 end in
  let windowWidth := match window with Some w => innerWidth w | None => 1200 end in
  let isMobile := Qlt_bool windowWidth 768 in
  let isTablet := Qle_bool 768 windowWidth && Qlt_bool windowWidth 1024 in
  let isDesktop := Qle_bool 1024 windowWidth in
  let '(containerHeight, containerWidth) :=
    if isMobile then
      (Qmax (windowHeight * 0.3) 250, Qmax (windowWidth - 40) 300)
    else if isTablet then
      (Qmax (windowHeight - 200) 400, Qmax (windowWidth * 0.5) 400)
    else
      (Qmax (windowHeight - 200) 500, Qmax (windowHeight - 200) 500) in
  {| rows := clampCells containerHeight 8 (if isMobile then 25 else 40);
     cols := clampCells containerWidth 10 40;
     isMobile := isMobile; isTablet := isTablet; isDesktop := isDesktop |}.

(** [Array(n).fill(null).map(() => Array(m).fill(false))] *)
Definition emptyGrid (n m : Z) : M gridref :=
  if (n <? 0)%Z then throw RangeError
  else
    rs ← mapArray (fun _ : unit =>
                     if (m <? 0)%Z then throw RangeError
                     else allocRow (replicate (Z.to_nat m) (Some false)))
                  (replicate (Z.to_nat n) tt);
    allocGrid rs.

(** The test of the safety check in [initializeGrid]. *)
Definition invalidDimensions (d : Dimensions) : bool :=
  ((rows d <=? 0) || (cols d <=? 0) || (rows d >? 100) || (cols d >? 100))%Z.

(** The branch with [console.warn] builds the default grid. *)
Definition initializeGrid (window : option Viewport) : M gridref :=
  let d := getGridDimensions window in
  if invalidDimensions d then emptyGrid 15 20
  else emptyGrid (rows d) (cols d).

End Dims.

(** ** The component: state, handlers, game loop *)

Module App.

Import Life Dims.

Inductive DragMode := paint | erase.

#[export] Instance DragMode_eq_dec : EqDecision DragMode.
Proof. solve_decision. Defined.

(** The component's state cells.  [speed] is the single entry [speed[0]]
    of the state array.  [generation] counts ticks from 0; it is kept as an
    integer (a JavaScript number is exact on integers below 2^53). *)
Record State := {
  grid : gridref;
  isRunning : bool;
  generation : Z;
  speed : Z;
  isDragging : bool;
  dragMode : DragMode;
  showRules : bool
}.

Definition setGrid (g : gridref) (s : State) : State :=
  {| grid := g; isRunning := isRunning s; generation := generation s;
     speed := speed s; isDragging := isDragging s; dragMode := dragMode s;
     showRules := showRules s |}.

Definition setIsRunning (b : bool) (s : State) : State :=
  {| grid := grid s; isRunning := b; generation := generation s;
     speed := speed s; isDragging := isDragging s; dragMode := dragMode s;
     showRules := showRules s |}.

Definition setGeneration (f : Z -> Z) (s : State) : State :=
  {| grid := grid s; isRunning := isRunning s; generation := f (generation s);
     speed := speed s; isDragging := isDragging s; dragMode := dragMode s;
     showRules := showRules s |}.

Definition setSpeed (ms : Z) (s : State) : State :=
  {| grid := grid s; isRunning := isRunning s; generation := generation s;
     speed := ms; isDragging := isDragging s; dragMode := dragMode s;
     showRules := showRules s |}.

Definition setIsDragging (b : bool) (s : State) : State :=
  {| grid := grid s; isRunning := isRunning s; generation := generation s;
     speed := speed s; isDragging := b; dragMode := dragMode s;
     showRules := showRules s |}.

Definition setDragMode (m : DragMode) (s : State) : State :=
  {| grid := grid s; isRunning := isRunning s; generation := generation s;
     speed := speed s; isDragging := isDragging s; dragMode := m;
     showRules := showRules s |}.

Definition setShowRules (b : bool) (s : State) : State :=
  {| grid := grid s; isRunning := isRunning s; generation := generation s;
     speed := speed s; isDragging := isDragging s; dragMode := dragMode s;
     showRules := b |}.

(** A handler reads the state of the render it was created in ([s]) and
    queues updates; the result is the state once the queue has been
    processed.  Reads of the handler body come before the updaters run.

    React may run the function given to a setter more than once: in a
    development build under [<StrictMode>] it runs it twice, both times on
    the same state, and keeps the result of the second run; otherwise it
    runs it once.  Whether the component is under [<StrictMode>] is
    decided by the entry point, which is not among the sources.  The
    updaters of [toggleCell] and of the drag branch only build new arrays:
    a further run of them leaves an array that nothing refers to and the
    same grid value, and they are run once here.  The updater of the game
    loop is not pure: every run of it also queues [gen => gen + 1], so the
    number of runs shows in [generation], and is modelled. *)
Definition updaterRuns (strictMode : bool) : nat :=
  if strictMode then 2%nat else 1%nat.

(** One run of the function given to [setGrid] in the game loop, on the
    grid [currentGrid] React passes to it; [s] holds what is queued so
    far.  The run computes the new grid, calls
    [setGeneration((gen) => gen + 1)] and returns the new grid. *)
Definition gameLoopUpdater (currentGrid : gridref) (s : State) : M State :=
  newGrid ← nextGeneration currentGrid;
  mret (setGrid newGrid (setGeneration (fun gen => gen + 1) s)).

(** [runs] runs of an updater, each on the same current state; the grid
    of the last run and everything queued on the way is kept. *)
Fixpoint runUpdater (runs : nat) (updater : State -> M State) (s : State) : M State :=
  match runs with
  | O => mret s
  | S n => s' ← updater s; runUpdater n updater s'
  end.

(** The callback of [setInterval] in the game loop:
    [setGrid((currentGrid) => ...)], the updater being run as often as
    React runs updaters. *)
Definition tick (strictMode : bool) (s : State) : M State :=
  runUpdater (updaterRuns strictMode) (gameLoopUpdater (grid s)) s.

(** In the click branch [toggleCell(row, col)] only queues its updater;
    [grid[row][col]] is read from the rendered grid before the updater
    runs.  [row] and [col] are indices of a rendered cell. *)
Definition handleCellInteraction (row col : nat) (isClick : bool) (s : State) : M State :=
  if isRunning s then mret s
  else if isClick then
    c ← getCell (grid s) row col;
    g' ← toggleCell row col (grid s);
    mret (setDragMode (if truthy c then erase else paint) (setGrid g' s))
  else if isDragging s then
    g' ← paintCell row col (bool_decide (dragMode s = paint)) (grid s);
    mret (setGrid g' s)
  else mret s.

Definition handleMouseDown (row col : nat) (s : State) : M State :=
  if isRunning s then mret s
  else
    s' ← handleCellInteraction row col true s;
    mret (setIsDragging true s').

Definition handleMouseEnter (row col : nat) (s : State) : M State :=
  handleCellInteraction row col false s.

Definition handleMouseUp (s : State) : State :=
  setIsDragging false s.

Definition clearGrid (window : option Viewport) (s : State) : M State :=
  g ← initializeGrid window;
  mret (setIsRunning false (setGeneration (fun _ => 0) (setGrid g s))).

Definition handleResize (window : option Viewport) (s : State) : M State :=
  g ← initializeGrid window;
  mret (setIsRunning false (setGeneration (fun _ => 0) (setGrid g s))).

Definition toggleRunning (s : State) : State :=
  setIsRunning (negb (isRunning s)) s.

(** [onValueChange] of the slider; [value] is [value[0]]. *)
Definition onValueChange (value : Z) (s : State) : State :=
  setSpeed (2100 - value) s.

(** *** The running component *)

(** [interval] is the live timer of [intervalRef], with its period;
    [strictMode] says whether the component runs in a development build
    under [<StrictMode>], which no event changes. *)
Record World := {
  heap : store;
  ui : State;
  window : Viewport;
  interval : option Z;
  strictMode : bool
}.

Inductive Event :=
| MouseDown (row col : nat)
| MouseEnter (row col : nat)
| MouseUp
| MouseLeave
| ClickPlay
| ClickClear
| SliderChange (value : Z)
| Resize (vp : Viewport)
| Tick
| HoverRules (b : bool).

(** The game-loop effect, with dependencies [isRunning] and [speed]: when
    one changed, the previous timer is cleared and, if running, a new one
    is set. *)
Definition gameLoopEffect (old new : State) (iv : option Z) : option Z :=
  if bool_decide (isRunning new = isRunning old /\ speed new = speed old) then iv
  else if isRunning new then Some (speed new) else None.

(** The cells that are rendered, and so can be pointed at: [grid.map] over
    rows and [row.map] over each row's entries. *)
Definition rendered (st : store) (g : gridref) (row col : nat) : bool :=
  match readGrid st g with
  | Some G =>
      match G !! row with
      | Some cs => bool_decide (col < length cs)%nat
      | None => false
      end
  | None => false
  end.

(** Nothing is rendered while the grid is empty
    ([if (grid.length === 0) return null]). *)
Definition shown (st : store) (g : gridref) : bool :=
  match readGrid st g with
  | Some (_ :: _) => true
  | _ => false
  end.

(** The values the slider reports.  The slider component itself is not
    part of the source; it is given [min = 100] and [max = 2000]. *)
Definition sliderValue (value : Z) : bool :=
  (100 <=? value) && (value <=? 2000).

(** Which events can occur in a world. *)
Definition enabled (e : Event) (w : World) : bool :=
  match e with
  | MouseDown row col | MouseEnter row col =>
      rendered (heap w) (grid (ui w)) row col
  | SliderChange value => shown (heap w) (grid (ui w)) && sliderValue value
  | Tick => bool_decide (is_Some (interval w))
  | Resize _ => true
  | MouseUp | MouseLeave | ClickPlay | ClickClear | HoverRules _ =>
      shown (heap w) (grid (ui w))
  end.

Definition handler (e : Event) (w : World) : M State :=
  match e with
  | MouseDown row col => handleMouseDown row col (ui w)
  | MouseEnter row col => handleMouseEnter row col (ui w)
  | MouseUp | MouseLeave => mret (handleMouseUp (ui w))
  | ClickPlay => mret (toggleRunning (ui w))
  | ClickClear => clearGrid (Some (window w)) (ui w)
  | SliderChange value => mret (onValueChange value (ui w))
  | Resize vp => handleResize (Some vp) (ui w)
  | Tick => tick (strictMode w) (ui w)
  | HoverRules b => mret (setShowRules b (ui w))
  end.

Definition windowAfter (e : Event) (w : World) : Viewport :=
  match e with
  | Resize vp => vp
  | _ => window w
  end.

(** One event: the handler runs on the state of the latest render, the
    component renders again and the game-loop effect runs, all before the
    next event.  [None]: the event cannot occur, or the handler throws. *)
Definition step (e : Event) (w : World) : option World :=
  if enabled e w then
    match handler e w (heap w) with
    | Ok s' st' =>
        Some {| heap := st'; ui := s'; window := windowAfter e w;
                interval := gameLoopEffect (ui w) s' (interval w);
                strictMode := strictMode w |}
    | Throw _ => None
    end
  else None.

Fixpoint run (es : list Event) (w : World) : option World :=
  match es with
  | [] => Some w
  | e :: es' => w' ← step e w; run es' w'
  end.

(** The first render holds [useState([])]; the mount effect replaces it.
    [strict] says whether the component is mounted in a development build
    under [<StrictMode>].  (There React also runs the mount effect a second
    time; the grid of the second run has the value of the first, and the
    effect is run once here.) *)
Definition initialState : State :=
  {| grid := 0%nat; isRunning := false; generation := 0; speed := 500;
     isDragging := false; dragMode := paint; showRules := false |}.

Definition mount (strict : bool) (vp : Viewport) : option World :=
  match initializeGrid (Some vp) (Store [] [[]]) with
  | Ok g st => Some {| heap := st; ui := setGrid g initialState;
                       window := vp; interval := None; strictMode := strict |}
  | Throw _ => None
  end.

Inductive reachable : World -> Prop :=
| reachable_mount strict vp w : mount strict vp = Some w -> reachable w
| reachable_step e w w' : reachable w -> step e w = Some w' -> reachable w'.

End App.

(** ** Grids as values *)

(** What the store-level functions compute, as functions of the value
    ([readGrid]) of their argument; the lemmas [countNeighbors_run],
    [nextGeneration_run], [toggleCell_run] and [paintCell_run] relate the
    two levels. *)
Module Val.

Import Life.

Abbreviation grid := (list (list cell)).

Definition cellAt (G : grid) (row col : nat) : cell :=
  cs ← G !! row; mjoin (cs !! col).

(** [grid[0].length], for a grid with a first row *)
Definition width (G : grid) : nat :=
  match G with
  | cs :: _ => length cs
  | [] => 0
  end.

Definition inGrid (G : grid) (newRow newCol : Z) : bool :=
  (0 <=? newRow) && (newRow <? Z.of_nat (length G)) &&
  (0 <=? newCol) && (newCol <? Z.of_nat (width G)).

Definition countNeighbors (G : grid) (row col : Z) : nat :=
  foldl (fun (count : nat) '(dx, dy) =>
    if inGrid G (row + dx) (col + dy) then
      if truthy (cellAt G (Z.to_nat (row + dx)) (Z.to_nat (col + dy)))
      then S count else count
    else count) 0%nat directions.

Definition writeCell (N : grid) (row col : nat) (v : cell) : grid :=
  match N !! row with
  | Some cs => <[row := jsSet cs col v]> N
  | None => N
  end.

Definition newCell (G : grid) (row col : nat) : cell :=
  Some (rule (cellAt G row col) (countNeighbors G (Z.of_nat row) (Z.of_nat col))).

Definition nextGeneration (G : grid) : grid :=
  foldl (fun N row =>
    foldl (fun N col => writeCell N row col (newCell G row col))
          N (seq 0 (width G)))
    G (seq 0 (length G)).

(** Row [row] of the next generation of a grid with [C] columns. *)
Definition nextRow (G : grid) (C row : nat) : list cell :=
  (fun col => newCell G row col) <$> seq 0 C.

(** The store once [nextGeneration] has copied the [n] rows of its
    argument and the copies hold [N]. *)
Definition withCopy (st : store) (n : nat) (N : grid) : store :=
  Store (rowObjs st ++ N) (gridObjs st ++ [seq (length (rowObjs st)) n]).

Definition getPopulation (G : grid) : nat :=
  length (filter (fun c => truthy c = true) (concat G)).

Definition toggleCell (row col : nat) (G : grid) : grid :=
  writeCell G row col (Some (negb (truthy (cellAt G row col)))).

Definition paintCell (row col : nat) (paint : bool) (G : grid) : grid :=
  writeCell G row col (Some paint).

End Val.

(** ** The specification's vocabulary *)

Module Spec.

Import Val.

(** A rectangular grid of [R] rows and [C] columns. *)
Definition rectangular (R C : nat) (G : grid) : Prop :=
  length G = R /\ Forall (fun cs => length cs = C) G.

(** The 8 fixed offsets {(-1,-1)...(1,1)} excluding (0,0). *)
Definition offsets : list (Z * Z) :=
  filter (fun d => d <> (0, 0)) (list_prod [-1; 0; 1] [-1; 0; 1]).

(** A coordinate inside [0,R) x [0,C). *)
Definition inside (R C : nat) (r c : Z) : bool :=
  (0 <=? r) && (r <? Z.of_nat R) && (0 <=? c) && (c <? Z.of_nat C).

(** The cell at [(r, c)] is alive; there is no cell at a negative
    coordinate or past the end of the grid. *)
Definition alive (G : grid) (r c : Z) : bool :=
  (0 <=? r) && (0 <=? c) && truthy (cellAt G (Z.to_nat r) (Z.to_nat c)).

(** The offsets of [(row, col)] that fall inside the grid. *)
Definition positions (R C : nat) (row col : Z) : list (Z * Z) :=
  filter (fun d => inside R C (row + d.1) (col + d.2) = true) offsets.

(** The live cells among them. *)
Definition liveNeighbors (R C : nat) (G : grid) (row col : Z) : nat :=
  length (filter (fun d => alive G (row + d.1) (col + d.2) = true)
                 (positions R C row col)).

(** Whether [(r, c)] is a live cell of [tabulate R C f] (defined below):
    inside the grid, and [f] holds there. *)
Definition liveAt (R C : nat) (f : nat -> nat -> bool) (r c : Z) : bool :=
  inside R C r c && f (Z.to_nat r) (Z.to_nat c).

(** A cell on the border: row 0, col 0, row R-1 or col C-1. *)
Definition onBorder (R C : nat) (row col : Z) : Prop :=
  row = 0 \/ col = 0 \/ row = Z.of_nat R - 1 \/ col = Z.of_nat C - 1.

(** The grid of [R] rows and [C] columns whose cell [(i, j)] is [f i j]. *)
Definition tabulate (R C : nat) (f : nat -> nat -> bool) : grid :=
  (fun i => (fun j => Some (f i j)) <$> seq 0 C) <$> seq 0 R.

Definition allDead (R C : nat) : grid :=
  replicate R (replicate C (Some false)).

(** A horizontal blinker centred at [(r, c)]: the cells
    [(r, c-1)], [(r, c)], [(r, c+1)]; and the vertical one. *)
Definition hblinker (r c : nat) (i j : nat) : bool :=
  bool_decide (i = r /\ (j + 1 = c \/ j = c \/ j = c + 1))%nat.

Definition vblinker (r c : nat) (i j : nat) : bool :=
  bool_decide (j = c /\ (i + 1 = r \/ i = r \/ i = r + 1))%nat.

(** "Clamp to the nearest bound" of [100, 2000]. *)
Definition clampSpeed (ms : Z) : Z := Z.max 100 (Z.min ms 2000).

(** The pointer events. *)
Definition isPointer (e : App.Event) : bool :=
  match e with
  | App.MouseDown _ _ | App.MouseEnter _ _ | App.MouseUp | App.MouseLeave => true
  | _ => false
  end.

(** One drag gesture: the pointer goes down on [(r0, c0)] and then enters
    the cells of [path], in order. *)
Definition gesture (r0 c0 : nat) (path : list (nat * nat)) : list App.Event :=
  App.MouseDown r0 c0 :: ((fun p => App.MouseEnter p.1 p.2) <$> path).

(** What holds of the component between two events: the grid is a
    rectangle with at least one row, the timer is live exactly while
    running, with the current speed as its period, and the speed is one the
    slider can show. *)
Definition wellFormed (w : App.World) : Prop :=
  (exists G R C, readGrid (App.heap w) (App.grid (App.ui w)) = Some G /\
                 rectangular R C G /\ (0 < R)%nat) /\
  App.interval w =
    (if App.isRunning (App.ui w) then Some (App.speed (App.ui w)) else None) /\
  100 <= App.speed (App.ui w) <= 2000.

End Spec.

(** ** Sample inputs *)

Module Sample.

Import App.

(** A store holding one grid of 3 rows and 3 columns, with reference 0. *)
Definition store3 : store :=
  Store [[Some false; Some true;  Some false];
         [Some true;  Some true;  Some false];
         [Some false; Some false; Some false]]
        [[0; 1; 2]%nat].

Definition grid3 : Val.grid :=
  [[Some false; Some true;  Some false];
   [Some true;  Some true;  Some false];
   [Some false; Some false; Some false]].

Definition state3 (running : bool) : State :=
  {| grid := 0%nat; isRunning := running; generation := 7; speed := 500;
     isDragging := false; dragMode := paint; showRules := false |}.

Definition world3 (running : bool) : World :=
  {| heap := store3; ui := state3 running;
     window := {| Dims.innerWidth := 1280; Dims.innerHeight := 720 |};
     interval := if running then Some 500 else None;
     strictMode := false |}.

(** A store holding the horizontal blinker centred at (1, 1). *)
Definition blinker3 : store :=
  Store [[Some false; Some false; Some false];
         [Some true;  Some true;  Some true];
         [Some false; Some false; Some false]]
        [[0; 1; 2]%nat].

(** A phone-sized viewport, the component after mounting in it, and after
    a click on Play; and the same in a development build under
    [<StrictMode>]. *)
Definition phone : Dims.Viewport :=
  {| Dims.innerWidth := 360; Dims.innerHeight := 640 |}.

Definition mounted : World :=
  Eval vm_compute in
    match mount false phone with Some w => w | None => world3 false end.

Definition playing : World :=
  Eval vm_compute in
    match step ClickPlay mounted with Some w => w | None => mounted end.

Definition strictMounted : World :=
  Eval vm_compute in
    match mount true phone with Some w => w | None => world3 false end.

Definition strictPlaying : World :=
  Eval vm_compute in
    match step ClickPlay strictMounted with Some w => w | None => strictMounted end.

End Sample.

(** ** Further vocabulary *)

Module More.

Import Val Spec.

(** [q] is one of the eight neighbours of [p]: the difference of the two
    coordinates is one of [directions]. *)
Definition adjacent (p q : Z * Z) : bool :=
  bool_decide ((q.1 - p.1, q.2 - p.2) ∈ Life.directions).

(** 1 for a live cell, 0 otherwise. *)
Definition weight (c : cell) : nat := if truthy c then 1 else 0.

(** Every entry of the grid is a boolean: no [undefined], no empty slot. *)
Definition allBoolean (G : grid) : Prop :=
  Forall (Forall (fun c : cell => is_Some c)) G.

(** The grid of the component is a rectangle of booleans, of the
    dimensions computed for the current viewport, and the generation
    counter is not negative. *)
Definition sizedAt (st : store) (s : App.State) (vp : Dims.Viewport) : Prop :=
  let d := Dims.getGridDimensions (Some vp) in
  (exists G, readGrid st (App.grid s) = Some G /\
             rectangular (Z.to_nat (Dims.rows d)) (Z.to_nat (Dims.cols d)) G /\
             allBoolean G) /\
  0 <= App.generation s.

Definition sized (w : App.World) : Prop :=
  sizedAt (App.heap w) (App.ui w) (App.window w).

Definition sliderPosition (s : App.State) : Z := 2100 - App.speed s.

(** The 2 x 2 block with top-left corner [(r, c)]. *)
Definition block (r c : nat) (i j : nat) : bool :=
  bool_decide ((r <= i <= r + 1) /\ (c <= j <= c + 1))%nat.

(** A click on a cell: the pointer goes down and up again. *)
Definition click (row col : nat) : list App.Event :=
  [App.MouseDown row col; App.MouseUp].

(** The events that replace the grid by an empty one, and the ticks. *)
Definition resets (e : App.Event) : bool :=
  match e with
  | App.ClickClear | App.Resize _ => true
  | _ => false
  end.

Definition isTick (e : App.Event) : bool :=
  match e with
  | App.Tick => true
  | _ => false
  end.

(** Sample inputs: a store holding a grid with two live cells; a running
    component, under [<StrictMode>], showing the block with top-left corner
    (1, 1); and the component after mounting in the phone-sized viewport
    under [<StrictMode>], a click on Play, two ticks and a click on Pause. *)
Definition pair3 : store :=
  Store [[Some false; Some true;  Some false];
         [Some false; Some false; Some false];
         [Some false; Some false; Some true]]
        [[0; 1; 2]%nat].

Definition pairGrid3 : grid :=
  [[Some false; Some true;  Some false];
   [Some false; Some false; Some false];
   [Some false; Some false; Some true]].

Definition blockWorld : App.World :=
  {| App.heap :=
       Store [[Some false; Some false; Some false];
              [Some false; Some true;  Some true];
              [Some false; Some true;  Some true]]
             [[0; 1; 2]%nat];
     App.ui := Sample.state3 true;
     App.window := {| Dims.innerWidth := 1280; Dims.innerHeight := 720 |};
     App.interval := Some 500;
     App.strictMode := true |}.

Definition session : list App.Event :=
  [App.ClickPlay; App.Tick; App.Tick; App.ClickPlay].

Definition played : App.World :=
  Eval vm_compute in
    match App.run session Sample.strictMounted with
    | Some w => w
    | None => Sample.strictMounted
    end.

End More.

(** ** The sizing functions of the second revision

    The source file holds a second revision of the component (from its
    line 392 on), which computes the dimensions without bounds and builds
    the grid without a check. *)

Module Unbounded.

Import Dims.

Local Open Scope Q_scope.

Record Dimensions := {
  rows : Z;
  cols : Z
}.

Definition getGridDimensions (window : Viewport) : Dimensions :=
  let containerHeight := innerHeight window - 40 in
  let containerWidth := (innerWidth window * 0.75) - 40 in
  {| rows := Qfloor (containerHeight / CELL_SIZE);
     cols := Qfloor (containerWidth / CELL_SIZE) |}.

Definition initializeGrid (window : Viewport) : M gridref :=
  let d := getGridDimensions window in
  emptyGrid (rows d) (cols d).

End Unbounded.

(** * Properties *)

(** ** The embedding on concrete inputs *)

Section Examples.

Import Life Dims App.

(** The centre of [Sample.grid3] has two live neighbours, its top-left
    corner three. *)
Example countNeighbors_centre :
  countNeighbors 0%nat 1 1 Sample.store3 = Ok 2%nat Sample.store3.
Proof. reflexivity. Qed.

Example countNeighbors_corner :
  countNeighbors 0%nat 0 0 Sample.store3 = Ok 3%nat Sample.store3.
Proof. reflexivity. Qed.

(** One step of [Sample.grid3]: the corner is born, the rest stays; the
    new grid is made of three new rows and the old ones are as before. *)
Example nextGeneration_grid3 :
  nextGeneration 0%nat Sample.store3 =
    Ok 1%nat
       (Store [[Some false; Some true;  Some false];
               [Some true;  Some true;  Some false];
               [Some false; Some false; Some false];
               [Some true;  Some true;  Some false];
               [Some true;  Some true;  Some false];
               [Some false; Some false; Some false]]
              [[0; 1; 2]; [3; 4; 5]]%nat).
Proof. vm_compute. reflexivity. Qed.

(** Toggling shares the untouched rows with the previous grid. *)
Example toggleCell_shares_rows :
  toggleCell 1 2 0%nat Sample.store3 =
    Ok 1%nat
       (Store [[Some false; Some true;  Some false];
               [Some true;  Some true;  Some false];
               [Some false; Some false; Some false];
               [Some true;  Some true;  Some true]]
              [[0; 1; 2]; [0; 3; 2]]%nat).
Proof. reflexivity. Qed.

(** Outside the grid: a column past the end extends the copied row, a row
    past the end throws. *)
Example toggleCell_past_last_column :
  toggleCell 1 4 0%nat Sample.store3 =
    Ok 1%nat
       (Store [[Some false; Some true;  Some false];
               [Some true;  Some true;  Some false];
               [Some false; Some false; Some false];
               [Some true;  Some true;  Some false; None; Some true]]
              [[0; 1; 2]; [0; 3; 2]]%nat).
Proof. reflexivity. Qed.

Example toggleCell_past_last_row :
  toggleCell 3 0 0%nat Sample.store3 = Throw TypeError.
Proof. reflexivity. Qed.

(** Dimensions for a phone, a tablet, a desktop and without a window. *)
Example dimensions_phone :
  getGridDimensions (Some Sample.phone) =
    {| rows := 12; cols := 16; isMobile := true; isTablet := false; isDesktop := false |}.
Proof. reflexivity. Qed.

Example dimensions_tablet :
  getGridDimensions (Some {| innerWidth := 800; innerHeight := 600 |}) =
    {| rows := 20; cols := 20; isMobile := false; isTablet := true; isDesktop := false |}.
Proof. reflexivity. Qed.

Example dimensions_desktop :
  getGridDimensions (Some {| innerWidth := 1920; innerHeight := 1080 |}) =
    {| rows := 40; cols := 40; isMobile := false; isTablet := false; isDesktop := true |}.
Proof. reflexivity. Qed.

Example dimensions_no_window :
  getGridDimensions None =
    {| rows := 30; cols := 30; isMobile := false; isTablet := false; isDesktop := true |}.
Proof. reflexivity. Qed.

(** The slider at 1600 sets a period of 500 ms. *)
Example onValueChange_1600 :
  speed (onValueChange 1600 (Sample.state3 false)) = 500.
Proof. reflexivity. Qed.

End Examples.


(** ** Running store computations *)

Section Running.

Import Life.

Lemma run_bind {A B} (m : M A) (f : A -> M B) st :
  (m ≫= f) st = match m st with Ok a st' => f a st' | Throw e => Throw e end.
Proof. reflexivity. Qed.

Lemma run_bind_Ok {A B} (m : M A) (f : A -> M B) st a st' :
  m st = Ok a st' -> (m ≫= f) st = f a st'.
Proof. intros H. rewrite run_bind, H. reflexivity. Qed.

Lemma run_ret {A} (a : A) st : (mret a : M A) st = Ok a st.
Proof. reflexivity. Qed.

Lemma readGrid_Some st g G :
  readGrid st g = Some G <->
  exists rs, gridObjs st !! g = Some rs /\
             Forall2 (fun r cs => rowObjs st !! r = Some cs) rs G.
Proof.
  unfold readGrid, readRows. split.
  - intros H. destruct (gridObjs st !! g) as [rs|] eqn:E; simpl in H; [|done].
    exists rs. split; [done|]. by apply mapM_Some.
  - intros (rs & -> & H). simpl. by apply mapM_Some.
Qed.

Lemma run_getGrid st g rs :
  gridObjs st !! g = Some rs -> getGrid g st = Ok rs st.
Proof. intros H. unfold getGrid. by rewrite H. Qed.

Lemma run_getRow st r cs :
  rowObjs st !! r = Some cs -> getRow r st = Ok cs st.
Proof. intros H. unfold getRow. by rewrite H. Qed.

Lemma run_putGrid st g rs rs' :
  gridObjs st !! g = Some rs ->
  putGrid g rs' st = Ok tt (Store (rowObjs st) (<[g := rs']> (gridObjs st))).
Proof. intros H. unfold putGrid. by rewrite H. Qed.

Lemma run_putRow st r cs cs' :
  rowObjs st !! r = Some cs ->
  putRow r cs' st = Ok tt (Store (<[r := cs']> (rowObjs st)) (gridObjs st)).
Proof. intros H. unfold putRow. by rewrite H. Qed.

Lemma run_gridRow st g i rs r :
  gridObjs st !! g = Some rs -> rs !! i = Some r -> gridRow g i st = Ok r st.
Proof.
  intros Hg Hr. unfold gridRow, gridIndex.
  rewrite run_bind, (run_bind_Ok _ _ _ _ _ (run_getGrid _ _ _ Hg)), run_ret.
  by rewrite Hr.
Qed.

Lemma run_rowIndex st r cs i :
  rowObjs st !! r = Some cs -> rowIndex r i st = Ok (mjoin (cs !! i)) st.
Proof.
  intros H. unfold rowIndex.
  by rewrite (run_bind_Ok _ _ _ _ _ (run_getRow _ _ _ H)).
Qed.

Lemma run_rowSet st r cs i v :
  rowObjs st !! r = Some cs ->
  rowSet r i v st = Ok tt (Store (<[r := jsSet cs i v]> (rowObjs st)) (gridObjs st)).
Proof.
  intros H. unfold rowSet.
  rewrite (run_bind_Ok _ _ _ _ _ (run_getRow _ _ _ H)).
  by eapply run_putRow.
Qed.

Lemma run_getCell st g rs i r cs j :
  gridObjs st !! g = Some rs -> rs !! i = Some r -> rowObjs st !! r = Some cs ->
  getCell g i j st = Ok (mjoin (cs !! j)) st.
Proof.
  intros Hg Hr Hcs. unfold getCell.
  rewrite (run_bind_Ok _ _ _ _ _ (run_gridRow _ _ _ _ _ Hg Hr)).
  by apply run_rowIndex.
Qed.

Lemma run_setCell st g rs i r cs j v :
  gridObjs st !! g = Some rs -> rs !! i = Some r -> rowObjs st !! r = Some cs ->
  setCell g i j v st = Ok tt (Store (<[r := jsSet cs j v]> (rowObjs st)) (gridObjs st)).
Proof.
  intros Hg Hr Hcs. unfold setCell.
  rewrite (run_bind_Ok _ _ _ _ _ (run_gridRow _ _ _ _ _ Hg Hr)).
  by apply run_rowSet.
Qed.

Lemma width_lookup (G : Val.grid) cs :
  G !! 0%nat = Some cs -> Val.width G = length cs.
Proof. destruct G; naive_solver. Qed.

Section WithGrid.

Variables (st : store) (g : gridref) (G : Val.grid).
Hypothesis HG : readGrid st g = Some G.

Lemma getGrid_run :
  exists rs, getGrid g st = Ok rs st /\ gridObjs st !! g = Some rs /\
             Forall2 (fun r cs => rowObjs st !! r = Some cs) rs G.
Proof.
  apply readGrid_Some in HG as (rs & E & F). exists rs.
  unfold getGrid. rewrite E. done.
Qed.

Lemma gridLength_run : gridLength g st = Ok (length G) st.
Proof.
  destruct getGrid_run as (rs & E & _ & F). unfold gridLength.
  rewrite (run_bind_Ok _ _ _ _ _ E), run_ret.
  by rewrite (Forall2_length _ _ _ F).
Qed.

Lemma gridRow_run i cs :
  G !! i = Some cs ->
  exists r, gridRow g i st = Ok r st /\ rowObjs st !! r = Some cs.
Proof.
  intros Hi. destruct getGrid_run as (rs & E & _ & F).
  destruct (Forall2_lookup_r _ _ _ _ _ F Hi) as (r & Hr & Hcs).
  exists r. split; [|done]. unfold gridRow, gridIndex.
  rewrite run_bind, (run_bind_Ok _ _ _ _ _ E), run_ret. by rewrite Hr.
Qed.

Lemma gridRow_throw i :
  G !! i = None -> gridRow g i st = Throw TypeError.
Proof.
  intros Hi. destruct getGrid_run as (rs & E & _ & F).
  unfold gridRow, gridIndex.
  rewrite run_bind, (run_bind_Ok _ _ _ _ _ E), run_ret.
  assert (rs !! i = None) as ->; [|done].
  apply lookup_ge_None. rewrite (Forall2_length _ _ _ F).
  by apply lookup_ge_None.
Qed.

Lemma rowLength_run r cs :
  rowObjs st !! r = Some cs -> rowLength r st = Ok (length cs) st.
Proof. intros H. unfold rowLength, getRow. rewrite run_bind, H. done. Qed.

Lemma getCell_run i j :
  (i < length G)%nat -> getCell g i j st = Ok (Val.cellAt G i j) st.
Proof.
  intros Hi. destruct (lookup_lt_is_Some_2 _ _ Hi) as [cs Hcs].
  destruct (gridRow_run _ _ Hcs) as (r & E & Hr).
  unfold getCell. rewrite (run_bind_Ok _ _ _ _ _ E).
  unfold rowIndex, getRow. rewrite run_bind, Hr. simpl.
  unfold Val.cellAt. rewrite Hcs. done.
Qed.

Lemma inGrid_run a b : inGrid g a b st = Ok (Val.inGrid G a b) st.
Proof.
  unfold inGrid, Val.inGrid.
  destruct (0 <=? a) eqn:Ha; [|done].
  rewrite (run_bind_Ok _ _ _ _ _ gridLength_run).
  destruct (a <? Z.of_nat (length G)) eqn:Hb; [|done].
  destruct (0 <=? b) eqn:Hc; [|done]. simpl.
  destruct (G !! 0%nat) as [cs|] eqn:E0.
  - destruct (gridRow_run 0 cs E0) as (r & E & Hr).
    rewrite (run_bind_Ok _ _ _ _ _ E).
    rewrite (run_bind_Ok _ _ _ _ _ (rowLength_run _ _ Hr)).
    by rewrite (width_lookup _ _ E0).
  - apply lookup_ge_None in E0. lia.
Qed.

Lemma countNeighbors_run row col :
  countNeighbors g row col st = Ok (Val.countNeighbors G row col) st.
Proof.
  unfold countNeighbors, Val.countNeighbors.
  generalize 0%nat. induction directions as [|[dx dy] ds IH]; intros n; [done|].
  cbn [forFold foldl]. rewrite run_bind, run_bind.
  rewrite inGrid_run.
  destruct (Val.inGrid G (row + dx) (col + dy)) eqn:E.
  - rewrite run_bind, getCell_run, run_ret; [apply IH|].
    unfold Val.inGrid in E. lia.
  - rewrite run_ret. apply IH.
Qed.

End WithGrid.

Lemma preserved_refl st : preserved st st.
Proof. by split. Qed.

Lemma preserved_trans st1 st2 st3 :
  preserved st1 st2 -> preserved st2 st3 -> preserved st1 st3.
Proof. intros [? ?] [? ?]. split; by etrans. Qed.

Lemma readGrid_preserved st st' g G :
  preserved st st' -> readGrid st g = Some G -> readGrid st' g = Some G.
Proof.
  intros [Hr Hg] (rs & E & F)%readGrid_Some. apply readGrid_Some.
  exists rs. split; [by eapply prefix_lookup_Some|].
  apply (Forall2_impl _ _ _ _ F). intros r cs H. by eapply prefix_lookup_Some.
Qed.

Lemma store_eta st : Store (rowObjs st) (gridObjs st) = st.
Proof. by destruct st. Qed.

Lemma mapArray_spreadRow rs : forall G st,
  Forall2 (fun r cs => rowObjs st !! r = Some cs) rs G ->
  mapArray spreadRow rs st =
    Ok (seq (length (rowObjs st)) (length rs)) (Store (rowObjs st ++ G) (gridObjs st)).
Proof.
  induction rs as [|r rs IH]; intros G st F.
  - apply Forall2_nil_inv_l in F as ->. simpl.
    by rewrite app_nil_r, store_eta.
  - apply Forall2_cons_inv_l in F as (cs & G' & Hr & F & ->).
    cbn [mapArray]. rewrite run_bind.
    unfold spreadRow at 1, getRow, allocRow. rewrite run_bind, Hr.
    rewrite run_bind. erewrite IH.
    + rewrite run_ret. simpl. rewrite length_app, <- app_assoc. simpl.
      by rewrite Nat.add_1_r.
    + simpl. apply (Forall2_impl _ _ _ _ F). intros. by apply lookup_app_l_Some.
Qed.

(** A loop whose body maps the stores [mk s] to one another and leaves the
    bound at [n] runs the body for 0, ..., n-1. *)
Lemma forLoop_fold {S} (mk : S -> store) (I : S -> Prop)
    (f : S -> nat -> S) (bound : M nat) (body : nat -> M unit) (n : nat) :
  (forall s, I s -> bound (mk s) = Ok n (mk s)) ->
  (forall s i, (i < n)%nat -> I s -> body i (mk s) = Ok tt (mk (f s i)) /\ I (f s i)) ->
  forall s, I s ->
    forLoop bound body (mk s) = Ok tt (mk (foldl f s (seq 0 n))) /\
    I (foldl f s (seq 0 n)).
Proof.
  intros Hbound Hbody s Hs. unfold forLoop.
  rewrite (run_bind_Ok _ _ _ _ _ (Hbound s Hs)).
  assert (forall fuel i s, I s -> (i + fuel = n)%nat ->
            forFrom fuel bound body i (mk s) = Ok tt (mk (foldl f s (seq i fuel))) /\
            I (foldl f s (seq i fuel))) as H.
  { clear s Hs. induction fuel as [|fuel IH]; intros i s Hs Hi.
    - cbn [forFrom seq foldl]. rewrite (run_bind_Ok _ _ _ _ _ (Hbound s Hs)).
      by rewrite decide_False by lia.
    - cbn [forFrom seq foldl]. rewrite (run_bind_Ok _ _ _ _ _ (Hbound s Hs)).
      rewrite decide_True by lia.
      destruct (Hbody s i) as [E Hs']; [lia|done|].
      rewrite (run_bind_Ok _ _ _ _ _ E). apply IH; [done|lia]. }
  by apply H.
Qed.

Section Copy.

Variables (st : store) (n : nat).

Lemma preserved_withCopy N : preserved st (Val.withCopy st n N).
Proof. split; simpl; by eexists. Qed.

Lemma setCell_withCopy N row col v :
  length N = n -> (row < n)%nat ->
  setCell (length (gridObjs st)) row col v (Val.withCopy st n N) =
    Ok tt (Val.withCopy st n (Val.writeCell N row col v)).
Proof.
  intros HN Hrow.
  destruct (lookup_lt_is_Some_2 N row) as [cs Hcs]; [lia|].
  unfold setCell, gridRow, gridIndex, getGrid, rowSet, getRow, putRow.
  rewrite !run_bind. simpl.
  rewrite list_lookup_middle by done. rewrite run_ret.
  rewrite lookup_seq_lt by done. rewrite run_ret, !run_bind.
  unfold Val.withCopy, Val.writeCell. cbn [rowObjs gridObjs].
  rewrite lookup_app_r by lia.
  replace (length (rowObjs st) + row - length (rowObjs st))%nat with row by lia.
  rewrite Hcs. cbn [rowObjs gridObjs].
  rewrite lookup_app_r by lia.
  replace (length (rowObjs st) + row - length (rowObjs st))%nat with row by lia.
  rewrite Hcs.
  rewrite insert_app_r_alt by lia.
  replace (length (rowObjs st) + row - length (rowObjs st))%nat with row by lia.
  done.
Qed.

End Copy.

Lemma length_writeCell N row col v :
  length (Val.writeCell N row col v) = length N.
Proof.
  unfold Val.writeCell. destruct (N !! row); [|done]. by rewrite length_insert.
Qed.

Lemma nextGeneration_run st g G :
  readGrid st g = Some G ->
  nextGeneration g st =
    Ok (length (gridObjs st)) (Val.withCopy st (length G) (Val.nextGeneration G)).
Proof.
  intros HG. destruct (getGrid_run _ _ _ HG) as (rs & E & _ & F).
  pose proof (Forall2_length _ _ _ F) as Hlen.
  unfold nextGeneration. rewrite (run_bind_Ok _ _ _ _ _ E).
  rewrite (run_bind_Ok _ _ _ _ _ (mapArray_spreadRow _ _ _ F)).
  rewrite run_bind. unfold allocGrid at 1. cbn [rowObjs gridObjs].
  rewrite Hlen. change (Store _ _) with (Val.withCopy st (length G) G).
  assert (HG' : forall N, readGrid (Val.withCopy st (length G) N) g = Some G).
  { intros N. eapply readGrid_preserved; [apply preserved_withCopy|done]. }
  rewrite run_bind.
  edestruct (forLoop_fold (Val.withCopy st (length G))
               (fun N => length N = length G)
               (fun N row => foldl (fun N col =>
                   Val.writeCell N row col (Val.newCell G row col))
                   N (seq 0 (Val.width G)))) as [-> _]; [| |done|done].
  { intros N _. apply gridLength_run, HG'. }
  intros N row Hrow HN.
  destruct (lookup_lt_is_Some_2 G 0) as [cs0 Hcs0]; [lia|].
  apply (forLoop_fold (Val.withCopy st (length G))
           (fun N => length N = length G)); [| |done].
  { intros N' _.
    destruct (gridRow_run _ _ _ (HG' N') _ _ Hcs0) as (r0 & E0 & Hr0).
    rewrite (run_bind_Ok _ _ _ _ _ E0), (rowLength_run _ _ _ Hr0).
    by rewrite (width_lookup _ _ Hcs0). }
  intros N' col _ HN'. split; [|by rewrite length_writeCell].
  rewrite (run_bind_Ok _ _ _ _ _ (countNeighbors_run _ _ _ (HG' N') _ _)).
  rewrite (run_bind_Ok _ _ _ _ _ (getCell_run _ _ _ (HG' N') _ col Hrow)).
  by apply setCell_withCopy.
Qed.

End Running.

(** ** The step function on grid values *)

Section StepValue.

Import Life Val Spec.

Lemma jsSet_inside cs i v : (i < length cs)%nat -> jsSet cs i v = <[i := v]> cs.
Proof. intros H. unfold jsSet. by rewrite decide_True. Qed.

Lemma length_jsSet_inside cs i v :
  (i < length cs)%nat -> length (jsSet cs i v) = length cs.
Proof. intros H. by rewrite jsSet_inside, length_insert. Qed.

(** Writing the entries [0 .. k-1] of a row, in order. *)
Lemma row_fold (f : nat -> cell) cs k :
  (k <= length cs)%nat ->
  foldl (fun cs col => jsSet cs col (f col)) cs (seq 0 k) = (f <$> seq 0 k) ++ drop k cs.
Proof.
  induction k as [|k IH]; intros Hk; [done|].
  rewrite seq_S, foldl_snoc, IH by lia. simpl.
  destruct (lookup_lt_is_Some_2 cs k) as [x Hx]; [lia|].
  rewrite jsSet_inside by (rewrite length_app, length_fmap, length_seq, length_drop; lia).
  rewrite insert_app_r_alt by (rewrite length_fmap, length_seq; lia).
  rewrite length_fmap, length_seq, Nat.sub_diag.
  rewrite (drop_S _ _ _ Hx). simpl.
  by rewrite fmap_app, <- app_assoc.
Qed.

Lemma writeCell_fold (f : nat -> cell) row cols : forall N cs,
  N !! row = Some cs ->
  foldl (fun N col => writeCell N row col (f col)) N cols =
    <[row := foldl (fun cs col => jsSet cs col (f col)) cs cols]> N.
Proof.
  induction cols as [|c cols IH]; intros N cs H; simpl.
  - by rewrite list_insert_id.
  - unfold writeCell at 2. rewrite H.
    erewrite IH; [by rewrite list_insert_insert_eq|].
    apply list_lookup_insert_eq. by eapply lookup_lt_Some.
Qed.

Lemma nextGeneration_rows R C G :
  rectangular R C G ->
  Val.nextGeneration G = nextRow G C <$> seq 0 R.
Proof.
  intros [HR HC]. unfold Val.nextGeneration. rewrite HR.
  assert (forall k, (k <= R)%nat ->
    foldl (fun N row => foldl (fun N col => writeCell N row col (newCell G row col))
                            N (seq 0 (width G))) G (seq 0 k)
    = (nextRow G C <$> seq 0 k) ++ drop k G) as Hk.
  { induction k as [|k IH]; intros Hle; [done|].
    rewrite seq_S, foldl_snoc, IH by lia. simpl.
    destruct (lookup_lt_is_Some_2 G k) as [cs Hcs]; [lia|].
    assert (length cs = C) as Hlen.
    { eapply Forall_lookup_1 in HC; [|done]. done. }
    assert (width G = C) as ->.
    { destruct G as [|cs0 G']; [simpl in *; lia|]. simpl.
      by apply Forall_cons_1 in HC as [? _]. }
    erewrite writeCell_fold; last first.
    { rewrite lookup_app_r by (rewrite length_fmap, length_seq; lia).
      rewrite length_fmap, length_seq, Nat.sub_diag, lookup_drop.
      by rewrite Nat.add_0_r. }
    rewrite row_fold by lia. rewrite <- Hlen at 2. rewrite drop_all, app_nil_r.
    rewrite insert_app_r_alt by (rewrite length_fmap, length_seq; lia).
    rewrite length_fmap, length_seq, Nat.sub_diag.
    rewrite (drop_S _ _ _ Hcs). simpl.
    by rewrite fmap_app, <- app_assoc. }
  rewrite Hk by lia. rewrite <- HR, drop_all, app_nil_r. done.
Qed.

Lemma rectangular_nextGeneration R C G :
  rectangular R C G -> rectangular R C (Val.nextGeneration G).
Proof.
  intros H. rewrite (nextGeneration_rows _ _ _ H). split.
  - by rewrite length_fmap, length_seq.
  - apply Forall_fmap, Forall_forall. intros row _. simpl.
    unfold nextRow. by rewrite length_fmap, length_seq.
Qed.

Lemma cellAt_nextGeneration R C G row col :
  rectangular R C G -> (row < R)%nat -> (col < C)%nat ->
  cellAt (Val.nextGeneration G) row col = newCell G row col.
Proof.
  intros H Hr Hc. rewrite (nextGeneration_rows _ _ _ H).
  unfold cellAt, nextRow. rewrite list_lookup_fmap, lookup_seq_lt by done. simpl.
  rewrite list_lookup_fmap, lookup_seq_lt by done. done.
Qed.

End StepValue.

(** ** The neighbour count *)

Section Neighbours.

Import Life Val Spec.

Lemma offsets_directions : offsets = directions.
Proof. reflexivity. Qed.

Lemma inGrid_inside R C G a b :
  rectangular R C G -> Val.inGrid G a b = inside R C a b.
Proof.
  intros [HR HC]. unfold Val.inGrid, inside. rewrite HR.
  destruct G as [|cs G'].
  - simpl in HR. subst R. destruct (0 <=? a) eqn:?; [|done].
    assert ((a <? Z.of_nat 0) = false) as -> by (apply Z.ltb_ge; lia). done.
  - apply Forall_cons_1 in HC as [<- _]. done.
Qed.

Lemma count_fold (p q : Z * Z -> bool) (ds : list (Z * Z)) : forall n : nat,
  foldl (fun (count : nat) '(dx, dy) =>
           if p (dx, dy) then if q (dx, dy) then S count else count else count) n ds
  = (n + length (filter (fun d => q d = true) (filter (fun d => p d = true) ds)))%nat.
Proof.
  induction ds as [|[dx dy] ds IH]; intros n; simpl; [lia|].
  rewrite IH, filter_cons. destruct (p (dx, dy)) eqn:Hp.
  - rewrite decide_True by done. rewrite filter_cons.
    destruct (q (dx, dy)) eqn:Hq.
    + rewrite decide_True by done. simpl. lia.
    + rewrite decide_False by done. lia.
  - rewrite decide_False by done. lia.
Qed.

Lemma alive_inside R C G a b :
  inside R C a b = true -> alive G a b = truthy (cellAt G (Z.to_nat a) (Z.to_nat b)).
Proof.
  unfold inside, alive. rewrite !andb_true_iff, !Z.leb_le.
  intros [[[Ha _] Hb] _]. by rewrite !(proj2 (Z.leb_le _ _)) by done.
Qed.

Lemma alive_of_nat G i j :
  alive G (Z.of_nat i) (Z.of_nat j) = truthy (cellAt G i j).
Proof.
  unfold alive. rewrite !(proj2 (Z.leb_le _ _)) by lia. by rewrite !Nat2Z.id.
Qed.

Lemma countNeighbors_liveNeighbors R C G row col :
  rectangular R C G ->
  Val.countNeighbors G row col = liveNeighbors R C G row col.
Proof.
  intros H. unfold Val.countNeighbors, liveNeighbors, positions.
  rewrite offsets_directions.
  rewrite <- (Nat.add_0_l (length _)).
  rewrite <- (count_fold (fun d => inside R C (row + d.1) (col + d.2))
                         (fun d => alive G (row + d.1) (col + d.2))).
  generalize 0%nat. induction directions as [|[dx dy] ds IH]; intros n; [done|].
  cbn [foldl fst snd]. rewrite (inGrid_inside _ _ _ _ _ H).
  destruct (inside R C (row + dx) (col + dy)) eqn:Hin; [|apply IH].
  rewrite (alive_inside _ _ _ _ _ Hin). apply IH.
Qed.

Lemma positions_le R C row col : (length (positions R C row col) <= 8)%nat.
Proof.
  unfold positions. etrans; [apply length_filter|]. by rewrite offsets_directions.
Qed.

Lemma liveNeighbors_le_positions R C G row col :
  (liveNeighbors R C G row col <= length (positions R C row col))%nat.
Proof. apply length_filter. Qed.

Lemma length_filter_impl {A} (P Q : A -> Prop)
    `{!forall x, Decision (P x), !forall x, Decision (Q x)} (l : list A) :
  (forall x, P x -> Q x) -> (length (filter P l) <= length (filter Q l))%nat.
Proof.
  intros HPQ. induction l as [|x l IH]; [done|].
  rewrite !filter_cons. destruct (decide (P x)) as [HP|HP].
  - rewrite decide_True by auto. simpl. lia.
  - destruct (decide (Q x)); simpl; lia.
Qed.

(** On the border three of the eight offsets leave the grid. *)
Lemma positions_border R C row col :
  onBorder R C row col -> (length (positions R C row col) <= 5)%nat.
Proof.
  intros H. unfold positions. rewrite offsets_directions.
  destruct H as [-> | [-> | [-> | ->]]].
  - etrans; [apply (length_filter_impl _ (fun d => d.1 <> -1))|done].
    intros [dx dy]. unfold inside. simpl. lia.
  - etrans; [apply (length_filter_impl _ (fun d => d.2 <> -1))|done].
    intros [dx dy]. unfold inside. simpl. lia.
  - etrans; [apply (length_filter_impl _ (fun d => d.1 <> 1))|done].
    intros [dx dy]. unfold inside. simpl. lia.
  - etrans; [apply (length_filter_impl _ (fun d => d.2 <> 1))|done].
    intros [dx dy]. unfold inside. simpl. lia.
Qed.

End Neighbours.

(** ** Editing a cell: copy the outer array, copy the row, write *)

Section Editing.

Import Life Val Spec.

Variables (st : store) (g : gridref) (G : grid).
Hypothesis HG : readGrid st g = Some G.

(** The store after the row [row] of a copy of [g] has been replaced by a
    new array holding [cs']. *)
Lemma readGrid_edited rs row cs' :
  gridObjs st !! g = Some rs -> (row < length G)%nat ->
  readGrid (Store (rowObjs st ++ [cs'])
                  (gridObjs st ++ [<[row := length (rowObjs st)]> rs]))
           (length (gridObjs st)) = Some (<[row := cs']> G).
Proof using HG.
  intros Hrs Hrow. apply readGrid_Some in HG as (rs0 & E & F).
  rewrite Hrs in E. injection E as <-.
  apply readGrid_Some. eexists. split.
  { simpl. by apply list_lookup_middle. }
  simpl. apply Forall2_insert.
  - apply (Forall2_impl _ _ _ _ F). intros. by apply lookup_app_l_Some.
  - by apply list_lookup_middle.
Qed.

Section Row.

Variables (rs : list rowref) (row : nat) (cs : list cell).
Hypothesis Hrs : gridObjs st !! g = Some rs.
Hypothesis Hcs : G !! row = Some cs.

(** The first three statements of both updaters. *)
Lemma copy_run {A} (k : gridref -> M A) :
  (newGrid ← spreadGrid g;
   copyRow newGrid row;;
   k newGrid) st
  = k (length (gridObjs st))
      (Store (rowObjs st ++ [cs])
             (gridObjs st ++ [<[row := length (rowObjs st)]> rs])).
Proof using HG Hrs Hcs.
  destruct (getGrid_run _ _ _ HG) as (rs0 & E & Hrs0 & F).
  rewrite Hrs in Hrs0. injection Hrs0 as <-.
  destruct (Forall2_lookup_r _ _ _ _ _ F Hcs) as (r & Hr & Hrcs).
  pose proof (lookup_lt_Some _ _ _ Hr) as Hlt.
  unfold spreadGrid. rewrite run_bind, (run_bind_Ok _ _ _ _ _ E).
  unfold allocGrid at 1. set (st1 := Store _ _).
  assert (gridObjs st1 !! length (gridObjs st) = Some rs) as Hg1.
  { by apply list_lookup_middle. }
  unfold copyRow. rewrite run_bind.
  rewrite (run_bind_Ok _ _ _ _ _ (run_gridRow _ _ _ _ _ Hg1 Hr)).
  unfold spreadRow.
  rewrite !run_bind, (run_getRow st1 _ _ Hrcs).
  unfold allocRow at 1. set (st2 := Store _ _).
  rewrite (run_bind_Ok _ _ _ _ _ (run_getGrid st2 _ _ Hg1)).
  rewrite (run_putGrid st2 _ _ _ Hg1).
  f_equal. subst st2 st1. simpl. f_equal.
  rewrite insert_app_r_alt by done. by rewrite Nat.sub_diag.
Qed.

Lemma copy_lookups cs' :
  let st' := Store (rowObjs st ++ [cs'])
                   (gridObjs st ++ [<[row := length (rowObjs st)]> rs]) in
  gridObjs st' !! length (gridObjs st) = Some (<[row := length (rowObjs st)]> rs) /\
  <[row := length (rowObjs st)]> rs !! row = Some (length (rowObjs st)) /\
  rowObjs st' !! length (rowObjs st) = Some cs'.
Proof using HG Hrs Hcs.
  destruct (getGrid_run _ _ _ HG) as (rs0 & E & Hrs0 & F).
  rewrite Hrs in Hrs0. injection Hrs0 as <-.
  destruct (Forall2_lookup_r _ _ _ _ _ F Hcs) as (r & Hr & Hrcs).
  pose proof (lookup_lt_Some _ _ _ Hr) as Hlt.
  simpl. split_and!.
  - by apply list_lookup_middle.
  - by apply list_lookup_insert_eq.
  - by apply list_lookup_middle.
Qed.

Lemma getCell_copy col :
  let st' := Store (rowObjs st ++ [cs])
                   (gridObjs st ++ [<[row := length (rowObjs st)]> rs]) in
  getCell (length (gridObjs st)) row col st' = Ok (mjoin (cs !! col)) st'.
Proof using HG Hrs Hcs.
  intros st'. destruct (copy_lookups cs) as (H1 & H2 & H3).
  by eapply run_getCell.
Qed.

Lemma setCell_copy col v :
  setCell (length (gridObjs st)) row col v
    (Store (rowObjs st ++ [cs])
           (gridObjs st ++ [<[row := length (rowObjs st)]> rs]))
  = Ok tt (Store (rowObjs st ++ [jsSet cs col v])
                 (gridObjs st ++ [<[row := length (rowObjs st)]> rs])).
Proof using HG Hrs Hcs.
  destruct (copy_lookups cs) as (H1 & H2 & H3).
  erewrite run_setCell by done. simpl. f_equal. f_equal.
  rewrite insert_app_r_alt by done. by rewrite Nat.sub_diag.
Qed.

Lemma toggleCell_store col :
  Life.toggleCell row col g st =
    Ok (length (gridObjs st))
       (Store (rowObjs st ++ [jsSet cs col (Some (negb (truthy (mjoin (cs !! col)))))])
              (gridObjs st ++ [<[row := length (rowObjs st)]> rs])).
Proof using HG Hrs Hcs.
  unfold Life.toggleCell. rewrite copy_run.
  rewrite (run_bind_Ok _ _ _ _ _ (getCell_copy col)).
  by rewrite (run_bind_Ok _ _ _ _ _ (setCell_copy col _)).
Qed.

Lemma paintCell_store col b :
  Life.paintCell row col b g st =
    Ok (length (gridObjs st))
       (Store (rowObjs st ++ [jsSet cs col (Some b)])
              (gridObjs st ++ [<[row := length (rowObjs st)]> rs])).
Proof using HG Hrs Hcs.
  unfold Life.paintCell. rewrite copy_run.
  by rewrite (run_bind_Ok _ _ _ _ _ (setCell_copy col _)).
Qed.

End Row.

Lemma toggleCell_run row col :
  (row < length G)%nat ->
  exists st',
    Life.toggleCell row col g st = Ok (length (gridObjs st)) st' /\
    preserved st st' /\
    readGrid st' (length (gridObjs st)) = Some (Val.toggleCell row col G).
Proof using HG.
  intros Hrow. destruct (lookup_lt_is_Some_2 _ _ Hrow) as [cs Hcs].
  destruct (getGrid_run _ _ _ HG) as (rs & _ & Hrs & _).
  eexists. split; [by apply toggleCell_store|]. split.
  - split; simpl; by eexists.
  - rewrite (readGrid_edited _ _ _ Hrs Hrow).
    unfold Val.toggleCell, writeCell, cellAt. by rewrite Hcs.
Qed.

Lemma paintCell_run row col b :
  (row < length G)%nat ->
  exists st',
    Life.paintCell row col b g st = Ok (length (gridObjs st)) st' /\
    preserved st st' /\
    readGrid st' (length (gridObjs st)) = Some (Val.paintCell row col b G).
Proof using HG.
  intros Hrow. destruct (lookup_lt_is_Some_2 _ _ Hrow) as [cs Hcs].
  destruct (getGrid_run _ _ _ HG) as (rs & _ & Hrs & _).
  eexists. split; [by apply paintCell_store|]. split.
  - split; simpl; by eexists.
  - rewrite (readGrid_edited _ _ _ Hrs Hrow).
    unfold Val.paintCell, writeCell. by rewrite Hcs.
Qed.

End Editing.

(** ** Creating grids, counting the population, sizing *)

Section Creating.

Import Life Val Spec Dims.

Lemma readGrid_withCopy st n N :
  length N = n -> readGrid (withCopy st n N) (length (gridObjs st)) = Some N.
Proof.
  intros HN. apply readGrid_Some. eexists. split.
  { simpl. by apply list_lookup_middle. }
  simpl. apply Forall2_same_length_lookup. split.
  { by rewrite length_seq. }
  intros i r cs [-> Hi]%lookup_seq Hcs. simpl.
  rewrite lookup_app_r by lia. by rewrite Nat.add_comm, Nat.add_sub.
Qed.

Lemma mapArray_allocRow cs k : forall st,
  mapArray (fun _ : unit => allocRow cs) (replicate k tt) st =
    Ok (seq (length (rowObjs st)) k) (Store (rowObjs st ++ replicate k cs) (gridObjs st)).
Proof.
  induction k as [|k IH]; intros st; simpl.
  - by rewrite app_nil_r, store_eta.
  - rewrite run_bind. unfold allocRow at 1. rewrite run_bind, IH, run_ret. simpl.
    rewrite length_app, <- app_assoc. simpl. by rewrite Nat.add_1_r.
Qed.

Lemma emptyGrid_run n m st :
  (0 <= n)%Z -> (0 <= m)%Z ->
  emptyGrid n m st =
    Ok (length (gridObjs st))
       (withCopy st (Z.to_nat n) (allDead (Z.to_nat n) (Z.to_nat m))).
Proof.
  intros Hn Hm. unfold emptyGrid.
  assert ((n <? 0)%Z = false) as -> by (apply Z.ltb_ge; lia).
  assert ((m <? 0)%Z = false) as -> by (apply Z.ltb_ge; lia).
  by rewrite run_bind, mapArray_allocRow.
Qed.

Lemma rectangular_allDead R C : rectangular R C (allDead R C).
Proof.
  split; [apply length_replicate|].
  apply Forall_replicate. apply length_replicate.
Qed.

Lemma getPopulation_allDead R C : Val.getPopulation (allDead R C) = 0%nat.
Proof.
  unfold Val.getPopulation, allDead.
  assert (forall k, filter (fun c : cell => truthy c = true) (replicate k (Some false)) = [])
    as Hrow.
  { induction k as [|k IH]; [done|]. simpl. by rewrite filter_cons, decide_False. }
  induction R as [|R IH]; [done|]. simpl.
  rewrite filter_app, Hrow. done.
Qed.

Lemma mapArray_getRow st rs G :
  Forall2 (fun r cs => rowObjs st !! r = Some cs) rs G ->
  mapArray getRow rs st = Ok G st.
Proof.
  induction 1 as [|r cs rs G Hr F IH]; [done|]. simpl.
  rewrite (run_bind_Ok _ _ _ _ _ (run_getRow _ _ _ Hr)).
  by rewrite (run_bind_Ok _ _ _ _ _ IH).
Qed.

Lemma getPopulation_run st g G :
  readGrid st g = Some G ->
  Life.getPopulation g st = Ok (Val.getPopulation G) st.
Proof.
  intros HG. destruct (getGrid_run _ _ _ HG) as (rs & E & _ & F).
  unfold Life.getPopulation. rewrite (run_bind_Ok _ _ _ _ _ E).
  by rewrite (run_bind_Ok _ _ _ _ _ (mapArray_getRow _ _ _ F)).
Qed.

Lemma clampCells_bounds size lo hi :
  (lo <= hi)%Z -> (lo <= clampCells size lo hi <= hi)%Z.
Proof. unfold clampCells. lia. Qed.

Lemma getGridDimensions_bounds window :
  let d := getGridDimensions window in
  (8 <= rows d <= (if isMobile d then 25 else 40))%Z /\ (10 <= cols d <= 40)%Z.
Proof.
  unfold getGridDimensions.
  set (windowHeight := match window with Some w => innerHeight w | None => _ end).
  set (windowWidth := match window with Some w => innerWidth w | None => _ end).
  destruct (Qlt_bool windowWidth 768);
    [|destruct (Qle_bool 768 windowWidth && Qlt_bool windowWidth 1024)];
    simpl; split; apply clampCells_bounds; lia.
Qed.

Lemma invalidDimensions_false window :
  invalidDimensions (getGridDimensions window) = false.
Proof.
  destruct (getGridDimensions_bounds window) as [[Hr Hr'] [Hc Hc']].
  unfold invalidDimensions.
  destruct (isMobile (getGridDimensions window));
    repeat (apply orb_false_intro); lia.
Qed.

Lemma initializeGrid_run window st :
  let d := getGridDimensions window in
  initializeGrid window st =
    Ok (length (gridObjs st))
       (withCopy st (Z.to_nat (rows d)) (allDead (Z.to_nat (rows d)) (Z.to_nat (cols d)))).
Proof.
  intros d. unfold initializeGrid. rewrite invalidDimensions_false.
  destruct (getGridDimensions_bounds window) as [[Hr _] [Hc _]].
  subst d. by rewrite emptyGrid_run by lia.
Qed.

End Creating.

(** ** The component *)

Section Lengths.

Import Life Val Spec.

Lemma length_writeCells (h : nat -> cell) row cols : forall N,
  length (foldl (fun N col => writeCell N row col (h col)) N cols) = length N.
Proof.
  induction cols as [|c cols IH]; intros N; [done|]. simpl.
  by rewrite IH, length_writeCell.
Qed.

Lemma length_steps G rows : forall N,
  length (foldl (fun N row =>
            foldl (fun N col => writeCell N row col (newCell G row col))
                  N (seq 0 (width G))) N rows) = length N.
Proof.
  induction rows as [|row rows IH]; intros N; [done|]. simpl.
  by rewrite IH, length_writeCells.
Qed.

Lemma length_nextGeneration G : length (Val.nextGeneration G) = length G.
Proof. apply length_steps. Qed.

End Lengths.

Section Component.

Import Life Val Spec Dims App.

Lemma gameLoopUpdater_run g s st G :
  readGrid st g = Some G ->
  gameLoopUpdater g s st =
    Ok (setGrid (length (gridObjs st)) (setGeneration (fun gen => gen + 1) s))
       (withCopy st (length G) (Val.nextGeneration G)).
Proof.
  intros HG. unfold gameLoopUpdater.
  by rewrite (run_bind_Ok _ _ _ _ _ (nextGeneration_run _ _ _ HG)).
Qed.

Lemma state_after_runs g g' (n : nat) s :
  setGrid g' (setGeneration (fun gen => gen + Z.of_nat n)
                (setGrid g (setGeneration (fun gen => gen + 1) s))) =
  setGrid g' (setGeneration (fun gen => gen + Z.of_nat (S n)) s).
Proof.
  unfold setGrid, setGeneration. simpl. f_equal. lia.
Qed.

(** The runs of the game-loop updater: each reads the same grid, the last
    result is kept, and [generation] has grown by the number of runs. *)
Lemma runUpdater_run g G (runs : nat) : forall s st,
  readGrid st g = Some G ->
  exists g' st',
    runUpdater (S runs) (gameLoopUpdater g) s st =
      Ok (setGrid g' (setGeneration (fun gen => gen + Z.of_nat (S runs)) s)) st' /\
    preserved st st' /\
    gridObjs st !! g' = None /\
    readGrid st' g' = Some (Val.nextGeneration G).
Proof.
  induction runs as [|n IH]; intros s st HG.
  - exists (length (gridObjs st)), (withCopy st (length G) (Val.nextGeneration G)).
    cbn [runUpdater]. rewrite (run_bind_Ok _ _ _ _ _ (gameLoopUpdater_run _ _ _ _ HG)).
    split; [done|]. split; [apply preserved_withCopy|].
    split; [by apply lookup_ge_None|]. apply readGrid_withCopy, length_nextGeneration.
  - pose proof (preserved_withCopy st (length G) (Val.nextGeneration G)) as Hp.
    destruct (IH (setGrid (length (gridObjs st)) (setGeneration (fun gen => gen + 1) s))
                 (withCopy st (length G) (Val.nextGeneration G)))
      as (g' & st' & E & Hp' & Hnew & HG').
    { by eapply readGrid_preserved. }
    exists g', st'. split.
    { change (runUpdater (S (S n)) (gameLoopUpdater g) s) with
        (s' ← gameLoopUpdater g s; runUpdater (S n) (gameLoopUpdater g) s').
      rewrite (run_bind_Ok _ _ _ _ _ (gameLoopUpdater_run _ _ _ _ HG)).
      rewrite E. by rewrite state_after_runs. }
    split; [by eapply preserved_trans|]. split; [|done].
    apply lookup_ge_None. apply lookup_ge_None in Hnew. simpl in Hnew.
    rewrite length_app in Hnew. simpl in Hnew. lia.
Qed.

Lemma tick_run strict s st G :
  readGrid st (grid s) = Some G ->
  exists g' st',
    tick strict s st =
      Ok (setGrid g' (setGeneration (fun gen => gen + Z.of_nat (updaterRuns strict)) s))
         st' /\
    preserved st st' /\
    gridObjs st !! g' = None /\
    readGrid st' g' = Some (Val.nextGeneration G).
Proof.
  intros HG. unfold tick. destruct strict; by apply runUpdater_run.
Qed.

Lemma clearGrid_run window s st :
  let d := getGridDimensions window in
  clearGrid window s st =
    Ok (setIsRunning false (setGeneration (fun _ => 0) (setGrid (length (gridObjs st)) s)))
       (withCopy st (Z.to_nat (rows d)) (allDead (Z.to_nat (rows d)) (Z.to_nat (cols d)))).
Proof.
  intros d. unfold clearGrid.
  by rewrite (run_bind_Ok _ _ _ _ _ (initializeGrid_run window st)).
Qed.

Lemma handleResize_run window s st : handleResize window s st = clearGrid window s st.
Proof. reflexivity. Qed.

Lemma handleMouseDown_running row col s st :
  isRunning s = true -> handleMouseDown row col s st = Ok s st.
Proof. intros H. unfold handleMouseDown. by rewrite H. Qed.

Lemma handleMouseEnter_running row col s st :
  isRunning s = true -> handleMouseEnter row col s st = Ok s st.
Proof. intros H. unfold handleMouseEnter, handleCellInteraction. by rewrite H. Qed.

Lemma handleMouseEnter_idle row col s st :
  isDragging s = false -> handleMouseEnter row col s st = Ok s st.
Proof.
  intros H. unfold handleMouseEnter, handleCellInteraction. rewrite H.
  by destruct (isRunning s).
Qed.

Lemma handleMouseDown_run row col s st G :
  isRunning s = false -> readGrid st (grid s) = Some G -> (row < length G)%nat ->
  exists st',
    handleMouseDown row col s st =
      Ok (setIsDragging true
            (setDragMode (if truthy (cellAt G row col) then erase else paint)
               (setGrid (length (gridObjs st)) s))) st' /\
    preserved st st' /\
    readGrid st' (length (gridObjs st)) = Some (Val.toggleCell row col G).
Proof.
  intros Hrun HG Hrow.
  destruct (toggleCell_run _ _ _ HG row col Hrow) as (st' & E & Hp & HG').
  exists st'. split; [|done].
  unfold handleMouseDown, handleCellInteraction. rewrite Hrun.
  rewrite run_bind, (run_bind_Ok _ _ _ _ _ (getCell_run _ _ _ HG _ col Hrow)).
  by rewrite (run_bind_Ok _ _ _ _ _ E).
Qed.

Lemma handleMouseEnter_run row col s st G :
  isRunning s = false -> isDragging s = true ->
  readGrid st (grid s) = Some G -> (row < length G)%nat ->
  exists st',
    handleMouseEnter row col s st = Ok (setGrid (length (gridObjs st)) s) st' /\
    preserved st st' /\
    readGrid st' (length (gridObjs st)) =
      Some (Val.paintCell row col (bool_decide (dragMode s = paint)) G).
Proof.
  intros Hrun Hdrag HG Hrow.
  destruct (paintCell_run _ _ _ HG row col (bool_decide (dragMode s = paint)) Hrow)
    as (st' & E & Hp & HG').
  exists st'. split; [|done].
  unfold handleMouseEnter, handleCellInteraction. rewrite Hrun, Hdrag.
  by rewrite (run_bind_Ok _ _ _ _ _ E).
Qed.

Lemma gameLoopEffect_same old new iv :
  isRunning new = isRunning old -> speed new = speed old ->
  gameLoopEffect old new iv = iv.
Proof. intros H1 H2. unfold gameLoopEffect. by rewrite bool_decide_true. Qed.

Lemma gameLoopEffect_timer old new iv :
  iv = (if isRunning old then Some (speed old) else None) ->
  gameLoopEffect old new iv = (if isRunning new then Some (speed new) else None).
Proof.
  intros ->. unfold gameLoopEffect. case_bool_decide as H; [|done].
  destruct H as [-> ->]. done.
Qed.

Lemma rendered_inv st g row col :
  rendered st g row col = true ->
  exists G cs, readGrid st g = Some G /\ G !! row = Some cs /\ (col < length cs)%nat.
Proof.
  unfold rendered. destruct (readGrid st g) as [G|]; [|done].
  destruct (G !! row) as [cs|] eqn:E; [|done].
  intros H%bool_decide_eq_true. eauto.
Qed.

Lemma rendered_rectangular st g G R C row col :
  readGrid st g = Some G -> rectangular R C G ->
  rendered st g row col = bool_decide (row < R /\ col < C)%nat.
Proof.
  intros HG [HR HC]. unfold rendered. rewrite HG.
  destruct (G !! row) as [cs|] eqn:E.
  - pose proof (lookup_lt_Some _ _ _ E).
    eapply Forall_lookup_1 in HC; [|done]. simpl in HC.
    apply bool_decide_ext. lia.
  - apply lookup_ge_None in E. symmetry. apply bool_decide_eq_false. lia.
Qed.

Lemma rectangular_writeCell R C G row col v :
  rectangular R C G -> (col < C)%nat -> rectangular R C (writeCell G row col v).
Proof.
  intros [HR HC] Hcol. unfold writeCell.
  destruct (G !! row) as [cs|] eqn:E; [|done].
  split; [by rewrite length_insert|].
  apply Forall_insert; [done|].
  eapply Forall_lookup_1 in HC; [|done]. simpl in HC.
  by rewrite length_jsSet_inside; rewrite HC.
Qed.

Lemma cellAt_writeCell R C G row col v r c :
  rectangular R C G -> (row < R)%nat -> (col < C)%nat ->
  cellAt (writeCell G row col v) r c =
    if bool_decide ((r, c) = (row, col)) then v else cellAt G r c.
Proof.
  intros [HR HC] Hrow Hcol. unfold writeCell, cellAt.
  destruct (lookup_lt_is_Some_2 G row) as [cs Hcs]; [lia|]. rewrite Hcs.
  eapply Forall_lookup_1 in HC; [|done]. simpl in HC.
  rewrite jsSet_inside by lia.
  destruct (decide (r = row)) as [->|Hr].
  - rewrite list_lookup_insert_eq by lia. simpl.
    destruct (decide (c = col)) as [->|Hc].
    + rewrite list_lookup_insert_eq by lia. by rewrite bool_decide_true.
    + rewrite list_lookup_insert_ne by done. rewrite Hcs. simpl.
      rewrite bool_decide_false; [done|congruence].
  - rewrite list_lookup_insert_ne by done.
    rewrite bool_decide_false; [done|congruence].
Qed.

Lemma handler_wellFormed e w :
  wellFormed w -> enabled e w = true ->
  exists s' st',
    handler e w (heap w) = Ok s' st' /\
    (exists G R C, readGrid st' (grid s') = Some G /\ rectangular R C G /\ (0 < R)%nat) /\
    100 <= speed s' <= 2000.
Proof.
  intros ((G & R & C & HG & Hrect & HR) & Hiv & Hsp) Hen.
  destruct e as [row col|row col| | | | |value|vp| |b]; simpl in *.
  - (* MouseDown *)
    destruct (isRunning (ui w)) eqn:Hrun.
    { rewrite handleMouseDown_running by done. eauto 10. }
    rewrite (rendered_rectangular _ _ _ _ _ _ _ HG Hrect) in Hen.
    apply bool_decide_eq_true in Hen as [Hrow Hcol].
    destruct (handleMouseDown_run row col _ _ _ Hrun HG) as (st' & E & _ & HG').
    { destruct Hrect. lia. }
    eexists _, st'. split; [done|]. split; [|done]. simpl.
    eexists _, R, C. split; [done|]. split; [|done].
    by apply rectangular_writeCell.
  - (* MouseEnter *)
    destruct (isRunning (ui w)) eqn:Hrun.
    { rewrite handleMouseEnter_running by done. eauto 10. }
    destruct (isDragging (ui w)) eqn:Hdrag; last first.
    { rewrite handleMouseEnter_idle by done. eauto 10. }
    rewrite (rendered_rectangular _ _ _ _ _ _ _ HG Hrect) in Hen.
    apply bool_decide_eq_true in Hen as [Hrow Hcol].
    destruct (handleMouseEnter_run row col _ _ _ Hrun Hdrag HG) as (st' & E & _ & HG').
    { destruct Hrect. lia. }
    eexists _, st'. split; [done|]. split; [|done]. simpl.
    eexists _, R, C. split; [done|]. split; [|done].
    by apply rectangular_writeCell.
  - eexists _, _. split; [done|]. simpl. eauto 10.
  - eexists _, _. split; [done|]. simpl. eauto 10.
  - eexists _, _. split; [done|]. simpl. eauto 10.
  - (* ClickClear *)
    eexists _, _. split; [apply clearGrid_run|]. split; [|done]. simpl.
    eexists _, _, _. split; [by apply readGrid_withCopy, length_replicate|].
    split; [apply rectangular_allDead|].
    destruct (getGridDimensions_bounds (Some (window w))) as [[? _] _]. lia.
  - (* SliderChange *)
    eexists _, _. split; [done|]. simpl. split; [eauto 10|].
    apply andb_prop in Hen as [_ Hv]. unfold sliderValue in Hv. lia.
  - (* Resize *)
    eexists _, _. split; [apply clearGrid_run|]. split; [|done]. simpl.
    eexists _, _, _. split; [by apply readGrid_withCopy, length_replicate|].
    split; [apply rectangular_allDead|].
    destruct (getGridDimensions_bounds (Some vp)) as [[? _] _]. lia.
  - (* Tick *)
    pose proof (rectangular_nextGeneration _ _ _ Hrect) as Hrect'.
    destruct (tick_run (strictMode w) _ _ _ HG) as (g' & st' & E & _ & _ & HG').
    eexists _, st'. split; [exact E|]. split; [|done]. simpl.
    eexists _, R, C. split; [exact HG'|done].
  - eexists _, _. split; [done|]. simpl. eauto 10.
Qed.

Lemma step_total e w :
  wellFormed w -> enabled e w = true -> is_Some (step e w).
Proof.
  intros Hw Hen. destruct (handler_wellFormed e w Hw Hen) as (s' & st' & E & _).
  unfold step. by rewrite Hen, E.
Qed.

Lemma step_wellFormed e w w' :
  wellFormed w -> step e w = Some w' -> wellFormed w'.
Proof.
  intros Hw. unfold step. destruct (enabled e w) eqn:Hen; [|done].
  destruct (handler_wellFormed e w Hw Hen) as (s' & st' & E & HG & Hsp).
  rewrite E. intros [= <-]. split; [done|]. split; [|done]. simpl.
  apply gameLoopEffect_timer. by destruct Hw as (_ & ? & _).
Qed.

Lemma mount_total strict vp : is_Some (mount strict vp).
Proof. unfold mount. by rewrite initializeGrid_run. Qed.

Lemma mount_wellFormed strict vp w : mount strict vp = Some w -> wellFormed w.
Proof.
  unfold mount. rewrite initializeGrid_run. intros [= <-].
  split; [|done]. simpl.
  eexists _, _, _. split; [by apply readGrid_withCopy, length_replicate|].
  split; [apply rectangular_allDead|].
  destruct (getGridDimensions_bounds (Some vp)) as [[? _] _]. lia.
Qed.

Lemma reachable_wellFormed w : reachable w -> wellFormed w.
Proof.
  induction 1 as [vp w H|e w w' _ IH H].
  - by eapply mount_wellFormed.
  - by eapply step_wellFormed.
Qed.

End Component.

(** ** Grids given by a function; the blinker *)

Section Tabulated.

Import Life Val Spec.

Variables (R C : nat) (f : nat -> nat -> bool).

Lemma rectangular_tabulate : rectangular R C (tabulate R C f).
Proof.
  unfold tabulate. split; [by rewrite length_fmap, length_seq|].
  apply Forall_fmap, Forall_forall. intros i _. simpl.
  by rewrite length_fmap, length_seq.
Qed.

Lemma cellAt_tabulate row col :
  (row < R)%nat -> (col < C)%nat -> cellAt (tabulate R C f) row col = Some (f row col).
Proof.
  intros Hr Hc. unfold cellAt, tabulate.
  rewrite list_lookup_fmap, lookup_seq_lt by done. simpl.
  by rewrite list_lookup_fmap, lookup_seq_lt by done.
Qed.

Lemma liveAt_tabulate a b :
  inside R C a b && alive (tabulate R C f) a b = liveAt R C f a b.
Proof.
  unfold liveAt. destruct (inside R C a b) eqn:Hin; [|done]. simpl.
  rewrite (alive_inside _ _ _ _ _ Hin).
  unfold inside in Hin. rewrite cellAt_tabulate by lia. done.
Qed.

Lemma length_filter_filter {A} (p q : A -> bool) (l : list A) :
  length (filter (fun d => q d = true) (filter (fun d => p d = true) l))
  = sum_list_with (fun d => if p d && q d then 1 else 0)%nat l.
Proof.
  induction l as [|d l IH]; [done|]. rewrite filter_cons.
  cbn [sum_list_with]. rewrite <- IH.
  destruct (p d) eqn:Hp.
  - rewrite decide_True by done. rewrite filter_cons.
    destruct (q d) eqn:Hq.
    + by rewrite decide_True by done.
    + by rewrite decide_False by done.
  - by rewrite decide_False by done.
Qed.

Lemma liveNeighbors_tabulate row col :
  liveNeighbors R C (tabulate R C f) row col =
    sum_list_with (fun d => if liveAt R C f (row + d.1) (col + d.2) then 1 else 0)%nat
                  directions.
Proof.
  unfold liveNeighbors, positions. rewrite offsets_directions.
  rewrite (length_filter_filter (fun d => inside R C (row + d.1) (col + d.2))
             (fun d => alive (tabulate R C f) (row + d.1) (col + d.2))).
  induction directions as [|d ds IH]; [done|]. simpl.
  by rewrite liveAt_tabulate, IH.
Qed.

Lemma nextGeneration_tabulate :
  Val.nextGeneration (tabulate R C f) =
    tabulate R C (fun i j =>
      rule (Some (f i j))
           (liveNeighbors R C (tabulate R C f) (Z.of_nat i) (Z.of_nat j))).
Proof.
  rewrite (nextGeneration_rows _ _ _ rectangular_tabulate).
  unfold tabulate at 2. apply list_eq. intros i.
  rewrite !list_lookup_fmap.
  destruct (seq 0 R !! i) as [i'|] eqn:Ei; [|done]. simpl. f_equal.
  apply lookup_seq in Ei as [-> Hi]. simpl.
  unfold nextRow. apply list_eq. intros j.
  rewrite !list_lookup_fmap.
  destruct (seq 0 C !! j) as [j'|] eqn:Ej; [|done]. simpl. f_equal.
  apply lookup_seq in Ej as [-> Hj]. simpl.
  unfold newCell. rewrite cellAt_tabulate by done.
  by rewrite (countNeighbors_liveNeighbors _ _ _ _ _ rectangular_tabulate).
Qed.

Lemma tabulate_ext (f' : nat -> nat -> bool) :
  (forall i j, (i < R)%nat -> (j < C)%nat -> f i j = f' i j) ->
  tabulate R C f = tabulate R C f'.
Proof.
  intros H. unfold tabulate. apply list_eq. intros i.
  rewrite !list_lookup_fmap.
  destruct (seq 0 R !! i) as [i'|] eqn:Ei; [|done]. simpl. f_equal.
  apply lookup_seq in Ei as [-> Hi]. simpl.
  apply list_eq. intros j. rewrite !list_lookup_fmap.
  destruct (seq 0 C !! j) as [j'|] eqn:Ej; [|done]. simpl. f_equal.
  apply lookup_seq in Ej as [-> Hj]. simpl. f_equal. by apply H.
Qed.

End Tabulated.

(** Deciding every test of the goal by linear arithmetic. *)
Ltac settle_tests :=
  repeat match goal with
  | |- context [bool_decide ?P] =>
      first [rewrite (bool_decide_true P) by lia
            |rewrite (bool_decide_false P) by lia]
  end.

Section Blinker.

Import Life Val Spec.

Variables (R C r c : nat).
Hypothesis Hr : (1 <= r /\ r + 1 < R)%nat.
Hypothesis Hc : (1 <= c /\ c + 1 < C)%nat.

Lemma liveAt_hblinker a b :
  liveAt R C (hblinker r c) a b =
    bool_decide (a = Z.of_nat r /\ Z.of_nat c - 1 <= b <= Z.of_nat c + 1).
Proof using Hr Hc.
  unfold liveAt, hblinker. destruct (inside R C a b) eqn:Hin; simpl.
  - unfold inside in Hin. rewrite !andb_true_iff, !Z.leb_le, !Z.ltb_lt in Hin.
    apply bool_decide_ext. lia.
  - symmetry. apply bool_decide_false. intros HP.
    assert (inside R C a b = true) as Hin'; [|congruence].
    unfold inside. rewrite !andb_true_iff, !Z.leb_le, !Z.ltb_lt. lia.
Qed.

Lemma liveAt_vblinker a b :
  liveAt R C (vblinker r c) a b =
    bool_decide (b = Z.of_nat c /\ Z.of_nat r - 1 <= a <= Z.of_nat r + 1).
Proof using Hr Hc.
  unfold liveAt, vblinker. destruct (inside R C a b) eqn:Hin; simpl.
  - unfold inside in Hin. rewrite !andb_true_iff, !Z.leb_le, !Z.ltb_lt in Hin.
    apply bool_decide_ext. lia.
  - symmetry. apply bool_decide_false. intros HP.
    assert (inside R C a b = true) as Hin'; [|congruence].
    unfold inside. rewrite !andb_true_iff, !Z.leb_le, !Z.ltb_lt. lia.
Qed.

Lemma hblinker_step i j :
  (i < R)%nat -> (j < C)%nat ->
  rule (Some (hblinker r c i j))
       (liveNeighbors R C (tabulate R C (hblinker r c)) (Z.of_nat i) (Z.of_nat j))
  = vblinker r c i j.
Proof using Hr Hc.
  intros Hi Hj. rewrite liveNeighbors_tabulate.
  unfold directions. cbn [sum_list_with fst snd].
  rewrite !liveAt_hblinker. unfold hblinker, vblinker, rule, truthy.
  assert (Z.of_nat i - Z.of_nat r < -1 \/ Z.of_nat i - Z.of_nat r = -1 \/
          Z.of_nat i - Z.of_nat r = 0 \/ Z.of_nat i - Z.of_nat r = 1 \/
          Z.of_nat i - Z.of_nat r > 1) as Hi' by lia.
  assert (Z.of_nat j - Z.of_nat c < -2 \/ Z.of_nat j - Z.of_nat c = -2 \/
          Z.of_nat j - Z.of_nat c = -1 \/ Z.of_nat j - Z.of_nat c = 0 \/
          Z.of_nat j - Z.of_nat c = 1 \/ Z.of_nat j - Z.of_nat c = 2 \/
          Z.of_nat j - Z.of_nat c > 2) as Hj' by lia.
  destruct Hi' as [?|[?|[?|[?|?]]]]; destruct Hj' as [?|[?|[?|[?|[?|[?|?]]]]]];
    settle_tests; reflexivity.
Qed.

Lemma vblinker_step i j :
  (i < R)%nat -> (j < C)%nat ->
  rule (Some (vblinker r c i j))
       (liveNeighbors R C (tabulate R C (vblinker r c)) (Z.of_nat i) (Z.of_nat j))
  = hblinker r c i j.
Proof using Hr Hc.
  intros Hi Hj. rewrite liveNeighbors_tabulate.
  unfold directions. cbn [sum_list_with fst snd].
  rewrite !liveAt_vblinker. unfold hblinker, vblinker, rule, truthy.
  assert (Z.of_nat j - Z.of_nat c < -1 \/ Z.of_nat j - Z.of_nat c = -1 \/
          Z.of_nat j - Z.of_nat c = 0 \/ Z.of_nat j - Z.of_nat c = 1 \/
          Z.of_nat j - Z.of_nat c > 1) as Hj' by lia.
  assert (Z.of_nat i - Z.of_nat r < -2 \/ Z.of_nat i - Z.of_nat r = -2 \/
          Z.of_nat i - Z.of_nat r = -1 \/ Z.of_nat i - Z.of_nat r = 0 \/
          Z.of_nat i - Z.of_nat r = 1 \/ Z.of_nat i - Z.of_nat r = 2 \/
          Z.of_nat i - Z.of_nat r > 2) as Hi' by lia.
  destruct Hj' as [?|[?|[?|[?|?]]]]; destruct Hi' as [?|[?|[?|[?|[?|[?|?]]]]]];
    settle_tests; reflexivity.
Qed.

Lemma nextGeneration_hblinker :
  Val.nextGeneration (tabulate R C (hblinker r c)) = tabulate R C (vblinker r c).
Proof using Hr Hc.
  rewrite nextGeneration_tabulate. apply tabulate_ext. apply hblinker_step.
Qed.

Lemma nextGeneration_vblinker :
  Val.nextGeneration (tabulate R C (vblinker r c)) = tabulate R C (hblinker r c).
Proof using Hr Hc.
  rewrite nextGeneration_tabulate. apply tabulate_ext. apply vblinker_step.
Qed.

End Blinker.

(** ** Two more patterns: the empty grid and the block *)

Section StillLifes.

Import Life Val Spec.

Variables (R C : nat).

Lemma allDead_tabulate : allDead R C = tabulate R C (fun _ _ => false).
Proof.
  unfold allDead, tabulate. apply list_eq. intros i.
  rewrite list_lookup_fmap. destruct (decide (i < R)%nat) as [Hi|Hi].
  - rewrite lookup_replicate_2, lookup_seq_lt by done. simpl. f_equal.
    apply list_eq. intros j. rewrite list_lookup_fmap.
    destruct (decide (j < C)%nat) as [Hj|Hj].
    + by rewrite lookup_replicate_2, lookup_seq_lt by done.
    + rewrite (lookup_ge_None_2 (replicate _ _)) by (rewrite length_replicate; lia).
      by rewrite (lookup_ge_None_2 (seq _ _)) by (rewrite length_seq; lia).
  - rewrite (lookup_ge_None_2 (replicate _ _)) by (rewrite length_replicate; lia).
    by rewrite (lookup_ge_None_2 (seq _ _)) by (rewrite length_seq; lia).
Qed.

(** No spontaneous generation: the empty grid stays empty. *)
Lemma nextGeneration_allDead : Val.nextGeneration (allDead R C) = allDead R C.
Proof.
  rewrite allDead_tabulate, nextGeneration_tabulate. apply tabulate_ext.
  intros i j _ _. rewrite liveNeighbors_tabulate.
  unfold directions, liveAt. cbn [sum_list_with fst snd].
  by rewrite !andb_false_r.
Qed.

(** The 2 x 2 block with top-left corner [(r, c)]. *)
Variables (r c : nat).
Hypothesis Hr : (r + 1 < R)%nat.
Hypothesis Hc : (c + 1 < C)%nat.

Lemma liveAt_block a b :
  liveAt R C (fun i j => bool_decide ((r <= i <= r + 1) /\ (c <= j <= c + 1))%nat) a b =
    bool_decide (Z.of_nat r <= a <= Z.of_nat r + 1 /\ Z.of_nat c <= b <= Z.of_nat c + 1).
Proof using Hr Hc.
  unfold liveAt. destruct (inside R C a b) eqn:Hin; simpl.
  - unfold inside in Hin. rewrite !andb_true_iff, !Z.leb_le, !Z.ltb_lt in Hin.
    apply bool_decide_ext. lia.
  - symmetry. apply bool_decide_false. intros HP.
    assert (inside R C a b = true) as Hin'; [|congruence].
    unfold inside. rewrite !andb_true_iff, !Z.leb_le, !Z.ltb_lt. lia.
Qed.

(** The block is a still life: each of its cells has exactly 3 live
    neighbours, and no dead cell has 3. *)
Lemma nextGeneration_block :
  let block := fun i j => bool_decide ((r <= i <= r + 1) /\ (c <= j <= c + 1))%nat in
  Val.nextGeneration (tabulate R C block) = tabulate R C block.
Proof using Hr Hc.
  intros block. rewrite nextGeneration_tabulate. apply tabulate_ext.
  intros i j Hi Hj. rewrite liveNeighbors_tabulate.
  unfold directions. cbn [sum_list_with fst snd]. subst block. cbv beta.
  rewrite !liveAt_block. unfold rule, truthy.
  assert (Z.of_nat i - Z.of_nat r < -1 \/ Z.of_nat i - Z.of_nat r = -1 \/
          Z.of_nat i - Z.of_nat r = 0 \/ Z.of_nat i - Z.of_nat r = 1 \/
          Z.of_nat i - Z.of_nat r = 2 \/ Z.of_nat i - Z.of_nat r > 2) as Hi' by lia.
  assert (Z.of_nat j - Z.of_nat c < -1 \/ Z.of_nat j - Z.of_nat c = -1 \/
          Z.of_nat j - Z.of_nat c = 0 \/ Z.of_nat j - Z.of_nat c = 1 \/
          Z.of_nat j - Z.of_nat c = 2 \/ Z.of_nat j - Z.of_nat c > 2) as Hj' by lia.
  destruct Hi' as [?|[?|[?|[?|[?|?]]]]]; destruct Hj' as [?|[?|[?|[?|[?|?]]]]];
    settle_tests; reflexivity.
Qed.

End StillLifes.

(** ** Drag gestures *)

Section Gestures.

Import Life Val Spec App.

Variables (R C : nat).

Lemma cellAt_painted b path : forall G r c,
  rectangular R C G -> Forall (fun p => (p.1 < R /\ p.2 < C)%nat) path ->
  cellAt (foldl (fun G p => Val.paintCell p.1 p.2 b G) G path) r c =
    if bool_decide ((r, c) ∈ path) then Some b else cellAt G r c.
Proof.
  induction path as [|[r1 c1] path IH]; intros G r c Hrect Hpath; [done|].
  apply Forall_cons_1 in Hpath as [[Hr1 Hc1] Hpath]. simpl in Hr1, Hc1.
  cbn [foldl fst snd]. rewrite IH by (try apply rectangular_writeCell; done).
  unfold Val.paintCell.
  rewrite (cellAt_writeCell _ _ _ _ _ _ _ _ Hrect Hr1 Hc1).
  destruct (decide ((r, c) ∈ path)) as [Hin|Hin].
  - rewrite !bool_decide_true; [done| |done]. by right.
  - rewrite (bool_decide_false _ Hin).
    destruct (decide ((r, c) = (r1, c1))) as [E|E].
    + rewrite !bool_decide_true; [done| |done]. rewrite E. by left.
    + rewrite !bool_decide_false; [done| |done].
      intros [?|?]%elem_of_cons; done.
Qed.

Lemma rectangular_painted b path : forall G,
  rectangular R C G -> Forall (fun p => (p.1 < R /\ p.2 < C)%nat) path ->
  rectangular R C (foldl (fun G p => Val.paintCell p.1 p.2 b G) G path).
Proof.
  induction path as [|[r1 c1] path IH]; intros G Hrect Hpath; [done|].
  apply Forall_cons_1 in Hpath as [[Hr1 Hc1] Hpath].
  cbn [foldl]. apply IH; [|done]. by apply rectangular_writeCell.
Qed.

Lemma step_mouseDown w G row col :
  isRunning (ui w) = false -> readGrid (heap w) (grid (ui w)) = Some G ->
  rectangular R C G -> (row < R)%nat -> (col < C)%nat ->
  exists w',
    step (MouseDown row col) w = Some w' /\
    (exists g', ui w' =
       setIsDragging true
         (setDragMode (if truthy (cellAt G row col) then erase else paint)
            (setGrid g' (ui w)))) /\
    readGrid (heap w') (grid (ui w')) = Some (Val.toggleCell row col G) /\
    preserved (heap w) (heap w').
Proof.
  intros Hrun HG Hrect Hrow Hcol.
  destruct (handleMouseDown_run row col _ _ _ Hrun HG) as (st' & E & Hp & HG').
  { destruct Hrect. lia. }
  unfold step. cbn [enabled handler].
  rewrite (rendered_rectangular _ _ _ _ _ _ _ HG Hrect), bool_decide_true by done.
  rewrite E. eexists. split; [done|]. simpl. eauto.
Qed.

Lemma step_mouseEnter w G row col :
  isRunning (ui w) = false -> isDragging (ui w) = true ->
  readGrid (heap w) (grid (ui w)) = Some G ->
  rectangular R C G -> (row < R)%nat -> (col < C)%nat ->
  exists w',
    step (MouseEnter row col) w = Some w' /\
    (exists g', ui w' = setGrid g' (ui w)) /\
    readGrid (heap w') (grid (ui w')) =
      Some (Val.paintCell row col (bool_decide (dragMode (ui w) = paint)) G) /\
    preserved (heap w) (heap w').
Proof.
  intros Hrun Hdrag HG Hrect Hrow Hcol.
  destruct (handleMouseEnter_run row col _ _ _ Hrun Hdrag HG) as (st' & E & Hp & HG').
  { destruct Hrect. lia. }
  unfold step. cbn [enabled handler].
  rewrite (rendered_rectangular _ _ _ _ _ _ _ HG Hrect), bool_decide_true by done.
  rewrite E. eexists. split; [done|]. simpl. eauto.
Qed.

Lemma run_mouseEnters path : forall w G,
  isRunning (ui w) = false -> isDragging (ui w) = true ->
  readGrid (heap w) (grid (ui w)) = Some G -> rectangular R C G ->
  Forall (fun p => (p.1 < R /\ p.2 < C)%nat) path ->
  exists w',
    run ((fun p => MouseEnter p.1 p.2) <$> path) w = Some w' /\
    (exists g', ui w' = setGrid g' (ui w)) /\
    readGrid (heap w') (grid (ui w')) =
      Some (foldl (fun G p =>
              Val.paintCell p.1 p.2 (bool_decide (dragMode (ui w) = paint)) G) G path) /\
    preserved (heap w) (heap w').
Proof.
  induction path as [|[r1 c1] path IH]; intros w G Hrun Hdrag HG Hrect Hpath.
  - exists w. split; [done|]. split; [|split; [done|apply preserved_refl]].
    exists (grid (ui w)). by destruct (ui w).
  - apply Forall_cons_1 in Hpath as [[Hr1 Hc1] Hpath]. simpl in Hr1, Hc1.
    destruct (step_mouseEnter w G r1 c1) as (w1 & E1 & [g1 Hui1] & HG1 & Hp1);
      [done..|].
    destruct (IH w1 (Val.paintCell r1 c1 (bool_decide (dragMode (ui w) = paint)) G))
      as (w' & E' & [g' Hui'] & HG' & Hp'); [by rewrite Hui1..|done| |done|].
    { by apply rectangular_writeCell. }
    exists w'. cbn [fmap list_fmap run fst snd]. rewrite E1. simpl.
    split; [done|]. split; [|split].
    + exists g'. by rewrite Hui', Hui1.
    + rewrite HG'. by rewrite Hui1.
    + by eapply preserved_trans.
Qed.

End Gestures.

(** * The claims *)

Section Claims.

Import Life Val Spec Dims App.

(** C1.  For a rectangular grid, [nextGeneration] returns a new array (a
    reference that named nothing before) holding a grid of the same
    dimensions, in which a cell is alive iff it was alive with exactly 2 or
    3 live neighbours, or dead with exactly 3; the neighbours are counted in
    the input grid.  Every array that existed before the call is unchanged,
    so the input grid still reads as before. *)
Theorem nextGeneration_correct st g G R C :
  readGrid st g = Some G -> rectangular R C G ->
  exists g' st' G',
    Life.nextGeneration g st = Ok g' st' /\
    gridObjs st !! g' = None /\
    readGrid st' g' = Some G' /\
    rectangular R C G' /\
    (forall row col, (row < R)%nat -> (col < C)%nat ->
       let n := liveNeighbors R C G (Z.of_nat row) (Z.of_nat col) in
       let wasAlive := alive G (Z.of_nat row) (Z.of_nat col) in
       exists b, cellAt G' row col = Some b /\
         (b = true <->
          (wasAlive = true /\ (n = 2 \/ n = 3)%nat) \/ (wasAlive = false /\ n = 3%nat))) /\
    preserved st st' /\
    readGrid st' g = Some G.
Proof.
  intros HG Hrect.
  pose proof (rectangular_nextGeneration _ _ _ Hrect) as Hrect'.
  eexists _, _, _. split; [by apply nextGeneration_run|].
  split; [by apply lookup_ge_None|].
  split; [apply readGrid_withCopy; destruct Hrect, Hrect'; congruence|].
  split; [done|]. split; [|split].
  - intros row col Hrow Hcol n wasAlive.
    rewrite (cellAt_nextGeneration _ _ _ _ _ Hrect Hrow Hcol).
    unfold newCell. eexists. split; [done|].
    rewrite (countNeighbors_liveNeighbors _ _ _ _ _ Hrect). fold n.
    unfold rule. subst wasAlive. rewrite alive_of_nat.
    destruct (truthy (cellAt G row col)).
    + rewrite orb_true_iff, !Nat.eqb_eq. intuition congruence.
    + rewrite Nat.eqb_eq. intuition congruence.
  - apply preserved_withCopy.
  - eapply readGrid_preserved; [apply preserved_withCopy|done].
Qed.

Lemma nextGeneration_correct_witness :
  readGrid Sample.store3 0%nat = Some Sample.grid3 /\
  rectangular 3 3 Sample.grid3 /\
  exists g' st' G',
    Life.nextGeneration 0%nat Sample.store3 = Ok g' st' /\
    gridObjs Sample.store3 !! g' = None /\
    readGrid st' g' = Some G' /\
    rectangular 3 3 G' /\
    (forall row col, (row < 3)%nat -> (col < 3)%nat ->
       let n := liveNeighbors 3 3 Sample.grid3 (Z.of_nat row) (Z.of_nat col) in
       let wasAlive := alive Sample.grid3 (Z.of_nat row) (Z.of_nat col) in
       exists b, cellAt G' row col = Some b /\
         (b = true <->
          (wasAlive = true /\ (n = 2 \/ n = 3)%nat) \/ (wasAlive = false /\ n = 3%nat))) /\
    preserved Sample.store3 st' /\
    readGrid st' 0%nat = Some Sample.grid3.
Proof.
  assert (rectangular 3 3 Sample.grid3) as Hrect.
  { split; [reflexivity|]. repeat constructor. }
  split; [reflexivity|]. split; [exact Hrect|].
  exact (nextGeneration_correct Sample.store3 0%nat Sample.grid3 3 3 eq_refl Hrect).
Defined.

(** C2.  For a rectangular grid of [R] rows and [C] columns and a valid
    coordinate, [countNeighbors] returns the number of live cells among
    those of the 8 offsets that fall inside the grid; that is at most 8,
    and for a cell on the border at most 5 offsets fall inside, whatever
    the cells hold.  The store is left as it was. *)
Theorem countNeighbors_correct st g G R C row col :
  readGrid st g = Some G -> rectangular R C G ->
  0 <= row < Z.of_nat R -> 0 <= col < Z.of_nat C ->
  exists n,
    Life.countNeighbors g row col st = Ok n st /\
    n = liveNeighbors R C G row col /\
    (n <= length (positions R C row col) <= 8)%nat /\
    (onBorder R C row col -> (length (positions R C row col) <= 5)%nat).
Proof.
  intros HG Hrect _ _. eexists. split; [by apply countNeighbors_run|].
  split; [by apply countNeighbors_liveNeighbors|]. split; [split|].
  - rewrite (countNeighbors_liveNeighbors _ _ _ _ _ Hrect).
    apply liveNeighbors_le_positions.
  - apply positions_le.
  - apply positions_border.
Qed.

Lemma countNeighbors_correct_witness :
  readGrid Sample.store3 0%nat = Some Sample.grid3 /\
  rectangular 3 3 Sample.grid3 /\
  0 <= 0 < Z.of_nat 3 /\ 0 <= 0 < Z.of_nat 3 /\
  onBorder 3 3 0 0 /\
  exists n,
    Life.countNeighbors 0%nat 0 0 Sample.store3 = Ok n Sample.store3 /\
    n = liveNeighbors 3 3 Sample.grid3 0 0 /\
    (n <= length (positions 3 3 0 0) <= 8)%nat /\
    (length (positions 3 3 0 0) <= 5)%nat.
Proof.
  assert (rectangular 3 3 Sample.grid3) as Hrect.
  { split; [reflexivity|]. repeat constructor. }
  assert (onBorder 3 3 0 0) as Hborder.
  { left. reflexivity. }
  split; [reflexivity|]. split; [exact Hrect|].
  split; [lia|]. split; [lia|]. split; [exact Hborder|].
  destruct (countNeighbors_correct Sample.store3 0%nat Sample.grid3 3 3 0 0
              eq_refl Hrect) as (n & Hrun & Hn & Hle & Hb); [lia|lia|].
  exists n. split; [exact Hrun|]. split; [exact Hn|]. split; [exact Hle|].
  exact (Hb Hborder).
Defined.

(** C3.  The code does not keep the claim where React runs an updater
    twice.  In a reachable state a tick occurs exactly while [isRunning] is
    true, and then it replaces the grid by [nextGeneration] of the current
    grid, once, and in the same step [generation] grows by one for every
    run of the updater given to [setGrid], because that updater itself
    calls [setGeneration]: by exactly 1 where the updater runs once, as the
    claim says, but by 2 in a development build under [<StrictMode>].
    Nothing else of the state, the viewport or the timer changes. *)
Theorem tick_adds_updater_runs w :
  reachable w ->
  (isRunning (ui w) = false -> step Tick w = None) /\
  (isRunning (ui w) = true ->
   exists g1 st1 G' g' w',
     Life.nextGeneration (grid (ui w)) (heap w) = Ok g1 st1 /\
     readGrid st1 g1 = Some G' /\
     step Tick w = Some w' /\
     readGrid (heap w') (grid (ui w')) = Some G' /\
     ui w' = setGrid g' (setGeneration
                           (fun gen => gen + Z.of_nat (updaterRuns (strictMode w)))
                           (ui w)) /\
     generation (ui w') = generation (ui w) + (if strictMode w then 2 else 1) /\
     (if strictMode w then True else g' = g1 /\ heap w' = st1) /\
     preserved (heap w) (heap w') /\
     window w' = window w /\ interval w' = interval w /\
     strictMode w' = strictMode w).
Proof.
  intros ((G & R & C & HG & Hrect & HR) & Hiv & Hsp)%reachable_wellFormed.
  split; intros Hrun; rewrite Hrun in Hiv.
  - unfold step. cbn [enabled]. rewrite Hiv. done.
  - assert (readGrid (withCopy (heap w) (length G) (Val.nextGeneration G))
              (length (gridObjs (heap w))) = Some (Val.nextGeneration G)) as HG1.
    { apply readGrid_withCopy, length_nextGeneration. }
    destruct (strictMode w) eqn:Hs.
    + destruct (tick_run true _ _ _ HG) as (g' & st' & E & Hp & _ & HG').
      eexists _, _, _, g', _. split; [by apply nextGeneration_run|].
      split; [exact HG1|].
      unfold step. cbn [enabled handler]. rewrite Hiv, Hs.
      rewrite bool_decide_true by done. rewrite E.
      split; [done|]. cbn [heap ui window interval strictMode].
      rewrite gameLoopEffect_same by done.
      split; [exact HG'|]. split; [done|]. split; [done|]. split; [done|].
      split; [exact Hp|]. done.
    + eexists _, _, _, _, _. split; [by apply nextGeneration_run|].
      split; [exact HG1|].
      unfold step. cbn [enabled handler]. rewrite Hiv, Hs.
      rewrite bool_decide_true by done.
      unfold tick, updaterRuns. cbn [runUpdater].
      rewrite (run_bind_Ok _ _ _ _ _ (gameLoopUpdater_run _ _ _ _ HG)).
      cbn [mret M_ret].
      split; [done|]. cbn [heap ui window interval strictMode].
      rewrite gameLoopEffect_same by done.
      split; [exact HG1|]. split; [done|]. split; [done|]. split; [done|].
      split; [apply preserved_withCopy|]. done.
Qed.

Lemma tick_adds_updater_runs_witness :
  reachable Sample.strictPlaying /\
  isRunning (ui Sample.strictPlaying) = true /\
  strictMode Sample.strictPlaying = true /\
  generation (ui Sample.strictPlaying) = 0 /\
  exists g1 st1 G' g' w',
    Life.nextGeneration (grid (ui Sample.strictPlaying)) (heap Sample.strictPlaying)
      = Ok g1 st1 /\
    readGrid st1 g1 = Some G' /\
    step Tick Sample.strictPlaying = Some w' /\
    readGrid (heap w') (grid (ui w')) = Some G' /\
    ui w' = setGrid g' (setGeneration (fun gen => gen + 2) (ui Sample.strictPlaying)) /\
    generation (ui w') = 2 /\
    True /\
    preserved (heap Sample.strictPlaying) (heap w') /\
    window w' = window Sample.strictPlaying /\
    interval w' = interval Sample.strictPlaying /\
    strictMode w' = true.
Proof.
  assert (reachable Sample.strictMounted) as Hm.
  { apply (reachable_mount true Sample.phone). vm_compute. reflexivity. }
  assert (reachable Sample.strictPlaying) as Hp.
  { apply (reachable_step ClickPlay Sample.strictMounted); [exact Hm|].
    vm_compute. reflexivity. }
  split; [exact Hp|]. split; [reflexivity|]. split; [reflexivity|].
  split; [reflexivity|].
  exact (proj2 (tick_adds_updater_runs Sample.strictPlaying Hp) eq_refl).
Defined.

(** C4.  A grid that holds exactly a horizontal blinker, with the cells
    above and below its centre inside the grid, becomes the vertical
    blinker through the same centre after one [nextGeneration] and the
    horizontal one again after two. *)
Theorem blinker_oscillates st g R C r c :
  (1 <= r)%nat -> (r + 1 < R)%nat -> (1 <= c)%nat -> (c + 1 < C)%nat ->
  readGrid st g = Some (tabulate R C (hblinker r c)) ->
  exists g1 st1 g2 st2,
    Life.nextGeneration g st = Ok g1 st1 /\
    readGrid st1 g1 = Some (tabulate R C (vblinker r c)) /\
    Life.nextGeneration g1 st1 = Ok g2 st2 /\
    readGrid st2 g2 = Some (tabulate R C (hblinker r c)).
Proof.
  intros Hr1 Hr2 Hc1 Hc2 HG.
  assert (forall f, length (Val.nextGeneration (tabulate R C f)) = R) as Hlen.
  { intros f. by destruct (rectangular_nextGeneration _ _ _ (rectangular_tabulate R C f)). }
  assert (forall f, length (tabulate R C f) = R) as Hlen'.
  { intros f. by destruct (rectangular_tabulate R C f). }
  pose proof (nextGeneration_run _ _ _ HG) as E1.
  rewrite Hlen' in E1.
  assert (readGrid (withCopy st R (Val.nextGeneration (tabulate R C (hblinker r c))))
                   (length (gridObjs st))
          = Some (tabulate R C (vblinker r c))) as HG1.
  { rewrite readGrid_withCopy by (by apply Hlen).
    by rewrite nextGeneration_hblinker. }
  pose proof (nextGeneration_run _ _ _ HG1) as E2.
  rewrite Hlen' in E2.
  eexists _, _, _, _. split; [exact E1|]. split; [exact HG1|].
  split; [exact E2|].
  rewrite readGrid_withCopy by (by apply Hlen).
  by rewrite nextGeneration_vblinker.
Qed.

Lemma blinker_oscillates_witness :
  (1 <= 1)%nat /\ (1 + 1 < 3)%nat /\ (1 <= 1)%nat /\ (1 + 1 < 3)%nat /\
  readGrid Sample.blinker3 0%nat = Some (tabulate 3 3 (hblinker 1 1)) /\
  exists g1 st1 g2 st2,
    Life.nextGeneration 0%nat Sample.blinker3 = Ok g1 st1 /\
    readGrid st1 g1 = Some (tabulate 3 3 (vblinker 1 1)) /\
    Life.nextGeneration g1 st1 = Ok g2 st2 /\
    readGrid st2 g2 = Some (tabulate 3 3 (hblinker 1 1)).
Proof.
  split; [lia|]. split; [lia|]. split; [lia|]. split; [lia|].
  split; [reflexivity|].
  apply (blinker_oscillates Sample.blinker3 0%nat 3 3 1 1); [lia..|reflexivity].
Defined.

(** C5.  While [isRunning] is true, the handler of a pointer event
    (pointer down, pointer enter, pointer up or leaving the grid) returns
    without touching the store, and leaves the grid reference and the
    generation counter as they were; so does the step of the component. *)
Theorem pointer_ignored_while_running e w :
  isRunning (ui w) = true -> isPointer e = true ->
  (exists s', handler e w (heap w) = Ok s' (heap w) /\
              grid s' = grid (ui w) /\ generation s' = generation (ui w)) /\
  (forall w', step e w = Some w' ->
     heap w' = heap w /\ grid (ui w') = grid (ui w) /\
     generation (ui w') = generation (ui w)).
Proof.
  intros Hrun He.
  assert (exists s', handler e w (heap w) = Ok s' (heap w) /\
              grid s' = grid (ui w) /\ generation s' = generation (ui w)) as H.
  { destruct e; try done; cbn [handler].
    - rewrite handleMouseDown_running by done. eauto.
    - rewrite handleMouseEnter_running by done. eauto.
    - eexists. split; [done|]. done.
    - eexists. split; [done|]. done. }
  split; [exact H|]. destruct H as (s' & E & Hg & Hgen).
  intros w'. unfold step. destruct (enabled e w); [|done].
  rewrite E. intros [= <-]. done.
Qed.

Lemma pointer_ignored_while_running_witness :
  isRunning (ui (Sample.world3 true)) = true /\
  isPointer (MouseDown 0 1) = true /\
  (exists s', handler (MouseDown 0 1) (Sample.world3 true) (heap (Sample.world3 true))
              = Ok s' (heap (Sample.world3 true)) /\
              grid s' = grid (ui (Sample.world3 true)) /\
              generation s' = generation (ui (Sample.world3 true))) /\
  (forall w', step (MouseDown 0 1) (Sample.world3 true) = Some w' ->
     heap w' = heap (Sample.world3 true) /\
     grid (ui w') = grid (ui (Sample.world3 true)) /\
     generation (ui w') = generation (ui (Sample.world3 true))).
Proof.
  split; [reflexivity|]. split; [reflexivity|].
  apply (pointer_ignored_while_running (MouseDown 0 1) (Sample.world3 true));
    reflexivity.
Defined.

(** C6.  A drag gesture that starts while not running: the pointer goes
    down on a cell whose value is [v], then enters the cells of [path].
    Afterwards the drag mode is erase if [v] was alive and paint if it was
    dead; the pressed cell and every cell entered hold "mode is paint",
    which is the opposite of [v]; all other cells are as before; the
    generation counter is unchanged; and no array that existed before the
    gesture has been written to. *)
Theorem drag_gesture w G R C r0 c0 path :
  isRunning (ui w) = false ->
  readGrid (heap w) (grid (ui w)) = Some G -> rectangular R C G ->
  (r0 < R)%nat -> (c0 < C)%nat ->
  Forall (fun p => (p.1 < R /\ p.2 < C)%nat) path ->
  let v := truthy (cellAt G r0 c0) in
  exists w' G',
    run (gesture r0 c0 path) w = Some w' /\
    readGrid (heap w') (grid (ui w')) = Some G' /\
    rectangular R C G' /\
    dragMode (ui w') = (if v then erase else paint) /\
    bool_decide (dragMode (ui w') = paint) = negb v /\
    (forall r c, (r < R)%nat -> (c < C)%nat ->
       cellAt G' r c =
         if bool_decide ((r, c) ∈ (r0, c0) :: path)
         then Some (bool_decide (dragMode (ui w') = paint))
         else cellAt G r c) /\
    generation (ui w') = generation (ui w) /\
    isRunning (ui w') = false /\ isDragging (ui w') = true /\
    preserved (heap w) (heap w').
Proof.
  intros Hrun HG Hrect Hr0 Hc0 Hpath v.
  destruct (step_mouseDown R C w G r0 c0) as (w1 & E1 & [g1 Hui1] & HG1 & Hp1);
    [done..|].
  fold v in Hui1.
  assert (rectangular R C (Val.toggleCell r0 c0 G)) as Hrect1.
  { by apply rectangular_writeCell. }
  destruct (run_mouseEnters R C path w1 (Val.toggleCell r0 c0 G))
    as (w' & E' & [g' Hui'] & HG' & Hp'); [by rewrite Hui1..|done|done|done|].
  assert (dragMode (ui w') = (if v then erase else paint)) as Hmode.
  { by rewrite Hui', Hui1. }
  assert (bool_decide (dragMode (ui w') = paint) = negb v) as Hpaint.
  { rewrite Hmode. by destruct v. }
  assert (dragMode (ui w1) = dragMode (ui w')) as Hmode1.
  { by rewrite Hui', Hui1. }
  rewrite Hmode1 in HG'.
  eexists w', _. split; [|split; [exact HG'|]].
  { unfold gesture. cbn [run]. rewrite E1. exact E'. }
  split; [by apply rectangular_painted|]. split; [done|]. split; [done|].
  split; [|by rewrite Hui', Hui1; split_and!; [done..|eapply preserved_trans]].
  intros r c Hr Hc. rewrite (cellAt_painted R C) by done.
  unfold Val.toggleCell.
  rewrite (cellAt_writeCell _ _ _ _ _ _ _ _ Hrect Hr0 Hc0). fold v.
  rewrite Hpaint.
  destruct (decide ((r, c) ∈ path)) as [Hin|Hin].
  - rewrite !bool_decide_true; [done| |done]. by right.
  - rewrite (bool_decide_false _ Hin).
    destruct (decide ((r, c) = (r0, c0))) as [E|E].
    + rewrite !bool_decide_true; [done| |done]. rewrite E. by left.
    + rewrite !bool_decide_false; [done| |done].
      intros [?|?]%elem_of_cons; done.
Qed.

Lemma drag_gesture_witness :
  isRunning (ui (Sample.world3 false)) = false /\
  readGrid (heap (Sample.world3 false)) (grid (ui (Sample.world3 false)))
    = Some Sample.grid3 /\
  rectangular 3 3 Sample.grid3 /\
  (0 < 3)%nat /\ (1 < 3)%nat /\
  Forall (fun p => (p.1 < 3 /\ p.2 < 3)%nat) [(1, 1); (1, 2)]%nat /\
  let v := truthy (cellAt Sample.grid3 0 1) in
  exists w' G',
    run (gesture 0 1 [(1, 1); (1, 2)]%nat) (Sample.world3 false) = Some w' /\
    readGrid (heap w') (grid (ui w')) = Some G' /\
    rectangular 3 3 G' /\
    dragMode (ui w') = (if v then erase else paint) /\
    bool_decide (dragMode (ui w') = paint) = negb v /\
    (forall r c, (r < 3)%nat -> (c < 3)%nat ->
       cellAt G' r c =
         if bool_decide ((r, c) ∈ (0, 1)%nat :: [(1, 1); (1, 2)]%nat)
         then Some (bool_decide (dragMode (ui w') = paint))
         else cellAt Sample.grid3 r c) /\
    generation (ui w') = generation (ui (Sample.world3 false)) /\
    isRunning (ui w') = false /\ isDragging (ui w') = true /\
    preserved (heap (Sample.world3 false)) (heap w').
Proof.
  assert (rectangular 3 3 Sample.grid3) as Hrect.
  { split; [reflexivity|]. repeat constructor. }
  assert (Forall (fun p => (p.1 < 3 /\ p.2 < 3)%nat) [(1, 1); (1, 2)]%nat) as Hpath.
  { repeat constructor; simpl; lia. }
  split; [reflexivity|]. split; [reflexivity|]. split; [exact Hrect|].
  split; [lia|]. split; [lia|]. split; [exact Hpath|].
  apply (drag_gesture (Sample.world3 false) Sample.grid3 3 3 0 1 [(1, 1); (1, 2)]%nat);
    [reflexivity|reflexivity|exact Hrect|lia|lia|exact Hpath].
Defined.

(** C7.  In every state, the clear operation succeeds and yields an
    all-dead grid (population 0) of the dimensions computed for the
    current viewport, generation 0 and [isRunning] false; the arrays of the
    previous grid are not written to. *)
Theorem clearGrid_resets w :
  let d := getGridDimensions (Some (window w)) in
  exists s' st',
    handler ClickClear w (heap w) = Ok s' st' /\
    readGrid st' (grid s') = Some (allDead (Z.to_nat (rows d)) (Z.to_nat (cols d))) /\
    Life.getPopulation (grid s') st' = Ok 0%nat st' /\
    generation s' = 0 /\ isRunning s' = false /\
    preserved (heap w) st'.
Proof.
  intros d. eexists _, _. split; [apply clearGrid_run|]. fold d.
  assert (readGrid (withCopy (heap w) (Z.to_nat (rows d))
                      (allDead (Z.to_nat (rows d)) (Z.to_nat (cols d))))
                   (length (gridObjs (heap w)))
          = Some (allDead (Z.to_nat (rows d)) (Z.to_nat (cols d)))) as HG.
  { apply readGrid_withCopy, length_replicate. }
  split; [exact HG|]. split.
  { cbn [grid setIsRunning setGeneration setGrid].
    rewrite (getPopulation_run _ _ _ HG). by rewrite getPopulation_allDead. }
  split; [done|]. split; [done|]. apply preserved_withCopy.
Qed.

(** C8.  Whatever the viewport, the computed dimensions satisfy
    8 <= rows <= 25 on mobile and 8 <= rows <= 40 otherwise, and
    10 <= cols <= 40; so the safety check of [initializeGrid] never holds
    and the default 15 x 20 grid is never built.  The bounds are those of
    the clamp, whatever the size of the drawing region. *)
Theorem dimensions_clamped window :
  let d := getGridDimensions window in
  8 <= rows d <= (if isMobile d then 25 else 40) /\
  10 <= cols d <= 40 /\
  invalidDimensions d = false /\
  initializeGrid window = emptyGrid (rows d) (cols d) /\
  (forall size : Q,
     8 <= clampCells size 8 25 <= 25 /\ 8 <= clampCells size 8 40 <= 40 /\
     10 <= clampCells size 10 40 <= 40).
Proof.
  intros d. destruct (getGridDimensions_bounds window) as [Hr Hc].
  split; [exact Hr|]. split; [exact Hc|].
  split; [apply invalidDimensions_false|]. split.
  - unfold initializeGrid. by rewrite invalidDimensions_false.
  - intros size. split_and!; apply clampCells_bounds; lia.
Qed.

(** C9, as the code has it.  The handler of the slider stores
    2100 - value, whatever the value; for a value the slider can deliver
    (between its [min] 100 and its [max] 2000) that is between 100 and 2000,
    and in every reachable state the speed is between 100 and 2000. *)
Theorem speed_in_range :
  (forall value s, speed (onValueChange value s) = 2100 - value) /\
  (forall value s, sliderValue value = true ->
     100 <= speed (onValueChange value s) <= 2000) /\
  (forall w, reachable w -> 100 <= speed (ui w) <= 2000).
Proof.
  split; [done|]. split.
  - intros value s H. unfold sliderValue in H. simpl. lia.
  - intros w H. by destruct (reachable_wellFormed w H) as (_ & _ & ?).
Qed.

Lemma speed_in_range_witness :
  sliderValue 1600 = true /\
  100 <= speed (onValueChange 1600 (Sample.state3 false)) <= 2000 /\
  reachable Sample.mounted /\
  100 <= speed (ui Sample.mounted) <= 2000.
Proof.
  destruct speed_in_range as (_ & Hslider & Hreach).
  assert (reachable Sample.mounted) as H.
  { apply (reachable_mount false Sample.phone). vm_compute. reflexivity. }
  split; [reflexivity|].
  split; [apply (Hslider 1600 (Sample.state3 false)); reflexivity|].
  split; [exact H|]. exact (Hreach Sample.mounted H).
Defined.

(** C9, as the specification states it, fails: a value of 2050 asks for a
    speed of 50, below the range, and 50 is what is stored; it is not
    clamped to 100. *)
Lemma speed_not_clamped :
  speed (onValueChange 2050 (Sample.state3 false)) = 50 /\
  speed (onValueChange 2050 (Sample.state3 false)) <> clampSpeed (2100 - 2050) /\
  ~ (100 <= speed (onValueChange 2050 (Sample.state3 false)) <= 2000).
Proof. split; [reflexivity|]. split; [discriminate|]. simpl. lia. Qed.

(** C10.  In every state, running or not, the handler of pointer up (and
    of the pointer leaving the grid) sets [isDragging] to false and leaves
    the store, the grid, the generation, the speed, [isRunning], the drag
    mode and the timer as they were. *)
Theorem pointerUp_stops_dragging w :
  handler MouseUp w (heap w) = Ok (handleMouseUp (ui w)) (heap w) /\
  handler MouseLeave w (heap w) = Ok (handleMouseUp (ui w)) (heap w) /\
  isDragging (handleMouseUp (ui w)) = false /\
  grid (handleMouseUp (ui w)) = grid (ui w) /\
  generation (handleMouseUp (ui w)) = generation (ui w) /\
  speed (handleMouseUp (ui w)) = speed (ui w) /\
  isRunning (handleMouseUp (ui w)) = isRunning (ui w) /\
  dragMode (handleMouseUp (ui w)) = dragMode (ui w) /\
  showRules (handleMouseUp (ui w)) = showRules (ui w) /\
  gameLoopEffect (ui w) (handleMouseUp (ui w)) (interval w) = interval w.
Proof.
  split_and!; try reflexivity. by apply gameLoopEffect_same.
Qed.

End Claims.

(** * More lemmas on grids *)

Section AnyGrid.
Import Life Val Spec.

Lemma row_fold_any (f : nat -> cell) cs k :
  foldl (fun cs col => jsSet cs col (f col)) cs (seq 0 k) = (f <$> seq 0 k) ++ drop k cs.
Proof.
  induction k as [|k IH]; [done|].
  rewrite seq_S, foldl_snoc, IH. simpl.
  destruct (decide (k < length cs)%nat) as [Hk|Hk].
  - destruct (lookup_lt_is_Some_2 cs k) as [x Hx]; [lia|].
    rewrite jsSet_inside by (rewrite length_app, length_fmap, length_seq, length_drop; lia).
    rewrite insert_app_r_alt by (rewrite length_fmap, length_seq; lia).
    rewrite length_fmap, length_seq, Nat.sub_diag.
    rewrite (drop_S _ _ _ Hx). simpl.
    by rewrite fmap_app, <- app_assoc.
  - rewrite !drop_ge by lia. rewrite !app_nil_r.
    unfold jsSet. rewrite decide_False by (rewrite length_fmap, length_seq; lia).
    rewrite length_fmap, length_seq, Nat.sub_diag. simpl.
    by rewrite fmap_app.
Qed.

Lemma nextGeneration_lookup G i cs :
  G !! i = Some cs ->
  Val.nextGeneration G !! i =
    Some (((fun col => newCell G i col) <$> seq 0 (width G)) ++ drop (width G) cs).
Proof.
  unfold Val.nextGeneration.
  assert (forall k, (k <= length G)%nat ->
    let N := foldl (fun N row => foldl (fun N col => writeCell N row col (newCell G row col))
                            N (seq 0 (width G))) G (seq 0 k) in
    length N = length G /\
    forall i cs, G !! i = Some cs ->
      N !! i = Some (if decide (i < k)%nat
                     then ((fun col => newCell G i col) <$> seq 0 (width G)) ++ drop (width G) cs
                     else cs)) as Hk.
  { induction k as [|k IH]; intros Hle; [done|].
    destruct IH as [Hlen IH]; [lia|]. cbv zeta.
    rewrite seq_S, foldl_snoc. simpl.
    destruct (lookup_lt_is_Some_2 G k) as [csk Hcsk]; [lia|].
    pose proof (IH k csk Hcsk) as Hk. rewrite decide_False in Hk by lia.
    rewrite (writeCell_fold _ _ _ _ _ Hk). split; [by rewrite length_insert|].
    intros j cs' Hj. destruct (decide (j = k)) as [->|Hne].
    - rewrite list_lookup_insert_eq by lia. rewrite decide_True by lia.
      rewrite row_fold_any. rewrite Hcsk in Hj. by injection Hj as <-.
    - rewrite list_lookup_insert_ne by done. rewrite (IH _ _ Hj).
      destruct (decide (j < k)%nat); [by rewrite decide_True by lia|].
      by rewrite decide_False by lia. }
  intros Hi. destruct (Hk (length G)) as [_ H]; [done|].
  rewrite (H _ _ Hi). by rewrite decide_True by (by eapply lookup_lt_Some).
Qed.

Lemma countNeighbors_le_8 G row col : (Val.countNeighbors G row col <= 8)%nat.
Proof.
  unfold Val.countNeighbors.
  assert (forall ds n,
    (foldl (fun (count : nat) '(dx, dy) =>
      if Val.inGrid G (row + dx) (col + dy) then
        if truthy (cellAt G (Z.to_nat (row + dx)) (Z.to_nat (col + dy)))
        then S count else count
      else count) n ds <= n + length ds)%nat) as H.
  { induction ds as [|[dx dy] ds IH]; intros n; simpl; [lia|].
    etrans; [apply IH|].
    destruct (Val.inGrid G _ _); [destruct (truthy _)|]; lia. }
  apply (H directions 0%nat).
Qed.

Lemma countNeighbors_nil row col : Val.countNeighbors [] row col = 0%nat.
Proof.
  unfold Val.countNeighbors.
  assert (forall ds n,
    foldl (fun (count : nat) '(dx, dy) =>
      if Val.inGrid [] (row + dx) (col + dy) then
        if truthy (cellAt [] (Z.to_nat (row + dx)) (Z.to_nat (col + dy)))
        then S count else count
      else count) n ds = n) as H.
  { induction ds as [|[dx dy] ds IH]; intros n; [done|].
    cbn [foldl]. rewrite IH.
    assert (Val.inGrid [] (row + dx) (col + dy) = false) as ->; [|done].
    unfold Val.inGrid. cbn [length].
    destruct (0 <=? row + dx) eqn:E; [|done].
    by rewrite (proj2 (Z.ltb_ge _ _)) by (simpl; lia). }
  apply H.
Qed.

End AnyGrid.

(** ** Cells, rows and the population *)

Section Cells.

Import Life Val Spec More.

Lemma cellAt_Some G row col b :
  cellAt G row col = Some b ->
  exists cs, G !! row = Some cs /\ cs !! col = Some (Some b) /\ (col < length cs)%nat.
Proof.
  unfold cellAt. destruct (G !! row) as [cs|]; [|done]. simpl.
  destruct (cs !! col) as [c|] eqn:E; [|done]. simpl. intros ->.
  exists cs. split; [done|]. split; [done|]. by eapply lookup_lt_Some.
Qed.

Lemma toggleCell_twice G row col b :
  cellAt G row col = Some b ->
  Val.toggleCell row col (Val.toggleCell row col G) = G.
Proof.
  intros H. destruct (cellAt_Some _ _ _ _ H) as (cs & Hcs & Hc & Hlt).
  pose proof (lookup_lt_Some _ _ _ Hcs) as Hrow.
  unfold Val.toggleCell at 2. unfold writeCell. rewrite Hcs, H.
  rewrite jsSet_inside by done. cbn [truthy].
  unfold Val.toggleCell, writeCell, cellAt.
  rewrite list_lookup_insert_eq by done. cbn [mbind option_bind].
  rewrite list_lookup_insert_eq by done. cbn [mjoin option_join truthy].
  rewrite jsSet_inside by (by rewrite length_insert).
  rewrite list_insert_insert_eq, list_insert_insert_eq, negb_involutive.
  by rewrite (list_insert_id _ _ _ Hc), (list_insert_id _ _ _ Hcs).
Qed.

Lemma population_app G1 G2 :
  Val.getPopulation (G1 ++ G2) = (Val.getPopulation G1 + Val.getPopulation G2)%nat.
Proof. unfold Val.getPopulation. by rewrite concat_app, filter_app, length_app. Qed.

Lemma population_cons cs G :
  Val.getPopulation (cs :: G) = (Val.getPopulation [cs] + Val.getPopulation G)%nat.
Proof. apply (population_app [cs] G). Qed.

Lemma population_row_insert cs col c c' :
  cs !! col = Some c ->
  (Val.getPopulation [<[col := c']> cs] + weight c =
   Val.getPopulation [cs] + weight c')%nat.
Proof.
  intros H. pose proof (lookup_lt_Some _ _ _ H) as Hlt.
  unfold Val.getPopulation, weight. simpl. rewrite !app_nil_r.
  rewrite insert_take_drop by done.
  rewrite <- (take_drop_middle _ _ _ H) at 3.
  rewrite !filter_app, !length_app, !filter_cons.
  destruct (truthy c), (truthy c'); simpl;
    rewrite ?decide_True, ?decide_False by done; simpl; lia.
Qed.

Lemma population_insert G row cs cs' :
  G !! row = Some cs ->
  (Val.getPopulation (<[row := cs']> G) + Val.getPopulation [cs] =
   Val.getPopulation G + Val.getPopulation [cs'])%nat.
Proof.
  intros H. pose proof (lookup_lt_Some _ _ _ H) as Hlt.
  rewrite insert_take_drop by done.
  rewrite <- (take_drop_middle _ _ _ H) at 3.
  rewrite !population_app, (population_cons cs' (drop _ _)), (population_cons cs (drop _ _)).
  lia.
Qed.

Lemma population_le R C G :
  rectangular R C G -> (Val.getPopulation G <= R * C)%nat.
Proof.
  intros [<- HC]. unfold Val.getPopulation.
  etrans; [apply length_filter|].
  induction HC as [|cs G Hcs _ IH]; simpl; [lia|].
  rewrite length_app. lia.
Qed.

End Cells.

(** * Further properties *)

Section Toggling.

Import Life Val Spec More.

(** X1. [toggleCell] on a cell that holds a boolean, twice: the first
    call flips the cell, the second restores the grid; both calls return
    new arrays, and the grid they started from still reads as before. *)
Theorem toggleCell_involution st g G row col b :
  readGrid st g = Some G -> cellAt G row col = Some b ->
  exists g1 st1 G1 g2 st2,
    Life.toggleCell row col g st = Ok g1 st1 /\
    readGrid st1 g1 = Some G1 /\ cellAt G1 row col = Some (negb b) /\
    Life.toggleCell row col g1 st1 = Ok g2 st2 /\
    readGrid st2 g2 = Some G /\
    g1 <> g /\ g2 <> g /\ g2 <> g1 /\
    readGrid st2 g = Some G.
Proof.
  intros HG Hb. destruct (cellAt_Some _ _ _ _ Hb) as (cs & Hcs & Hc & Hlt).
  pose proof (lookup_lt_Some _ _ _ Hcs) as Hrow.
  destruct (toggleCell_run _ _ _ HG row col Hrow) as (st1 & E1 & Hp1 & HG1).
  assert (length (Val.toggleCell row col G) = length G) as Hlen.
  { apply length_writeCell. }
  destruct (toggleCell_run _ _ _ HG1 row col) as (st2 & E2 & Hp2 & HG2); [lia|].
  apply readGrid_Some in HG as HG0. destruct HG0 as (rs & Hrs & _).
  pose proof (lookup_lt_Some _ _ _ Hrs) as Hg.
  assert (length (gridObjs st) < length (gridObjs st1))%nat as Hg1.
  { apply readGrid_Some in HG1 as (rs1 & Hrs1 & _). by eapply lookup_lt_Some. }
  eexists _, st1, _, _, st2. split; [exact E1|]. split; [exact HG1|]. split.
  { unfold Val.toggleCell. rewrite Hb. unfold writeCell. rewrite Hcs.
    unfold cellAt. rewrite list_lookup_insert_eq by done. simpl.
    rewrite jsSet_inside by done. by rewrite list_lookup_insert_eq by done. }
  split; [exact E2|]. split.
  { rewrite HG2. f_equal. by eapply toggleCell_twice. }
  split; [lia|]. split; [lia|]. split; [lia|].
  eapply readGrid_preserved; [|done]. by eapply preserved_trans.
Qed.

Lemma toggleCell_involution_witness :
  readGrid Sample.store3 0%nat = Some Sample.grid3 /\
  cellAt Sample.grid3 1 2 = Some false /\
  exists g1 st1 G1 g2 st2,
    Life.toggleCell 1 2 0%nat Sample.store3 = Ok g1 st1 /\
    readGrid st1 g1 = Some G1 /\ cellAt G1 1 2 = Some (negb false) /\
    Life.toggleCell 1 2 g1 st1 = Ok g2 st2 /\
    readGrid st2 g2 = Some Sample.grid3 /\
    g1 <> 0%nat /\ g2 <> 0%nat /\ g2 <> g1 /\
    readGrid st2 0%nat = Some Sample.grid3.
Proof.
  split; [reflexivity|]. split; [reflexivity|].
  exact (toggleCell_involution Sample.store3 0%nat Sample.grid3 1 2 false eq_refl eq_refl).
Defined.

(** X2. [toggleCell] copies on write: the outer array it returns is new,
    its entry [row] is a new row array, every other entry is the very row
    array of the previous grid, and no array that existed is written to. *)
Theorem toggleCell_copy_on_write st g G rs row col :
  readGrid st g = Some G -> gridObjs st !! g = Some rs -> (row < length G)%nat ->
  exists g' st' rs' r',
    Life.toggleCell row col g st = Ok g' st' /\
    gridObjs st !! g' = None /\
    gridObjs st' !! g' = Some rs' /\
    length rs' = length rs /\
    rs' !! row = Some r' /\ rowObjs st !! r' = None /\
    (forall i, i <> row -> rs' !! i = rs !! i) /\
    preserved st st' /\
    readGrid st' g = Some G.
Proof.
  intros HG Hrs Hrow. destruct (lookup_lt_is_Some_2 _ _ Hrow) as [cs Hcs].
  assert (row < length rs)%nat as Hrow'.
  { destruct (getGrid_run _ _ _ HG) as (rs0 & _ & Hrs0 & F).
    rewrite Hrs in Hrs0. injection Hrs0 as <-. by rewrite (Forall2_length _ _ _ F). }
  assert (preserved st
    (Store (rowObjs st ++ [jsSet cs col (Some (negb (truthy (mjoin (cs !! col)))))])
           (gridObjs st ++ [<[row := length (rowObjs st)]> rs]))) as Hp.
  { split; simpl; by eexists. }
  eexists _, _, _, _. split; [by apply (toggleCell_store _ _ _ HG rs row cs)|].
  split; [by apply lookup_ge_None|].
  split; [simpl; by apply list_lookup_middle|].
  split; [by rewrite length_insert|].
  split; [by apply list_lookup_insert_eq|].
  split; [by apply lookup_ge_None|].
  split; [intros i Hi; by apply list_lookup_insert_ne|].
  split; [exact Hp|]. by eapply readGrid_preserved.
Qed.

Lemma toggleCell_copy_on_write_witness :
  readGrid Sample.store3 0%nat = Some Sample.grid3 /\
  gridObjs Sample.store3 !! 0%nat = Some [0; 1; 2]%nat /\
  (1 < length Sample.grid3)%nat /\
  exists g' st' rs' r',
    Life.toggleCell 1 2 0%nat Sample.store3 = Ok g' st' /\
    gridObjs Sample.store3 !! g' = None /\
    gridObjs st' !! g' = Some rs' /\
    length rs' = length [0; 1; 2]%nat /\
    rs' !! 1%nat = Some r' /\ rowObjs Sample.store3 !! r' = None /\
    (forall i, i <> 1%nat -> rs' !! i = [0; 1; 2]%nat !! i) /\
    preserved Sample.store3 st' /\
    readGrid st' 0%nat = Some Sample.grid3.
Proof.
  assert (1 < length Sample.grid3)%nat as H by (simpl; lia).
  split; [reflexivity|]. split; [reflexivity|]. split; [exact H|].
  exact (toggleCell_copy_on_write Sample.store3 0%nat Sample.grid3 [0; 1; 2]%nat 1 2
           eq_refl eq_refl H).
Defined.

(** X3. [toggleCell] outside the grid: a row index past the last row
    throws a [TypeError]; a column index past the end of an existing row
    extends the copy of that row, with empty slots up to the column and a
    live cell at it. *)
Theorem toggleCell_outside st g G row col :
  readGrid st g = Some G ->
  ((length G <= row)%nat -> Life.toggleCell row col g st = Throw TypeError) /\
  (forall cs, G !! row = Some cs -> (length cs <= col)%nat ->
     exists g' st',
       Life.toggleCell row col g st = Ok g' st' /\
       readGrid st' g' =
         Some (<[row := cs ++ replicate (col - length cs) None ++ [Some true]]> G)).
Proof.
  intros HG. destruct (getGrid_run _ _ _ HG) as (rs & E & Hrs & F). split.
  - intros Hrow. unfold Life.toggleCell, spreadGrid.
    rewrite !run_bind, E. unfold allocGrid at 1. unfold copyRow.
    rewrite !run_bind.
    assert (gridRow (length (gridObjs st))
              row (Store (rowObjs st) (gridObjs st ++ [rs])) = Throw TypeError) as ->; [|done].
    unfold gridRow, gridIndex, getGrid. rewrite !run_bind. simpl.
    rewrite list_lookup_middle by done. rewrite run_ret.
    rewrite (lookup_ge_None_2 rs) by (rewrite (Forall2_length _ _ _ F); lia). done.
  - intros cs Hcs Hcol. pose proof (lookup_lt_Some _ _ _ Hcs) as Hrow.
    destruct (toggleCell_run _ _ _ HG row col Hrow) as (st' & E' & _ & HG').
    eexists _, st'. split; [exact E'|]. rewrite HG'. f_equal.
    unfold Val.toggleCell, writeCell, cellAt. rewrite Hcs. simpl.
    rewrite (lookup_ge_None_2 cs) by lia. simpl.
    unfold jsSet. by rewrite decide_False by lia.
Qed.

Lemma toggleCell_outside_witness :
  readGrid Sample.store3 0%nat = Some Sample.grid3 /\
  Life.toggleCell 3 0 0%nat Sample.store3 = Throw TypeError /\
  exists g' st',
    Life.toggleCell 1 4 0%nat Sample.store3 = Ok g' st' /\
    readGrid st' g' =
      Some (<[1%nat := [Some true; Some true; Some false] ++
                       replicate (4 - 3) None ++ [Some true]]> Sample.grid3).
Proof.
  split; [reflexivity|]. split.
  - apply (proj1 (toggleCell_outside Sample.store3 0%nat Sample.grid3 3 0 eq_refl)).
    simpl. lia.
  - apply (proj2 (toggleCell_outside Sample.store3 0%nat Sample.grid3 1 4 eq_refl)
             [Some true; Some true; Some false]); [reflexivity|simpl; lia].
Defined.

(** X4. The population after [toggleCell] on a cell that holds a boolean:
    one less when the cell was alive, one more when it was dead. *)
Theorem toggleCell_population st g G row col b :
  readGrid st g = Some G -> cellAt G row col = Some b ->
  exists g' st' n n',
    Life.getPopulation g st = Ok n st /\
    Life.toggleCell row col g st = Ok g' st' /\
    Life.getPopulation g' st' = Ok n' st' /\
    (if b then n = S n' else n' = S n).
Proof.
  intros HG Hb. destruct (cellAt_Some _ _ _ _ Hb) as (cs & Hcs & Hc & Hlt).
  pose proof (lookup_lt_Some _ _ _ Hcs) as Hrow.
  destruct (toggleCell_run _ _ _ HG row col Hrow) as (st' & E & _ & HG').
  eexists _, st', _, _. split; [by apply getPopulation_run|].
  split; [exact E|]. split; [by apply getPopulation_run|].
  unfold Val.toggleCell, writeCell. rewrite Hcs, Hb.
  rewrite jsSet_inside by done.
  pose proof (population_insert G row cs (<[col := Some (negb (truthy (Some b)))]> cs) Hcs) as H1.
  pose proof (population_row_insert cs col (Some b) (Some (negb (truthy (Some b)))) Hc) as H2.
  unfold weight in H2. destruct b; simpl in *; lia.
Qed.

Lemma toggleCell_population_witness :
  readGrid Sample.store3 0%nat = Some Sample.grid3 /\
  cellAt Sample.grid3 1 1 = Some true /\
  exists g' st' n n',
    Life.getPopulation 0%nat Sample.store3 = Ok n Sample.store3 /\
    Life.toggleCell 1 1 0%nat Sample.store3 = Ok g' st' /\
    Life.getPopulation g' st' = Ok n' st' /\
    n = S n'.
Proof.
  split; [reflexivity|]. split; [reflexivity|].
  exact (toggleCell_population Sample.store3 0%nat Sample.grid3 1 1 true eq_refl eq_refl).
Defined.

End Toggling.

Section Locality.

Import Life Val Spec More.

Lemma NoDup_directions : NoDup directions.
Proof. apply (bool_decide_unpack (NoDup directions)). by vm_compute. Qed.

Lemma sum_list_with_change {A} `{EqDecision A} (f f' : A -> nat) (d0 : A) (l : list A) :
  NoDup l -> (forall d, d ∈ l -> d <> d0 -> f' d = f d) ->
  (sum_list_with f' l + (if decide (d0 ∈ l) then f d0 else 0) =
   sum_list_with f l + (if decide (d0 ∈ l) then f' d0 else 0))%nat.
Proof.
  induction 1 as [|d l Hd Hl IH]; intros Hf.
  - simpl. destruct (decide (d0 ∈ [])) as [Hin|_]; [|done].
    by apply not_elem_of_nil in Hin.
  - specialize (IH (fun y Hy => Hf y (list_elem_of_further _ _ _ Hy))).
    cbn [sum_list_with].
    destruct (decide (d0 ∈ l)) as [Hin|Hin];
      destruct (decide (d0 ∈ d :: l)) as [Hin'|Hin'];
      destruct (decide (d = d0)) as [->|Hne]; try done.
    + rewrite (Hf d) by (done || by left). lia.
    + exfalso. apply Hin'. by right.
    + lia.
    + exfalso. apply elem_of_cons in Hin' as [?|?]; done.
    + exfalso. apply Hin'. by left.
    + rewrite (Hf d) by (done || by left). lia.
Qed.

Lemma liveNeighbors_sum R C G row col :
  liveNeighbors R C G row col =
    sum_list_with (fun d => if inside R C (row + d.1) (col + d.2) &&
                              alive G (row + d.1) (col + d.2) then 1 else 0)%nat
                  directions.
Proof.
  unfold liveNeighbors, positions. rewrite offsets_directions.
  apply (length_filter_filter (fun d => inside R C (row + d.1) (col + d.2))
           (fun d => alive G (row + d.1) (col + d.2))).
Qed.

Lemma alive_writeCell R C G row col v a b :
  rectangular R C G -> (row < R)%nat -> (col < C)%nat -> inside R C a b = true ->
  alive (writeCell G row col v) a b =
    if bool_decide (a = Z.of_nat row /\ b = Z.of_nat col) then truthy v else alive G a b.
Proof.
  intros Hrect Hrow Hcol Hin.
  rewrite (alive_inside R C _ _ _ Hin), (alive_inside R C _ _ _ Hin).
  rewrite (cellAt_writeCell _ _ _ _ _ _ _ _ Hrect Hrow Hcol).
  unfold inside in Hin. rewrite !andb_true_iff, !Z.leb_le, !Z.ltb_lt in Hin.
  case_bool_decide as H1; case_bool_decide as H2; try done.
  - exfalso. apply H2. injection H1. lia.
  - exfalso. apply H1. f_equal; lia.
Qed.

(** X5. Locality of a toggle: for every coordinate, inside the grid or
    not, the neighbour count after [toggleCell] on a boolean cell differs
    from the count before by exactly one when the coordinate is one of the
    eight neighbours of the toggled cell (one less when the cell was alive,
    one more when it was dead), and is the same otherwise; in particular
    the count at the toggled cell itself does not change. *)
Theorem toggleCell_neighbour_counts st g G R C row col b i j :
  readGrid st g = Some G -> rectangular R C G ->
  cellAt G row col = Some b ->
  exists g' st' n n',
    Life.countNeighbors g i j st = Ok n st /\
    Life.toggleCell row col g st = Ok g' st' /\
    Life.countNeighbors g' i j st' = Ok n' st' /\
    (if adjacent (i, j) (Z.of_nat row, Z.of_nat col)
     then (if b then n = S n' else n' = S n)
     else n' = n).
Proof.
  intros HG Hrect Hb. destruct (cellAt_Some _ _ _ _ Hb) as (cs & Hcs & Hc & Hlt).
  pose proof (lookup_lt_Some _ _ _ Hcs) as Hrow.
  assert (row < R /\ col < C)%nat as [HrowR HcolC].
  { destruct Hrect as [HR HC]. eapply Forall_lookup_1 in HC; [|done]. simpl in HC. lia. }
  destruct (toggleCell_run _ _ _ HG row col Hrow) as (st' & E & _ & HG').
  assert (rectangular R C (Val.toggleCell row col G)) as Hrect'.
  { by apply rectangular_writeCell. }
  eexists _, st', _, _. split; [by apply countNeighbors_run|].
  split; [exact E|]. split; [by apply countNeighbors_run|].
  rewrite (countNeighbors_liveNeighbors _ _ _ _ _ Hrect),
          (countNeighbors_liveNeighbors _ _ _ _ _ Hrect'), !liveNeighbors_sum.
  set (d0 := (Z.of_nat row - i, Z.of_nat col - j)).
  set (f := fun d : Z * Z =>
    (if inside R C (i + d.1) (j + d.2) && alive G (i + d.1) (j + d.2) then 1 else 0)%nat).
  set (f' := fun d : Z * Z =>
    (if inside R C (i + d.1) (j + d.2) &&
        alive (Val.toggleCell row col G) (i + d.1) (j + d.2) then 1 else 0)%nat).
  assert (inside R C (Z.of_nat row) (Z.of_nat col) = true) as Hin.
  { unfold inside. rewrite !andb_true_iff, !Z.leb_le, !Z.ltb_lt. lia. }
  pose proof (sum_list_with_change f f' d0 directions NoDup_directions) as Hsum.
  assert (forall d, f' d = if bool_decide (d = d0) then weight (Some (negb b)) else f d) as Hf'.
  { intros [dx dy]. subst f f'. cbv beta. cbn [fst snd].
    destruct (inside R C (i + dx) (j + dy)) eqn:Hd.
    - unfold Val.toggleCell.
      rewrite (alive_writeCell _ _ _ _ _ _ _ _ Hrect HrowR HcolC Hd).
      rewrite Hb. cbn [truthy andb].
      case_bool_decide as H1; case_bool_decide as H2; try done.
      + exfalso. apply H2. subst d0. f_equal; lia.
      + exfalso. apply H1. subst d0. injection H2. lia.
    - cbn [andb]. rewrite bool_decide_false; [done|].
      intros H. subst d0. injection H as -> ->.
      replace (i + (Z.of_nat row - i)) with (Z.of_nat row) in Hd by lia.
      replace (j + (Z.of_nat col - j)) with (Z.of_nat col) in Hd by lia.
      congruence. }
  assert (f d0 = weight (Some b)) as Hf0.
  { subst f d0. cbv beta. cbn [fst snd].
    replace (i + (Z.of_nat row - i)) with (Z.of_nat row) by lia.
    replace (j + (Z.of_nat col - j)) with (Z.of_nat col) by lia.
    rewrite Hin, alive_of_nat, Hb. done. }
  assert (forall d, d ∈ directions -> d <> d0 -> f' d = f d) as Hext.
  { intros d _ Hd. rewrite Hf'. by rewrite bool_decide_false. }
  specialize (Hsum Hext).
  rewrite (Hf' d0), bool_decide_true, Hf0 in Hsum by done.
  unfold adjacent. cbn [fst snd]. fold d0. unfold weight in Hsum. cbn [truthy] in Hsum.
  revert Hsum. destruct (decide (d0 ∈ directions)) as [Hd|Hd]; intros Hsum.
  - rewrite bool_decide_true by done. destruct b; cbn [negb] in Hsum; lia.
  - rewrite bool_decide_false by done. lia.
Qed.

Lemma toggleCell_neighbour_counts_witness :
  readGrid Sample.store3 0%nat = Some Sample.grid3 /\
  rectangular 3 3 Sample.grid3 /\
  cellAt Sample.grid3 1 1 = Some true /\
  exists g' st' n n',
    Life.countNeighbors 0%nat 0 0 Sample.store3 = Ok n Sample.store3 /\
    Life.toggleCell 1 1 0%nat Sample.store3 = Ok g' st' /\
    Life.countNeighbors g' 0 0 st' = Ok n' st' /\
    (if adjacent (0, 0) (Z.of_nat 1, Z.of_nat 1)
     then n = S n'
     else n' = n).
Proof.
  assert (rectangular 3 3 Sample.grid3) as Hrect.
  { split; [reflexivity|]. repeat constructor. }
  split; [reflexivity|]. split; [exact Hrect|]. split; [reflexivity|].
  exact (toggleCell_neighbour_counts Sample.store3 0%nat Sample.grid3 3 3 1 1 true 0 0
           eq_refl Hrect eq_refl).
Defined.

End Locality.

Section Stepping.

Import Life Val Spec More Dims.

Lemma nextGeneration_reads st g G :
  readGrid st g = Some G ->
  exists g' st',
    Life.nextGeneration g st = Ok g' st' /\
    readGrid st' g' = Some (Val.nextGeneration G) /\
    preserved st st'.
Proof.
  intros HG. eexists _, _. split; [by apply nextGeneration_run|].
  split; [apply readGrid_withCopy, length_nextGeneration|apply preserved_withCopy].
Qed.

(** X6. [nextGeneration] on a grid of any shape, empty or ragged: it does
    not throw; it returns a new outer array with as many rows as the input
    and writes to no array that existed.  The empty grid gives the empty
    grid.  In each row the columns below the length of the first row are
    recomputed from the count and the value read in the input grid; the
    entries from that column on are copied, so a row is never shortened. *)
Theorem nextGeneration_any_grid st g G :
  readGrid st g = Some G ->
  exists g' st' G',
    Life.nextGeneration g st = Ok g' st' /\
    gridObjs st !! g' = None /\
    readGrid st' g' = Some G' /\ length G' = length G /\
    (G = [] -> G' = []) /\
    (forall cs0 row cs, G !! 0%nat = Some cs0 -> G !! row = Some cs ->
       exists cs', G' !! row = Some cs' /\
         length cs' = Nat.max (length cs) (length cs0) /\
         (forall col, (length cs0 <= col)%nat -> cs' !! col = cs !! col) /\
         (forall col, (col < length cs0)%nat ->
            exists n a,
              Life.countNeighbors g (Z.of_nat row) (Z.of_nat col) st = Ok n st /\
              getCell g row col st = Ok a st /\
              cs' !! col = Some (Some (rule a n)))) /\
    preserved st st' /\ readGrid st' g = Some G.
Proof.
  intros HG. eexists _, _, _. split; [by apply nextGeneration_run|].
  split; [by apply lookup_ge_None|].
  split; [apply readGrid_withCopy, length_nextGeneration|].
  split; [apply length_nextGeneration|]. split; [by intros ->|].
  split; [|split; [apply preserved_withCopy|]].
  2:{ eapply readGrid_preserved; [apply preserved_withCopy|done]. }
  intros cs0 row cs H0 Hrow. pose proof (lookup_lt_Some _ _ _ Hrow) as Hlt.
  rewrite (nextGeneration_lookup _ _ _ Hrow), (width_lookup _ _ H0).
  eexists. split; [done|]. split; [|split].
  - rewrite length_app, length_fmap, length_seq, length_drop. lia.
  - intros col Hcol. rewrite lookup_app_r by (rewrite length_fmap, length_seq; lia).
    rewrite length_fmap, length_seq, lookup_drop. f_equal. lia.
  - intros col Hcol. eexists _, _.
    split; [by apply countNeighbors_run|]. split; [by apply getCell_run|].
    rewrite lookup_app_l by (rewrite length_fmap, length_seq; lia).
    by rewrite list_lookup_fmap, lookup_seq_lt by done.
Qed.

Lemma nextGeneration_any_grid_witness :
  readGrid Sample.store3 0%nat = Some Sample.grid3 /\
  exists g' st' G',
    Life.nextGeneration 0%nat Sample.store3 = Ok g' st' /\
    gridObjs Sample.store3 !! g' = None /\
    readGrid st' g' = Some G' /\ length G' = length Sample.grid3 /\
    (Sample.grid3 = [] -> G' = []) /\
    (forall cs0 row cs, Sample.grid3 !! 0%nat = Some cs0 -> Sample.grid3 !! row = Some cs ->
       exists cs', G' !! row = Some cs' /\
         length cs' = Nat.max (length cs) (length cs0) /\
         (forall col, (length cs0 <= col)%nat -> cs' !! col = cs !! col) /\
         (forall col, (col < length cs0)%nat ->
            exists n a,
              Life.countNeighbors 0%nat (Z.of_nat row) (Z.of_nat col) Sample.store3
                = Ok n Sample.store3 /\
              getCell 0%nat row col Sample.store3 = Ok a Sample.store3 /\
              cs' !! col = Some (Some (rule a n)))) /\
    preserved Sample.store3 st' /\ readGrid st' 0%nat = Some Sample.grid3.
Proof.
  split; [reflexivity|].
  exact (nextGeneration_any_grid Sample.store3 0%nat Sample.grid3 eq_refl).
Defined.

(** X7. [countNeighbors] at any coordinate of any grid: it does not throw
    and does not touch the store; the count is at most 8; it is 0 on the
    empty grid, and 0 for a coordinate more than one step outside a
    rectangular grid. *)
Theorem countNeighbors_total st g G row col :
  readGrid st g = Some G ->
  exists n,
    Life.countNeighbors g row col st = Ok n st /\
    (n <= 8)%nat /\
    (G = [] -> n = 0%nat) /\
    (forall R C, rectangular R C G ->
       row < -1 \/ Z.of_nat R < row \/ col < -1 \/ Z.of_nat C < col -> n = 0%nat).
Proof.
  intros HG. eexists. split; [by apply countNeighbors_run|].
  split; [apply countNeighbors_le_8|]. split.
  - intros ->. apply countNeighbors_nil.
  - intros R C Hrect Hfar.
    rewrite (countNeighbors_liveNeighbors _ _ _ _ _ Hrect).
    pose proof (liveNeighbors_le_positions R C G row col) as Hle.
    assert (length (positions R C row col) <= 0)%nat; [|lia].
    unfold positions. rewrite offsets_directions.
    etrans; [apply (length_filter_impl _
      (fun d => ~ (-1 <= d.1 <= 1 /\ -1 <= d.2 <= 1)))|done].
    intros [dx dy]. unfold inside. simpl.
    rewrite !andb_true_iff, !Z.leb_le, !Z.ltb_lt. lia.
Qed.

Lemma countNeighbors_total_witness :
  readGrid Sample.store3 0%nat = Some Sample.grid3 /\
  exists n,
    Life.countNeighbors 0%nat 3 (-1) Sample.store3 = Ok n Sample.store3 /\
    (n <= 8)%nat /\
    (Sample.grid3 = [] -> n = 0%nat) /\
    (forall R C, rectangular R C Sample.grid3 ->
       3 < -1 \/ Z.of_nat R < 3 \/ -1 < -1 \/ Z.of_nat C < -1 -> n = 0%nat).
Proof.
  split; [reflexivity|].
  exact (countNeighbors_total Sample.store3 0%nat Sample.grid3 3 (-1) eq_refl).
Defined.

(** X8. [getPopulation] on a rectangular grid: it does not touch the
    store, the result is at most rows x columns, and it is 0 exactly when
    no cell is alive. *)
Theorem getPopulation_bounded st g G R C :
  readGrid st g = Some G -> rectangular R C G ->
  exists n,
    Life.getPopulation g st = Ok n st /\
    (n <= R * C)%nat /\
    (n = 0%nat <-> forall row col, truthy (cellAt G row col) = false).
Proof.
  intros HG Hrect. eexists. split; [by apply getPopulation_run|].
  split; [by apply population_le|].
  unfold Val.getPopulation. split.
  - intros H0%nil_length_inv row col.
    destruct (truthy (cellAt G row col)) eqn:E; [|done]. exfalso.
    unfold cellAt in E. destruct (G !! row) as [cs|] eqn:Hcs; [|done]. simpl in E.
    destruct (cs !! col) as [c|] eqn:Hc; [|done]. simpl in E.
    assert (c ∈ filter (fun c : cell => truthy c = true) (concat G)) as Hin.
    { apply list_elem_of_filter. split; [done|].
      apply list_elem_of_In, in_concat. exists cs.
      split; apply list_elem_of_In; by eapply list_elem_of_lookup_2. }
    rewrite H0 in Hin. by apply not_elem_of_nil in Hin.
  - intros Hdead. assert (filter (fun c : cell => truthy c = true) (concat G) = []) as ->; [|done].
    destruct (filter _ (concat G)) as [|c l] eqn:E; [done|exfalso].
    assert (c ∈ filter (fun c : cell => truthy c = true) (concat G)) as [Hc Hin]%list_elem_of_filter
      by (rewrite E; left).
    apply list_elem_of_In, in_concat in Hin as (cs & Hcs & Hin).
    apply list_elem_of_In, list_elem_of_lookup in Hcs as [row Hrow].
    apply list_elem_of_In, list_elem_of_lookup in Hin as [col Hcol].
    specialize (Hdead row col). unfold cellAt in Hdead.
    rewrite Hrow in Hdead. simpl in Hdead. rewrite Hcol in Hdead. simpl in Hdead.
    congruence.
Qed.

Lemma getPopulation_bounded_witness :
  readGrid Sample.store3 0%nat = Some Sample.grid3 /\
  rectangular 3 3 Sample.grid3 /\
  exists n,
    Life.getPopulation 0%nat Sample.store3 = Ok n Sample.store3 /\
    (n <= 3 * 3)%nat /\
    (n = 0%nat <-> forall row col, truthy (cellAt Sample.grid3 row col) = false).
Proof.
  assert (rectangular 3 3 Sample.grid3) as Hrect.
  { split; [reflexivity|]. repeat constructor. }
  split; [reflexivity|]. split; [exact Hrect|].
  exact (getPopulation_bounded Sample.store3 0%nat Sample.grid3 3 3 eq_refl Hrect).
Defined.

End Stepping.

Section Patterns.

Import Life Val Spec More Dims.

Variables (R C : nat).

Lemma run_ticks (n : nat) : forall w G,
  is_Some (App.interval w) ->
  readGrid (App.heap w) (App.grid (App.ui w)) = Some G ->
  exists w',
    App.run (replicate n App.Tick) w = Some w' /\
    readGrid (App.heap w') (App.grid (App.ui w')) = Some (Nat.iter n Val.nextGeneration G) /\
    (exists g', App.ui w' =
       App.setGrid g'
         (App.setGeneration
            (fun gen => gen + Z.of_nat (n * App.updaterRuns (App.strictMode w)))
            (App.ui w))) /\
    App.interval w' = App.interval w /\
    App.window w' = App.window w /\
    App.strictMode w' = App.strictMode w /\
    preserved (App.heap w) (App.heap w').
Proof.
  induction n as [|n IH]; intros w G Hiv HG.
  - exists w. split; [done|]. split; [done|].
    split; [|split; [done|split; [done|split; [done|apply preserved_refl]]]].
    exists (App.grid (App.ui w)). destruct (App.ui w). unfold App.setGrid, App.setGeneration.
    simpl. f_equal. lia.
  - cbn [replicate App.run]. unfold App.step at 1. cbn [App.enabled App.handler].
    rewrite bool_decide_true by done.
    destruct (tick_run (App.strictMode w) _ _ _ HG) as (g1 & st1 & E & Hp1 & _ & HG1).
    rewrite E. rewrite gameLoopEffect_same by done. cbn [mbind option_bind].
    set (w1 := App.Build_World _ _ _ _ _).
    destruct (IH w1 (Val.nextGeneration G)) as (w' & E' & HG' & [g' Hui] & Hiv' & Hwin & Hsm & Hp).
    { done. }
    { exact HG1. }
    exists w'. split; [done|]. split.
    { rewrite HG'. by rewrite Nat.iter_succ_r. }
    split; [|split; [done|split; [done|split; [done|]]]].
    + exists g'. rewrite Hui. subst w1. cbn [App.ui App.strictMode]. destruct (App.ui w).
      unfold App.setGrid, App.setGeneration. simpl. f_equal. lia.
    + by eapply preserved_trans.
Qed.

(** X9. The 2 x 2 block with top-left corner [(r, c)] is a still life
    wherever it fits in the grid, also against the border: after any
    number [n] of ticks of the running component the grid shown is the same
    block.  The generation counter has then advanced by [n] for every run
    of the game-loop updater per tick: by [n] where React runs it once, by
    [2 * n] in a development build under [<StrictMode>]. *)
Theorem block_is_stable r c (n : nat) w :
  (r + 1 < R)%nat -> (c + 1 < C)%nat ->
  is_Some (App.interval w) ->
  readGrid (App.heap w) (App.grid (App.ui w)) = Some (tabulate R C (block r c)) ->
  exists w',
    App.run (replicate n App.Tick) w = Some w' /\
    readGrid (App.heap w') (App.grid (App.ui w')) = Some (tabulate R C (block r c)) /\
    App.generation (App.ui w') =
      App.generation (App.ui w) + Z.of_nat n * (if App.strictMode w then 2 else 1).
Proof.
  intros Hr Hc Hiv HG.
  destruct (run_ticks n w _ Hiv HG) as (w' & E & HG' & [g' Hui] & _).
  exists w'. split; [done|]. split.
  - rewrite HG'. f_equal. clear -Hr Hc.
    pose proof (nextGeneration_block R C r c Hr Hc) as Hb. cbv zeta in Hb.
    induction n as [|n IH]; [done|]. rewrite Nat.iter_succ, IH. apply Hb.
  - rewrite Hui. cbn [App.generation App.setGrid App.setGeneration].
    unfold App.updaterRuns. destruct (App.strictMode w); lia.
Qed.

End Patterns.

Lemma block_is_stable_witness :
  (1 + 1 < 3)%nat /\ (1 + 1 < 3)%nat /\
  is_Some (App.interval More.blockWorld) /\
  readGrid (App.heap More.blockWorld) (App.grid (App.ui More.blockWorld))
    = Some (Spec.tabulate 3 3 (More.block 1 1)) /\
  exists w',
    App.run (replicate 2 App.Tick) More.blockWorld = Some w' /\
    readGrid (App.heap w') (App.grid (App.ui w')) = Some (Spec.tabulate 3 3 (More.block 1 1)) /\
    App.generation (App.ui w') = 7 + 2 * 2.
Proof.
  assert (is_Some (App.interval More.blockWorld)) as Hiv.
  { exists 500. reflexivity. }
  split; [lia|]. split; [lia|]. split; [exact Hiv|]. split; [reflexivity|].
  apply (block_is_stable 3 3 1 1 2 More.blockWorld); [lia|lia|exact Hiv|reflexivity].
Defined.

Section Fresh.

Import Life Val Spec More Dims.

(** X10. [initializeGrid] builds every row as an array of its own: the
    rows of the new grid are pairwise distinct references, none of them
    existed before the call, each holds [cols] dead cells, the number of
    rows and columns is the one [getGridDimensions] computes, and no array
    that existed is written to.  The branch of the safety check is never
    taken: the call never throws. *)
Theorem initializeGrid_fresh_rows window st :
  let d := getGridDimensions window in
  exists g st' rs,
    initializeGrid window st = Ok g st' /\
    gridObjs st !! g = None /\
    gridObjs st' !! g = Some rs /\
    length rs = Z.to_nat (rows d) /\
    NoDup rs /\
    (forall r, r ∈ rs ->
       rowObjs st !! r = None /\
       rowObjs st' !! r = Some (replicate (Z.to_nat (cols d)) (Some false))) /\
    preserved st st'.
Proof.
  intros d. eexists _, _, _. split; [apply initializeGrid_run|].
  split; [by apply lookup_ge_None|].
  split; [simpl; by apply list_lookup_middle|].
  split; [apply length_seq|]. split; [apply NoDup_seq|].
  split; [|apply preserved_withCopy].
  intros r [Hge Hlt]%elem_of_seq. split; [apply lookup_ge_None; lia|]. simpl.
  rewrite lookup_app_r by lia. apply lookup_replicate_2. lia.
Qed.

End Fresh.

Section Reach.

Import Life Val Spec More Dims App.

Lemma allBoolean_allDead R C : allBoolean (allDead R C).
Proof. apply Forall_replicate, Forall_replicate. by eexists. Qed.

Lemma allBoolean_nextGeneration R C G :
  rectangular R C G -> allBoolean (Val.nextGeneration G).
Proof.
  intros H. rewrite (nextGeneration_rows _ _ _ H).
  apply Forall_fmap, Forall_forall. intros row _. simpl.
  apply Forall_fmap, Forall_forall. intros col _. simpl. by eexists.
Qed.

Lemma allBoolean_writeCell R C G row col b :
  rectangular R C G -> (col < C)%nat -> allBoolean G ->
  allBoolean (writeCell G row col (Some b)).
Proof.
  intros [HR HC] Hcol HB. unfold writeCell.
  destruct (G !! row) as [cs|] eqn:E; [|done].
  eapply Forall_lookup_1 in HC; [|done]. simpl in HC.
  apply Forall_insert; [done|]. rewrite jsSet_inside by lia.
  apply Forall_insert; [|by eexists].
  by eapply (Forall_lookup_1 _ G).
Qed.

Lemma allBoolean_cellAt R C G row col :
  rectangular R C G -> allBoolean G -> (row < R)%nat -> (col < C)%nat ->
  exists b, cellAt G row col = Some b.
Proof.
  intros [HR HC] HB Hrow Hcol.
  destruct (lookup_lt_is_Some_2 G row) as [cs Hcs]; [lia|].
  eapply Forall_lookup_1 in HC; [|done]. simpl in HC.
  eapply Forall_lookup_1 in HB; [|done].
  destruct (lookup_lt_is_Some_2 cs col) as [c Hc]; [lia|].
  eapply Forall_lookup_1 in HB; [|done]. destruct HB as [b ->].
  exists b. unfold cellAt. rewrite Hcs. simpl. by rewrite Hc.
Qed.

Lemma shown_wellFormed w : wellFormed w -> shown (heap w) (grid (ui w)) = true.
Proof.
  intros ((G & R & C & HG & [HR _] & HR0) & _). unfold shown. rewrite HG.
  destruct G; [simpl in HR; lia|done].
Qed.

Lemma world_eta w :
  {| heap := heap w; ui := ui w; window := window w; interval := interval w;
     strictMode := strictMode w |} = w.
Proof. by destruct w. Qed.

(** What the handler of an enabled event does to a well-formed, sized
    world. *)
Lemma handler_effect e w :
  wellFormed w -> sized w -> enabled e w = true ->
  exists s' st',
    handler e w (heap w) = Ok s' st' /\
    preserved (heap w) st' /\
    sizedAt st' s' (windowAfter e w) /\
    generation s' =
      (if isTick e then generation (ui w) + Z.of_nat (updaterRuns (strictMode w))
       else if resets e then 0 else generation (ui w)).
Proof.
  intros Hw [(G & HG & Hrect & HB) Hgen] Hen.
  assert (sizedAt (heap w) (ui w) (window w)) as Hsame.
  { split; [|done]. eauto. }
  destruct e as [row col|row col| | | | |value|vp| |b]; cbn [handler windowAfter isTick resets].
  - (* MouseDown *)
    destruct (isRunning (ui w)) eqn:Hrun.
    { rewrite handleMouseDown_running by done.
      eexists _, _. split; [done|]. split; [apply preserved_refl|done]. }
    cbn [enabled] in Hen.
    rewrite (rendered_rectangular _ _ _ _ _ _ _ HG Hrect) in Hen.
    apply bool_decide_eq_true in Hen as [Hrow Hcol].
    destruct (handleMouseDown_run row col _ _ _ Hrun HG) as (st' & E & Hp & HG').
    { destruct Hrect. lia. }
    eexists _, st'. split; [done|]. split; [done|]. split; [|done].
    split; [|done]. eexists. split; [done|].
    split; [by apply rectangular_writeCell|by eapply allBoolean_writeCell].
  - (* MouseEnter *)
    destruct (isRunning (ui w)) eqn:Hrun.
    { rewrite handleMouseEnter_running by done.
      eexists _, _. split; [done|]. split; [apply preserved_refl|done]. }
    destruct (isDragging (ui w)) eqn:Hdrag; last first.
    { rewrite handleMouseEnter_idle by done.
      eexists _, _. split; [done|]. split; [apply preserved_refl|done]. }
    cbn [enabled] in Hen.
    rewrite (rendered_rectangular _ _ _ _ _ _ _ HG Hrect) in Hen.
    apply bool_decide_eq_true in Hen as [Hrow Hcol].
    destruct (handleMouseEnter_run row col _ _ _ Hrun Hdrag HG) as (st' & E & Hp & HG').
    { destruct Hrect. lia. }
    eexists _, st'. split; [done|]. split; [done|]. split; [|done].
    split; [|done]. eexists. split; [done|].
    split; [by apply rectangular_writeCell|by eapply allBoolean_writeCell].
  - eexists _, _. split; [done|]. split; [apply preserved_refl|done].
  - eexists _, _. split; [done|]. split; [apply preserved_refl|done].
  - eexists _, _. split; [done|]. split; [apply preserved_refl|done].
  - (* ClickClear *)
    eexists _, _. split; [apply clearGrid_run|].
    split; [apply preserved_withCopy|]. split; [|done]. split; [|done].
    eexists. split; [by apply readGrid_withCopy, length_replicate|].
    split; [apply rectangular_allDead|apply allBoolean_allDead].
  - eexists _, _. split; [done|]. split; [apply preserved_refl|done].
  - (* Resize *)
    eexists _, _. split; [apply clearGrid_run|].
    split; [apply preserved_withCopy|]. split; [|done]. split; [|done].
    eexists. split; [by apply readGrid_withCopy, length_replicate|].
    split; [apply rectangular_allDead|apply allBoolean_allDead].
  - (* Tick *)
    pose proof (rectangular_nextGeneration _ _ _ Hrect) as Hrect'.
    destruct (tick_run (strictMode w) _ _ _ HG) as (g' & st' & E & Hp & _ & HG').
    eexists _, st'. split; [exact E|].
    split; [exact Hp|]. split; [|done]. split; [|simpl; lia].
    eexists. split; [exact HG'|].
    split; [done|by eapply allBoolean_nextGeneration].
  - eexists _, _. split; [done|]. split; [apply preserved_refl|done].
Qed.

Lemma step_effect e w w' :
  wellFormed w -> sized w -> step e w = Some w' ->
  preserved (heap w) (heap w') /\ sized w' /\
  generation (ui w') =
    (if isTick e then generation (ui w) + Z.of_nat (updaterRuns (strictMode w))
     else if resets e then 0 else generation (ui w)) /\
  strictMode w' = strictMode w.
Proof.
  intros Hw Hs. unfold step. destruct (enabled e w) eqn:Hen; [|done].
  destruct (handler_effect e w Hw Hs Hen) as (s' & st' & E & Hp & Hs' & Hgen).
  rewrite E. intros [= <-]. done.
Qed.

Lemma mount_sized strict vp w : mount strict vp = Some w -> sized w.
Proof.
  unfold mount. rewrite initializeGrid_run. intros [= <-].
  split; [|done]. eexists. split; [by apply readGrid_withCopy, length_replicate|].
  split; [apply rectangular_allDead|apply allBoolean_allDead].
Qed.

Lemma reachable_both w : reachable w -> wellFormed w /\ sized w.
Proof.
  induction 1 as [strict vp w H|e w w' _ [IH1 IH2] H].
  - split; [by eapply mount_wellFormed|by eapply mount_sized].
  - split; [by eapply step_wellFormed|].
    by destruct (step_effect _ _ _ IH1 IH2 H) as (_ & ? & _).
Qed.

Lemma reachable_mounted : reachable Sample.mounted.
Proof. apply (reachable_mount false Sample.phone). vm_compute. reflexivity. Qed.

Lemma reachable_strictMounted : reachable Sample.strictMounted.
Proof. apply (reachable_mount true Sample.phone). vm_compute. reflexivity. Qed.

Lemma reachable_playing : reachable Sample.playing.
Proof.
  apply (reachable_step ClickPlay Sample.mounted); [apply reachable_mounted|].
  vm_compute. reflexivity.
Qed.

(** X11. In every reachable state the grid is a rectangle whose numbers
    of rows and columns are those [getGridDimensions] computes for the
    current viewport, every cell of it holds a boolean (no [undefined], no
    empty slot), every cell of it is rendered and no other, and the
    generation counter is not negative. *)
Theorem reachable_sized w :
  reachable w ->
  let d := getGridDimensions (Some (window w)) in
  exists G,
    readGrid (heap w) (grid (ui w)) = Some G /\
    rectangular (Z.to_nat (rows d)) (Z.to_nat (cols d)) G /\
    (forall row col, (row < Z.to_nat (rows d))%nat -> (col < Z.to_nat (cols d))%nat ->
       exists b, cellAt G row col = Some b) /\
    (forall row col, rendered (heap w) (grid (ui w)) row col =
       bool_decide (row < Z.to_nat (rows d) /\ col < Z.to_nat (cols d))%nat) /\
    0 <= generation (ui w).
Proof.
  intros [_ [(G & HG & Hrect & HB) Hgen]]%reachable_both d.
  exists G. split; [done|]. split; [done|]. split.
  { intros row col. by apply (allBoolean_cellAt _ _ G). }
  split; [|done]. intros row col. by apply (rendered_rectangular _ _ G).
Qed.

Lemma reachable_sized_witness :
  reachable Sample.mounted /\
  let d := getGridDimensions (Some (window Sample.mounted)) in
  exists G,
    readGrid (heap Sample.mounted) (grid (ui Sample.mounted)) = Some G /\
    rectangular (Z.to_nat (rows d)) (Z.to_nat (cols d)) G /\
    (forall row col, (row < Z.to_nat (rows d))%nat -> (col < Z.to_nat (cols d))%nat ->
       exists b, cellAt G row col = Some b) /\
    (forall row col, rendered (heap Sample.mounted) (grid (ui Sample.mounted)) row col =
       bool_decide (row < Z.to_nat (rows d) /\ col < Z.to_nat (cols d))%nat) /\
    0 <= generation (ui Sample.mounted).
Proof.
  split; [apply reachable_mounted|].
  apply (reachable_sized Sample.mounted reachable_mounted).
Defined.

(** X12. No event handler writes to an array that exists: in a reachable
    state, after any event every array of the store holds what it held, so
    the grid of the previous render still reads as the same value. *)
Theorem step_never_overwrites e w w' :
  reachable w -> step e w = Some w' ->
  preserved (heap w) (heap w') /\
  readGrid (heap w') (grid (ui w)) = readGrid (heap w) (grid (ui w)).
Proof.
  intros [Hw Hs]%reachable_both Hstep.
  destruct (step_effect _ _ _ Hw Hs Hstep) as (Hp & _).
  split; [done|]. destruct Hs as [(G & HG & _) _].
  rewrite HG. by eapply readGrid_preserved.
Qed.

Lemma step_never_overwrites_witness :
  reachable Sample.mounted /\
  step ClickPlay Sample.mounted = Some Sample.playing /\
  preserved (heap Sample.mounted) (heap Sample.playing) /\
  readGrid (heap Sample.playing) (grid (ui Sample.mounted)) =
    readGrid (heap Sample.mounted) (grid (ui Sample.mounted)).
Proof.
  assert (step ClickPlay Sample.mounted = Some Sample.playing) as Hstep.
  { vm_compute. reflexivity. }
  split; [apply reachable_mounted|]. split; [exact Hstep|].
  exact (step_never_overwrites ClickPlay Sample.mounted Sample.playing
           reachable_mounted Hstep).
Defined.

(** X13. The generation counter counts the runs of the game-loop updater
    since the last reset: along any sequence of events from a reachable
    state that holds no Clear and no resize, the counter grows by the
    number of ticks in the sequence where React runs the updater once, and
    by twice that number in a development build under [<StrictMode>];
    after a sequence that ends with a Clear or a resize it is 0. *)
Theorem generation_counts_ticks es : forall w w',
  reachable w -> run es w = Some w' ->
  (forallb (fun e => negb (resets e)) es = true ->
   generation (ui w') =
     generation (ui w) +
     Z.of_nat (length (filter (fun e => isTick e = true) es)) *
       (if strictMode w then 2 else 1)) /\
  (forall e es0, es = es0 ++ [e] -> resets e = true -> generation (ui w') = 0).
Proof.
  induction es as [|e es IH]; intros w w' Hr Hrun.
  - injection Hrun as <-. split; [simpl; lia|]. intros e es0 H. by destruct es0.
  - cbn [run] in Hrun. destruct (step e w) as [w1|] eqn:Hstep; [|done].
    simpl in Hrun. pose proof (reachable_step _ _ _ Hr Hstep) as Hr1.
    destruct (reachable_both _ Hr) as [Hw Hs].
    destruct (step_effect _ _ _ Hw Hs Hstep) as (_ & _ & Hgen & Hsm).
    destruct (IH _ _ Hr1 Hrun) as [IH1 IH2]. split.
    + cbn [forallb]. intros [He Hes]%andb_prop. rewrite (IH1 Hes), Hgen, Hsm.
      apply negb_true_iff in He. rewrite He, filter_cons.
      unfold updaterRuns.
      destruct (isTick e) eqn:Ht.
      * rewrite decide_True by done. cbn [length]. destruct (strictMode w); lia.
      * rewrite decide_False by done. lia.
    + intros e' es0 Heq He'. destruct es0 as [|e0 es0].
      * injection Heq as -> ->. injection Hrun as <-. rewrite Hgen, He'.
        by destruct e'.
      * injection Heq as -> ->. by eapply IH2.
Qed.

Lemma generation_counts_ticks_witness :
  reachable Sample.strictMounted /\
  run session Sample.strictMounted = Some played /\
  (forallb (fun e => negb (resets e)) session = true ->
   generation (ui played) = 0 + 2 * 2) /\
  (forall e es0, session = es0 ++ [e] -> resets e = true -> generation (ui played) = 0).
Proof.
  assert (run session Sample.strictMounted = Some played) as Hrun.
  { vm_compute. reflexivity. }
  split; [apply reachable_strictMounted|]. split; [exact Hrun|].
  exact (generation_counts_ticks session Sample.strictMounted played
           reachable_strictMounted Hrun).
Defined.

End Reach.

Section Controls.

Import Life Val Spec More Dims App.

Lemma toggleRunning_twice s : toggleRunning (toggleRunning s) = s.
Proof. destruct s. unfold toggleRunning, setIsRunning. simpl. by rewrite negb_involutive. Qed.

(** X14. Play / Pause in a reachable state: the click flips [isRunning];
    the timer is set with the current speed as its period when the
    component starts running and cleared when it stops; the store, the
    grid, the generation counter and the speed are untouched; and a second
    click brings back the very state before the first. *)
Theorem play_pause_round_trip w :
  reachable w ->
  exists w1,
    step ClickPlay w = Some w1 /\
    isRunning (ui w1) = negb (isRunning (ui w)) /\
    interval w1 = (if isRunning (ui w) then None else Some (speed (ui w))) /\
    heap w1 = heap w /\ grid (ui w1) = grid (ui w) /\
    generation (ui w1) = generation (ui w) /\ speed (ui w1) = speed (ui w) /\
    step ClickPlay w1 = Some w.
Proof.
  intros [Hw _]%reachable_both. pose proof (shown_wellFormed _ Hw) as Hshown.
  destruct Hw as (_ & Hiv & _).
  assert (forall s s' iv, isRunning s' = negb (isRunning s) ->
            gameLoopEffect s s' iv = if isRunning s' then Some (speed s') else None)
    as Heff.
  { intros s s' iv H. unfold gameLoopEffect. rewrite bool_decide_false; [done|].
    rewrite H. intros [H' _]. by destruct (isRunning s). }
  eexists. unfold step at 1. cbn [enabled handler]. rewrite Hshown.
  cbn [mret M_ret]. rewrite Heff by done.
  split; [done|]. cbn [heap ui window interval].
  split; [done|]. split; [simpl; by destruct (isRunning (ui w))|].
  do 4 (split; [done|]).
  unfold step. cbn [enabled handler heap ui window interval].
  change (grid (toggleRunning (ui w))) with (grid (ui w)). rewrite Hshown.
  cbn [mret M_ret]. rewrite toggleRunning_twice.
  rewrite Heff by (simpl; by rewrite negb_involutive).
  cbn [windowAfter window strictMode]. rewrite <- Hiv. by rewrite world_eta.
Qed.

Lemma play_pause_round_trip_witness :
  reachable Sample.mounted /\
  exists w1,
    step ClickPlay Sample.mounted = Some w1 /\
    isRunning (ui w1) = negb (isRunning (ui Sample.mounted)) /\
    interval w1 =
      (if isRunning (ui Sample.mounted) then None else Some (speed (ui Sample.mounted))) /\
    heap w1 = heap Sample.mounted /\ grid (ui w1) = grid (ui Sample.mounted) /\
    generation (ui w1) = generation (ui Sample.mounted) /\
    speed (ui w1) = speed (ui Sample.mounted) /\
    step ClickPlay w1 = Some Sample.mounted.
Proof.
  split; [apply reachable_mounted|].
  apply (play_pause_round_trip Sample.mounted reachable_mounted).
Defined.

(** X15. The slider in a reachable state: a value between 100 and 2000
    is accepted; afterwards the slider shows that value again
    ([2100 - speed]), the period is [2100 - value], so a larger value is a
    faster simulation, and while running the timer is replaced at once by
    one with the new period; the store, the grid, the generation counter
    and [isRunning] are untouched. *)
Theorem slider_sets_period w value :
  reachable w -> 100 <= value <= 2000 ->
  exists w',
    step (SliderChange value) w = Some w' /\
    sliderPosition (ui w') = value /\
    speed (ui w') = 2100 - value /\
    interval w' = (if isRunning (ui w) then Some (2100 - value) else None) /\
    heap w' = heap w /\ grid (ui w') = grid (ui w) /\
    generation (ui w') = generation (ui w) /\ isRunning (ui w') = isRunning (ui w).
Proof.
  intros [Hw _]%reachable_both Hv. pose proof (shown_wellFormed _ Hw) as Hshown.
  destruct Hw as (_ & Hiv & _).
  eexists. unfold step. cbn [enabled handler]. rewrite Hshown.
  assert (sliderValue value = true) as ->.
  { unfold sliderValue. apply andb_true_intro. split; apply Z.leb_le; lia. }
  simpl. split; [done|]. split; [unfold sliderPosition; simpl; lia|].
  split; [done|]. split; [|done].
  by rewrite (gameLoopEffect_timer _ _ _ Hiv).
Qed.

Lemma slider_sets_period_witness :
  reachable Sample.playing /\ 100 <= 1900 <= 2000 /\
  exists w',
    step (SliderChange 1900) Sample.playing = Some w' /\
    sliderPosition (ui w') = 1900 /\
    speed (ui w') = 2100 - 1900 /\
    interval w' = (if isRunning (ui Sample.playing) then Some (2100 - 1900) else None) /\
    heap w' = heap Sample.playing /\ grid (ui w') = grid (ui Sample.playing) /\
    generation (ui w') = generation (ui Sample.playing) /\
    isRunning (ui w') = isRunning (ui Sample.playing).
Proof.
  split; [apply reachable_playing|]. split; [lia|].
  apply (slider_sets_period Sample.playing 1900 reachable_playing). lia.
Defined.

(** X16. A resize in a reachable state, running or not, dragging or not:
    the event is always handled; the grid becomes an all-dead grid of the
    dimensions computed for the new viewport, the generation is 0,
    [isRunning] is false and the timer is cleared; the speed, the drag
    state and the rules panel stay as they were (a drag in progress is not
    ended); no array that existed is written to. *)
Theorem resize_resets w vp :
  reachable w ->
  let d := getGridDimensions (Some vp) in
  exists w',
    step (Resize vp) w = Some w' /\
    window w' = vp /\
    readGrid (heap w') (grid (ui w')) =
      Some (allDead (Z.to_nat (rows d)) (Z.to_nat (cols d))) /\
    generation (ui w') = 0 /\ isRunning (ui w') = false /\ interval w' = None /\
    speed (ui w') = speed (ui w) /\ isDragging (ui w') = isDragging (ui w) /\
    dragMode (ui w') = dragMode (ui w) /\ showRules (ui w') = showRules (ui w) /\
    preserved (heap w) (heap w').
Proof.
  intros [Hw _]%reachable_both d. destruct Hw as (_ & Hiv & _).
  eexists. unfold step. cbn [enabled handler]. rewrite handleResize_run, clearGrid_run.
  split; [done|]. cbn [heap ui window interval windowAfter]. split; [done|].
  split; [by apply readGrid_withCopy, length_replicate|].
  split; [done|]. split; [done|].
  split; [by rewrite (gameLoopEffect_timer _ _ _ Hiv)|].
  do 4 (split; [done|]). apply preserved_withCopy.
Qed.

Lemma resize_resets_witness :
  reachable Sample.playing /\
  let d := getGridDimensions (Some (window (Sample.world3 false))) in
  exists w',
    step (Resize (window (Sample.world3 false))) Sample.playing = Some w' /\
    window w' = window (Sample.world3 false) /\
    readGrid (heap w') (grid (ui w')) =
      Some (allDead (Z.to_nat (rows d)) (Z.to_nat (cols d))) /\
    generation (ui w') = 0 /\ isRunning (ui w') = false /\ interval w' = None /\
    speed (ui w') = speed (ui Sample.playing) /\
    isDragging (ui w') = isDragging (ui Sample.playing) /\
    dragMode (ui w') = dragMode (ui Sample.playing) /\
    showRules (ui w') = showRules (ui Sample.playing) /\
    preserved (heap Sample.playing) (heap w').
Proof.
  split; [apply reachable_playing|].
  apply (resize_resets Sample.playing (window (Sample.world3 false)) reachable_playing).
Defined.

(** X17. The pointer entering a cell while no drag is in progress changes
    nothing at all: the world after the event is the world before it. *)
Theorem mouseEnter_idle_noop w row col :
  isDragging (ui w) = false ->
  step (MouseEnter row col) w =
    if rendered (heap w) (grid (ui w)) row col then Some w else None.
Proof.
  intros Hdrag. unfold step. cbn [enabled handler].
  destruct (rendered _ _ _ _); [|done].
  rewrite handleMouseEnter_idle by done. cbn [windowAfter].
  rewrite gameLoopEffect_same by done. by rewrite world_eta.
Qed.

Lemma mouseEnter_idle_noop_witness :
  isDragging (ui (Sample.world3 false)) = false /\
  step (MouseEnter 1 2) (Sample.world3 false) =
    if rendered (heap (Sample.world3 false)) (grid (ui (Sample.world3 false))) 1 2
    then Some (Sample.world3 false) else None.
Proof.
  split; [reflexivity|].
  apply (mouseEnter_idle_noop (Sample.world3 false) 1 2). reflexivity.
Defined.

(** X18. Two clicks on the same cell while paused (pointer down, up,
    down, up) bring the grid back to the value it had, end with no drag in
    progress, and leave the generation counter, the speed and the timer as
    they were; the cell is alive in between if it was dead, and dead if it
    was alive. *)
Theorem double_click_restores w row col :
  reachable w -> isRunning (ui w) = false ->
  rendered (heap w) (grid (ui w)) row col = true ->
  exists G w1 w2,
    readGrid (heap w) (grid (ui w)) = Some G /\
    run (click row col) w = Some w1 /\
    readGrid (heap w1) (grid (ui w1)) = Some (Val.toggleCell row col G) /\
    cellAt (Val.toggleCell row col G) row col = Some (negb (truthy (cellAt G row col))) /\
    run (click row col) w1 = Some w2 /\
    readGrid (heap w2) (grid (ui w2)) = Some G /\
    isDragging (ui w2) = false /\
    generation (ui w2) = generation (ui w) /\ speed (ui w2) = speed (ui w) /\
    interval w2 = interval w.
Proof.
  intros [Hw [(G & HG & Hrect & HB) _]]%reachable_both Hrun Hren.
  set (d := getGridDimensions (Some (window w))) in *.
  rewrite (rendered_rectangular _ _ _ _ _ _ _ HG Hrect) in Hren.
  apply bool_decide_eq_true in Hren as [Hrow Hcol].
  destruct (allBoolean_cellAt _ _ _ row col Hrect HB Hrow Hcol) as [b Hb].
  assert (forall w0 G0,
    isRunning (ui w0) = false -> readGrid (heap w0) (grid (ui w0)) = Some G0 ->
    rectangular (Z.to_nat (rows d)) (Z.to_nat (cols d)) G0 ->
    exists w',
      run (click row col) w0 = Some w' /\
      readGrid (heap w') (grid (ui w')) = Some (Val.toggleCell row col G0) /\
      isRunning (ui w') = false /\ isDragging (ui w') = false /\
      generation (ui w') = generation (ui w0) /\ speed (ui w') = speed (ui w0) /\
      interval w' = interval w0) as Hclick.
  { intros w0 G0 Hrun0 HG0 Hrect0.
    destruct (step_mouseDown _ _ w0 G0 row col Hrun0 HG0 Hrect0 Hrow Hcol)
      as (w' & E & [g' Hui] & HG' & Hp).
    unfold click. cbn [run]. rewrite E. cbn [mbind option_bind].
    assert (shown (heap w') (grid (ui w')) = true) as Hshown.
    { unfold shown. rewrite HG'.
      destruct (rectangular_writeCell _ _ _ row col
                  (Some (negb (truthy (cellAt G0 row col)))) Hrect0 Hcol) as [HR _].
      fold (Val.toggleCell row col G0) in HR.
      destruct (Val.toggleCell row col G0); [simpl in HR; lia|done]. }
    assert (interval w' = interval w0) as Hiv'.
    { revert E. unfold step. destruct (enabled _ w0); [|done].
      destruct (handler _ w0 (heap w0)) as [s1 st1|]; [|done].
      intros [= <-]. simpl in Hui. subst s1. cbn [interval].
      by apply gameLoopEffect_same. }
    unfold step. cbn [enabled handler]. rewrite Hshown.
    cbn [mret option_ret M_ret]. eexists. split; [done|].
    cbn [heap ui window interval]. unfold handleMouseUp.
    rewrite gameLoopEffect_same by done.
    rewrite Hui in *. by cbn in *. }
  destruct (Hclick w G Hrun HG Hrect) as (w1 & E1 & HG1 & Hrun1 & _ & Hgen1 & Hsp1 & Hiv1).
  destruct (Hclick w1 _ Hrun1 HG1) as (w2 & E2 & HG2 & _ & Hdrag2 & Hgen2 & Hsp2 & Hiv2).
  { by apply rectangular_writeCell. }
  rewrite (toggleCell_twice _ _ _ _ Hb) in HG2.
  exists G, w1, w2. split; [done|]. split; [done|]. split; [done|]. split.
  { unfold Val.toggleCell.
    rewrite (cellAt_writeCell _ _ _ _ _ _ _ _ Hrect Hrow Hcol).
    by rewrite bool_decide_true. }
  split; [done|]. split; [done|]. split; [done|].
  split; [congruence|]. split; congruence.
Qed.

Lemma double_click_restores_witness :
  reachable Sample.mounted /\
  isRunning (ui Sample.mounted) = false /\
  rendered (heap Sample.mounted) (grid (ui Sample.mounted)) 0 0 = true /\
  exists G w1 w2,
    readGrid (heap Sample.mounted) (grid (ui Sample.mounted)) = Some G /\
    run (click 0 0) Sample.mounted = Some w1 /\
    readGrid (heap w1) (grid (ui w1)) = Some (Val.toggleCell 0 0 G) /\
    cellAt (Val.toggleCell 0 0 G) 0 0 = Some (negb (truthy (cellAt G 0 0))) /\
    run (click 0 0) w1 = Some w2 /\
    readGrid (heap w2) (grid (ui w2)) = Some G /\
    isDragging (ui w2) = false /\
    generation (ui w2) = generation (ui Sample.mounted) /\
    speed (ui w2) = speed (ui Sample.mounted) /\
    interval w2 = interval Sample.mounted.
Proof.
  assert (rendered (heap Sample.mounted) (grid (ui Sample.mounted)) 0 0 = true) as Hren.
  { vm_compute. reflexivity. }
  split; [apply reachable_mounted|]. split; [reflexivity|]. split; [exact Hren|].
  exact (double_click_restores Sample.mounted 0 0 reachable_mounted eq_refl Hren).
Defined.

(** X19. No handler throws in a reachable state: every event that can
    occur there (a pointer event on a rendered cell, a tick while the timer
    is live, a slider value between 100 and 2000, any resize, any button
    while the grid is shown) is handled and gives the next state; and the
    grid is shown, so the buttons and the slider are always there. *)
Theorem handlers_never_throw e w :
  reachable w -> enabled e w = true ->
  shown (heap w) (grid (ui w)) = true /\
  exists s' st',
    handler e w (heap w) = Ok s' st' /\
    step e w = Some {| heap := st'; ui := s'; window := windowAfter e w;
                       interval := if isRunning s' then Some (speed s') else None;
                       strictMode := strictMode w |}.
Proof.
  intros [Hw _]%reachable_both Hen. split; [by apply shown_wellFormed|].
  destruct (handler_wellFormed e w Hw Hen) as (s' & st' & E & _).
  exists s', st'. split; [done|]. unfold step. rewrite Hen, E.
  destruct Hw as (_ & Hiv & _). by rewrite (gameLoopEffect_timer _ _ _ Hiv).
Qed.

Lemma handlers_never_throw_witness :
  reachable Sample.mounted /\
  enabled (MouseDown 0 0) Sample.mounted = true /\
  shown (heap Sample.mounted) (grid (ui Sample.mounted)) = true /\
  exists s' st',
    handler (MouseDown 0 0) Sample.mounted (heap Sample.mounted) = Ok s' st' /\
    step (MouseDown 0 0) Sample.mounted =
      Some {| heap := st'; ui := s'; window := windowAfter (MouseDown 0 0) Sample.mounted;
              interval := if isRunning s' then Some (speed s') else None;
              strictMode := strictMode Sample.mounted |}.
Proof.
  assert (enabled (MouseDown 0 0) Sample.mounted = true) as Hen.
  { vm_compute. reflexivity. }
  split; [apply reachable_mounted|]. split; [exact Hen|].
  exact (handlers_never_throw (MouseDown 0 0) Sample.mounted reachable_mounted Hen).
Defined.

End Controls.

Section Sizing.

Import Dims.

Local Open Scope Q_scope.

Lemma cells_ge (size : Q) (k : Z) :
  inject_Z k * 20 <= size -> (k <= Qfloor (size / CELL_SIZE))%Z.
Proof.
  intros H. rewrite <- (Qfloor_Z k) at 1. apply Qfloor_resp_le.
  apply Qle_shift_div_l; [reflexivity|exact H].
Qed.

Lemma cells_le (size : Q) (k : Z) :
  size < inject_Z (k + 1) * 20 -> (Qfloor (size / CELL_SIZE) <= k)%Z.
Proof.
  intros H. apply Z.lt_succ_r. unfold Z.succ. rewrite Zlt_Qlt.
  apply Qle_lt_trans with (size / CELL_SIZE); [apply Qfloor_le|].
  apply Qlt_shift_div_r; [reflexivity|exact H].
Qed.

Lemma Qlt_bool_iff (x y : Q) : Qlt_bool x y = true <-> x < y.
Proof.
  unfold Qlt_bool. rewrite negb_true_iff. split.
  - intros H. apply Qnot_le_lt. intros H'%Qle_bool_iff. congruence.
  - intros H. destruct (Qle_bool y x) eqn:E; [|done].
    apply Qle_bool_iff in E. exfalso. by eapply Qlt_not_le.
Qed.

(** X20. The three device classes exclude each other and cover every
    viewport (also the absent one), and in each of them the drawing region
    has a minimum size that keeps the grid well above the lower clamps:
    12..25 rows and 15..36 columns on mobile, 20..40 rows and 20..25 columns
    on a tablet, and a square grid of 25..40 rows and as many columns on a
    desktop.  So the lower bounds 8 and 10 of the clamps never apply. *)
Theorem dimensions_by_class window :
  let d := getGridDimensions window in
  (isMobile d = true /\ isTablet d = false /\ isDesktop d = false /\
   (12 <= rows d <= 25)%Z /\ (15 <= cols d <= 36)%Z) \/
  (isMobile d = false /\ isTablet d = true /\ isDesktop d = false /\
   (20 <= rows d <= 40)%Z /\ (20 <= cols d <= 25)%Z) \/
  (isMobile d = false /\ isTablet d = false /\ isDesktop d = true /\
   (25 <= rows d <= 40)%Z /\ cols d = rows d).
Proof.
  unfold getGridDimensions.
  set (windowHeight := match window with Some w => innerHeight w | None => _ end).
  set (windowWidth := match window with Some w => innerWidth w | None => _ end).
  cbv zeta. destruct (Qlt_bool windowWidth 768) eqn:Hm.
  { (* mobile *)
    left. apply Qlt_bool_iff in Hm.
    assert (Qle_bool 768 windowWidth = false) as ->.
    { destruct (Qle_bool 768 windowWidth) eqn:E; [|done].
      apply Qle_bool_iff in E. lra. }
    assert (Qle_bool 1024 windowWidth = false) as ->.
    { destruct (Qle_bool 1024 windowWidth) eqn:E; [|done].
      apply Qle_bool_iff in E. lra. }
    cbn [andb rows cols isMobile isTablet isDesktop]. do 3 (split; [done|]).
    unfold clampCells.
    pose proof (cells_ge (Qmax (windowHeight * 0.3) 250) 12) as H1.
    pose proof (cells_ge (Qmax (windowWidth - 40) 300) 15) as H2.
    pose proof (cells_le (Qmax (windowWidth - 40) 300) 36) as H3.
    assert (inject_Z 12 * 20 <= Qmax (windowHeight * 0.3) 250) as H1'.
    { apply Qle_trans with 250; [|apply Q.le_max_r]. unfold Qle. simpl. lia. }
    assert (inject_Z 15 * 20 <= Qmax (windowWidth - 40) 300) as H2'.
    { apply Qle_trans with 300; [|apply Q.le_max_r]. unfold Qle. simpl. lia. }
    assert (Qmax (windowWidth - 40) 300 < inject_Z (36 + 1) * 20) as H3'.
    { apply Q.max_lub_lt; [|reflexivity].
      apply Qlt_le_trans with 740; [lra|]. unfold Qle. simpl. lia. }
    specialize (H1 H1'). specialize (H2 H2'). specialize (H3 H3'). lia. }
  assert (Qle_bool 768 windowWidth = true) as H768.
  { unfold Qlt_bool in Hm. by apply negb_false_iff in Hm. }
  rewrite H768. unfold Qlt_bool.
  destruct (Qle_bool 1024 windowWidth) eqn:Hd; cbn [negb andb].
  - (* desktop *)
    right. right. cbn [rows cols isMobile isTablet isDesktop]. do 3 (split; [done|]).
    unfold clampCells.
    pose proof (cells_ge (Qmax (windowHeight - 200) 500) 25) as H1.
    assert (inject_Z 25 * 20 <= Qmax (windowHeight - 200) 500) as H1'.
    { apply Qle_trans with 500; [|apply Q.le_max_r]. unfold Qle. simpl. lia. }
    specialize (H1 H1'). lia.
  - (* tablet *)
    right. left. cbn [rows cols isMobile isTablet isDesktop]. do 3 (split; [done|]).
    assert (windowWidth < 1024) as Hw.
    { apply Qnot_le_lt. intros E%Qle_bool_iff. congruence. }
    unfold clampCells.
    pose proof (cells_ge (Qmax (windowHeight - 200) 400) 20) as H1.
    pose proof (cells_ge (Qmax (windowWidth * 0.5) 400) 20) as H2.
    pose proof (cells_le (Qmax (windowWidth * 0.5) 400) 25) as H3.
    assert (inject_Z 20 * 20 <= Qmax (windowHeight - 200) 400) as H1'.
    { apply Qle_trans with 400; [|apply Q.le_max_r]. unfold Qle. simpl. lia. }
    assert (inject_Z 20 * 20 <= Qmax (windowWidth * 0.5) 400) as H2'.
    { apply Qle_trans with 400; [|apply Q.le_max_r]. unfold Qle. simpl. lia. }
    assert (Qmax (windowWidth * 0.5) 400 < inject_Z (25 + 1) * 20) as H3'.
    { apply Q.max_lub_lt; [|reflexivity].
      apply Qlt_le_trans with 520; [lra|]. unfold Qle. simpl. lia. }
    specialize (H1 H1'). specialize (H2 H2'). specialize (H3 H3'). lia.
Qed.

Lemma mapArray_throw {A B} (f : A -> M B) (x : A) (xs : list A) (e : exn) (st : store) :
  f x st = Throw e -> mapArray f (x :: xs) st = Throw e.
Proof. intros H. simpl. rewrite run_bind. by rewrite H. Qed.

(** X21. The second revision has no clamps and no check: there
    [initializeGrid] throws a [RangeError] when the window is less than 40
    pixels high (a negative array length), and also when it is at least 60
    pixels high but three quarters of its width are less than 40 pixels. *)
Theorem unbounded_initializeGrid_throws window st :
  innerHeight window < 40 \/
  (60 <= innerHeight window /\ innerWidth window * 0.75 < 40) ->
  Unbounded.initializeGrid window st = Throw RangeError.
Proof.
  unfold Unbounded.initializeGrid, Unbounded.getGridDimensions.
  cbn [Unbounded.rows Unbounded.cols]. unfold emptyGrid.
  intros [Hh|[Hh Hw]].
  - assert ((Qfloor ((innerHeight window - 40) / CELL_SIZE) <? 0)%Z = true) as ->; [|done].
    apply Z.ltb_lt.
    assert (Qfloor ((innerHeight window - 40) / CELL_SIZE) <= -1)%Z; [|lia].
    apply cells_le. apply Qlt_le_trans with 0; [lra|]. unfold Qle. simpl. lia.
  - pose proof (cells_ge (innerHeight window - 40) 1) as H1.
    assert (inject_Z 1 * 20 <= innerHeight window - 40) as H1'.
    { apply Qle_trans with 20; [unfold Qle; simpl; lia|lra]. }
    specialize (H1 H1').
    assert ((Qfloor ((innerHeight window - 40) / CELL_SIZE) <? 0)%Z = false) as ->
      by (apply Z.ltb_ge; lia).
    assert ((Qfloor ((innerWidth window * 0.75 - 40) / CELL_SIZE) <? 0)%Z = true) as ->.
    { apply Z.ltb_lt.
      assert (Qfloor ((innerWidth window * 0.75 - 40) / CELL_SIZE) <= -1)%Z; [|lia].
      apply cells_le. apply Qlt_le_trans with 0; [lra|]. unfold Qle. simpl. lia. }
    destruct (Z.to_nat (Qfloor ((innerHeight window - 40) / CELL_SIZE))) as [|k] eqn:E; [lia|].
    rewrite run_bind. cbn [replicate]. by rewrite (mapArray_throw _ _ _ RangeError).
Qed.

Lemma unbounded_initializeGrid_throws_witness :
  (innerHeight {| innerWidth := 360; innerHeight := 30 |} < 40 \/
   (60 <= innerHeight {| innerWidth := 360; innerHeight := 30 |} /\
    innerWidth {| innerWidth := 360; innerHeight := 30 |} * 0.75 < 40)) /\
  Unbounded.initializeGrid {| innerWidth := 360; innerHeight := 30 |} (Store [] [[]])
    = Throw RangeError.
Proof.
  assert (innerHeight {| innerWidth := 360; innerHeight := 30 |} < 40 \/
   (60 <= innerHeight {| innerWidth := 360; innerHeight := 30 |} /\
    innerWidth {| innerWidth := 360; innerHeight := 30 |} * 0.75 < 40)) as H.
  { left. reflexivity. }
  split; [exact H|].
  exact (unbounded_initializeGrid_throws {| innerWidth := 360; innerHeight := 30 |}
           (Store [] [[]]) H).
Defined.

End Sizing.

Section Underpopulation.

Import Life Val Spec More.

Lemma population_writeCell G row col cs c v :
  G !! row = Some cs -> cs !! col = Some c ->
  (Val.getPopulation (writeCell G row col v) + weight c =
   Val.getPopulation G + weight v)%nat.
Proof.
  intros Hcs Hc. pose proof (lookup_lt_Some _ _ _ Hc) as Hlt.
  unfold writeCell. rewrite Hcs, jsSet_inside by done.
  pose proof (population_insert G row cs (<[col := v]> cs) Hcs) as H1.
  pose proof (population_row_insert cs col c v Hc) as H2. lia.
Qed.

Lemma sum_list_with_agree {A} (f f' : A -> nat) (l : list A) :
  (forall d, d ∈ l -> f' d = f d) -> sum_list_with f' l = sum_list_with f l.
Proof.
  induction l as [|d l IH]; intros H; [done|]. cbn [sum_list_with].
  rewrite (H d) by left. rewrite IH; [done|]. intros d' Hd'. apply H. by right.
Qed.

(** Distinct cells of the grid that are alive are counted by the
    population. *)
Lemma live_sum_le_population R C row col (l : list (Z * Z)) : forall G,
  rectangular R C G -> NoDup l ->
  (sum_list_with (fun d => if inside R C (row + d.1) (col + d.2) &&
                              alive G (row + d.1) (col + d.2) then 1 else 0)%nat l
   <= Val.getPopulation G)%nat.
Proof.
  induction l as [|d l IH]; intros G Hrect Hnd; [simpl; lia|].
  apply NoDup_cons in Hnd as [Hd Hnd]. cbn [sum_list_with].
  destruct (inside R C (row + d.1) (col + d.2)) eqn:Hin; last first.
  { simpl. by apply IH. }
  destruct (alive G (row + d.1) (col + d.2)) eqn:Hal; last first.
  { simpl. by apply IH. }
  cbn [andb].
  pose proof Hin as Hin'. unfold inside in Hin'.
  rewrite !andb_true_iff, !Z.leb_le, !Z.ltb_lt in Hin'.
  set (r := Z.to_nat (row + d.1)). set (c := Z.to_nat (col + d.2)).
  assert (r < R)%nat as Hr by lia. assert (c < C)%nat as Hc by lia.
  rewrite (alive_inside R C _ _ _ Hin) in Hal. fold r c in Hal.
  destruct Hrect as [HR HC].
  destruct (lookup_lt_is_Some_2 G r) as [cs Hcs]; [lia|].
  pose proof (Forall_lookup_1 _ _ _ _ HC Hcs) as Hlen. simpl in Hlen.
  destruct (lookup_lt_is_Some_2 cs c) as [x Hx]; [lia|].
  assert (truthy x = true) as Hx'.
  { unfold cellAt in Hal. rewrite Hcs in Hal. simpl in Hal. by rewrite Hx in Hal. }
  pose proof (population_writeCell G r c cs x (Some false) Hcs Hx) as Hpop.
  unfold weight in Hpop. rewrite Hx' in Hpop. cbn [truthy] in Hpop.
  assert (rectangular R C G) as Hrect by done.
  specialize (IH (writeCell G r c (Some false))
                 (rectangular_writeCell _ _ _ r c (Some false) Hrect Hc) Hnd).
  rewrite (sum_list_with_agree
             (fun d => if inside R C (row + d.1) (col + d.2) &&
                          alive G (row + d.1) (col + d.2) then 1 else 0)%nat) in IH.
  { lia. }
  intros d' Hd'. destruct (inside R C (row + d'.1) (col + d'.2)) eqn:Hin2; [|done].
  cbn [andb]. rewrite (alive_writeCell R C G r c _ _ _ Hrect Hr Hc Hin2).
  rewrite bool_decide_false; [done|]. intros [H1 H2].
  apply Hd. assert (d = d') as ->; [|done].
  destruct d, d'. simpl in *. f_equal; lia.
Qed.

Lemma NoDup_around : NoDup ((0, 0) :: directions).
Proof. apply (bool_decide_unpack (NoDup ((0, 0) :: directions))). by vm_compute. Qed.

Lemma liveNeighbors_le_population R C G row col :
  rectangular R C G -> (row < R)%nat -> (col < C)%nat ->
  (liveNeighbors R C G (Z.of_nat row) (Z.of_nat col) + weight (cellAt G row col)
   <= Val.getPopulation G)%nat.
Proof.
  intros Hrect Hrow Hcol.
  pose proof (live_sum_le_population R C (Z.of_nat row) (Z.of_nat col) _ G Hrect NoDup_around)
    as H.
  cbn [sum_list_with fst snd] in H. rewrite <- liveNeighbors_sum in H.
  rewrite !Z.add_0_r in H.
  assert (inside R C (Z.of_nat row) (Z.of_nat col) = true) as Hin.
  { unfold inside. rewrite !andb_true_iff, !Z.leb_le, !Z.ltb_lt. lia. }
  rewrite Hin, alive_of_nat in H. cbn [andb] in H.
  unfold weight. lia.
Qed.

Lemma nextGeneration_underpopulated R C G :
  rectangular R C G -> (Val.getPopulation G <= 2)%nat ->
  Val.nextGeneration G = allDead R C.
Proof.
  intros Hrect Hpop. rewrite (nextGeneration_rows _ _ _ Hrect).
  rewrite allDead_tabulate. unfold tabulate. apply list_eq. intros i.
  rewrite !list_lookup_fmap.
  destruct (seq 0 R !! i) as [i'|] eqn:Ei; [|done]. simpl. f_equal.
  apply lookup_seq in Ei as [-> Hi]. simpl.
  unfold nextRow. apply list_eq. intros j. rewrite !list_lookup_fmap.
  destruct (seq 0 C !! j) as [j'|] eqn:Ej; [|done]. simpl. f_equal.
  apply lookup_seq in Ej as [-> Hj]. simpl.
  unfold newCell. f_equal.
  rewrite (countNeighbors_liveNeighbors _ _ _ _ _ Hrect).
  pose proof (liveNeighbors_le_population R C G i j Hrect Hi Hj) as H.
  unfold weight in H. unfold rule.
  destruct (truthy (cellAt G i j)).
  - apply orb_false_intro; apply Nat.eqb_neq; lia.
  - apply Nat.eqb_neq; lia.
Qed.

(** X22. Underpopulation: a rectangular grid with at most two live
    cells, wherever they are, is all dead after one [nextGeneration]; in
    particular a single live cell dies. *)
Theorem underpopulation_dies_out st g G R C n :
  readGrid st g = Some G -> rectangular R C G ->
  Life.getPopulation g st = Ok n st -> (n <= 2)%nat ->
  exists g' st',
    Life.nextGeneration g st = Ok g' st' /\
    readGrid st' g' = Some (allDead R C) /\
    Life.getPopulation g' st' = Ok 0%nat st'.
Proof.
  intros HG Hrect Hn Hle. rewrite (getPopulation_run _ _ _ HG) in Hn.
  injection Hn as <-.
  destruct (nextGeneration_reads _ _ _ HG) as (g' & st' & E & HG' & _).
  rewrite (nextGeneration_underpopulated _ _ _ Hrect Hle) in HG'.
  exists g', st'. split; [done|]. split; [done|].
  by rewrite (getPopulation_run _ _ _ HG'), getPopulation_allDead.
Qed.

Lemma underpopulation_dies_out_witness :
  readGrid pair3 0%nat = Some pairGrid3 /\
  rectangular 3 3 pairGrid3 /\
  Life.getPopulation 0%nat pair3 = Ok 2%nat pair3 /\
  (2 <= 2)%nat /\
  exists g' st',
    Life.nextGeneration 0%nat pair3 = Ok g' st' /\
    readGrid st' g' = Some (allDead 3 3) /\
    Life.getPopulation g' st' = Ok 0%nat st'.
Proof.
  assert (rectangular 3 3 pairGrid3) as Hrect.
  { split; [reflexivity|]. repeat constructor. }
  split; [reflexivity|]. split; [exact Hrect|]. split; [reflexivity|].
  split; [lia|].
  apply (underpopulation_dies_out pair3 0%nat pairGrid3 3 3 2 eq_refl Hrect eq_refl).
  lia.
Defined.

End Underpopulation.

Section Painting.

Import Life Val Spec More Dims App.

Lemma lookup_jsSet cs col v : jsSet cs col v !! col = Some v.
Proof.
  unfold jsSet. destruct (decide (col < length cs)%nat) as [H|H].
  - by apply list_lookup_insert_eq.
  - rewrite lookup_app_r by lia. rewrite lookup_app_r by (rewrite length_replicate; lia).
    rewrite length_replicate. by rewrite Nat.sub_diag.
Qed.

Lemma writeCell_twice G row col v :
  writeCell (writeCell G row col v) row col v = writeCell G row col v.
Proof.
  unfold writeCell. destruct (G !! row) as [cs|] eqn:Hcs; [|by rewrite Hcs].
  pose proof (lookup_lt_Some _ _ _ Hcs) as Hrow.
  rewrite list_lookup_insert_eq by done.
  rewrite list_insert_insert_eq. f_equal.
  pose proof (lookup_jsSet cs col v) as Hv.
  rewrite (jsSet_inside (jsSet cs col v)) by (by eapply lookup_lt_Some).
  by apply list_insert_id.
Qed.

(** X23. Painting is idempotent but never free: the updater of the drag
    branch, run twice on the same cell with the same drag mode, gives a grid
    with the value the first run gave; yet the second run still returns a
    new outer array.  This holds for every column, also one past the end of
    the row. *)
Theorem paintCell_idempotent st g G row col v :
  readGrid st g = Some G -> (row < length G)%nat ->
  exists g1 st1 G1 g2 st2,
    Life.paintCell row col v g st = Ok g1 st1 /\
    readGrid st1 g1 = Some G1 /\
    cellAt G1 row col = Some v /\
    Life.paintCell row col v g1 st1 = Ok g2 st2 /\
    readGrid st2 g2 = Some G1 /\
    g2 <> g1 /\ readGrid st2 g1 = Some G1 /\ readGrid st2 g = Some G.
Proof.
  intros HG Hrow.
  destruct (paintCell_run _ _ _ HG row col v Hrow) as (st1 & E1 & Hp1 & HG1).
  assert (row < length (Val.paintCell row col v G))%nat as Hrow1.
  { unfold Val.paintCell, writeCell. destruct (G !! row); [|done].
    by rewrite length_insert. }
  destruct (paintCell_run _ _ _ HG1 row col v Hrow1) as (st2 & E2 & Hp2 & HG2).
  unfold Val.paintCell in HG2 at 1. unfold Val.paintCell in HG2 at 1.
  rewrite writeCell_twice in HG2. fold (Val.paintCell row col v G) in HG2.
  eexists _, st1, _, _, st2. split; [exact E1|]. split; [exact HG1|]. split.
  { destruct (lookup_lt_is_Some_2 _ _ Hrow) as [cs Hcs].
    unfold Val.paintCell, writeCell, cellAt. rewrite Hcs.
    rewrite list_lookup_insert_eq by done. simpl. by rewrite lookup_jsSet. }
  split; [exact E2|]. split; [exact HG2|]. split.
  { destruct Hp1 as [_ [k Hk]]. rewrite Hk, length_app.
    assert (k <> []); [|destruct k; [done|simpl; lia]].
    intros ->. rewrite app_nil_r in Hk.
    apply readGrid_Some in HG1 as (rs & Hrs & _).
    apply lookup_lt_Some in Hrs. rewrite Hk in Hrs. lia. }
  split; [by eapply readGrid_preserved|].
  eapply readGrid_preserved; [|done]. by eapply preserved_trans.
Qed.

Lemma paintCell_idempotent_witness :
  readGrid Sample.store3 0%nat = Some Sample.grid3 /\
  (1 < length Sample.grid3)%nat /\
  exists g1 st1 G1 g2 st2,
    Life.paintCell 1 2 true 0%nat Sample.store3 = Ok g1 st1 /\
    readGrid st1 g1 = Some G1 /\
    cellAt G1 1 2 = Some true /\
    Life.paintCell 1 2 true g1 st1 = Ok g2 st2 /\
    readGrid st2 g2 = Some G1 /\
    g2 <> g1 /\ readGrid st2 g1 = Some G1 /\ readGrid st2 0%nat = Some Sample.grid3.
Proof.
  assert (1 < length Sample.grid3)%nat as Hrow by (simpl; lia).
  split; [reflexivity|]. split; [exact Hrow|].
  exact (paintCell_idempotent Sample.store3 0%nat Sample.grid3 1 2 true eq_refl Hrow).
Defined.

(** X24. Mounting, in any viewport, under [<StrictMode>] or not: the
    component comes up showing an all-dead grid of the dimensions computed
    for the viewport, with population 0, generation 0, not running, speed
    500 (slider at 1600), no drag in progress and no timer, so that no tick
    occurs before Play; the empty array of the first render is left as it
    was. *)
Theorem mount_state strict vp :
  let d := getGridDimensions (Some vp) in
  exists w,
    mount strict vp = Some w /\ window w = vp /\ strictMode w = strict /\
    readGrid (heap w) (grid (ui w)) =
      Some (allDead (Z.to_nat (rows d)) (Z.to_nat (cols d))) /\
    Life.getPopulation (grid (ui w)) (heap w) = Ok 0%nat (heap w) /\
    generation (ui w) = 0 /\ isRunning (ui w) = false /\
    speed (ui w) = 500 /\ sliderPosition (ui w) = 1600 /\
    isDragging (ui w) = false /\ interval w = None /\
    step Tick w = None /\
    readGrid (heap w) (grid initialState) = Some [].
Proof.
  intros d. unfold mount. rewrite initializeGrid_run. fold d.
  eexists. split; [done|]. cbn [heap ui window interval strictMode].
  split; [done|]. split; [done|].
  assert (readGrid (withCopy (Store [] [[]]) (Z.to_nat (rows d))
                      (allDead (Z.to_nat (rows d)) (Z.to_nat (cols d))))
                   (length (gridObjs (Store [] [[]])))
          = Some (allDead (Z.to_nat (rows d)) (Z.to_nat (cols d)))) as HG.
  { apply readGrid_withCopy, length_replicate. }
  split; [exact HG|]. split.
  { cbn [grid setGrid]. rewrite (getPopulation_run _ _ _ HG).
    by rewrite getPopulation_allDead. }
  do 6 (split; [done|]). split; [done|].
  eapply readGrid_preserved; [apply preserved_withCopy|]. reflexivity.
Qed.

End Painting.
